(** * ivanchat: the model-export scripts

    A shallow embedding of the three scripts that build or fetch a toxicity
    model and export it for TensorFlow Serving:

    - [create_tf_serving_model.py]  (module [MockLength]),
    - [models/toxicity_model/create_toxicity_model.py]  (module [RandomWeights]),
    - [models/scripts/download_pretrained_model.py]  (module [HubFetch]).

    The scripts are Python programs over TensorFlow.  What they compute is
    embedded as functions; what they do to the file system and the console is
    embedded in an error-and-state monad over a [world].  TensorFlow itself is
    not part of the repository: the outcome of serialising, reloading and
    fetching a model are parameters of the scripts. *)

From stdpp Require Import gmap strings list fin_maps.
From Stdlib Require Import Ascii ZArith Lia QArith Qabs Qminmax Reals Lra.
From Stdlib Require Import Floats.SpecFloat.

Close Scope Q_scope.

(* ================================================================= *)
(** * Part I: definitions *)
(* ================================================================= *)

(** ** int32 *)
Module Int32.

(** What an [int32] holds once an integer is stored in it: the integer
    itself from -2^31 to 2^31 - 1, and its two's complement wrap-around
    beyond.  [tf.strings.length] returns its lengths this way, so that a
    string of 2^31 bytes has the length -2^31. *)
Definition wrap (z : Z) : Z := (z + 2 ^ 31) mod 2 ^ 32 - 2 ^ 31.

End Int32.

(** ** float32

    [tf.float32] is IEEE-754 binary32.  The cast from [int32], the division,
    the multiplication and the comparison are basic operations whose result
    the standard fixes bit for bit, so they are modelled exactly, with the
    parametric specification of the standard library at 24 bits of
    precision. *)
Module F32.

Definition prec : Z := 24.
Definition emax : Z := 128.

Definition f32 : Type := spec_float.

(** [tf.cast(n, tf.float32)] for an integer [n]: round to nearest, ties to
    even. *)
Definition of_int32 (n : Z) : f32 := binary_normalize prec emax n 0 false.

(** [x / y] *)
Definition div : f32 -> f32 -> f32 := SFdiv prec emax.

(** [x * y] *)
Definition mul : f32 -> f32 -> f32 := SFmul prec emax.

Definition ltb : f32 -> f32 -> bool := SFltb.
Definition leb : f32 -> f32 -> bool := SFleb.

(** [tf.minimum(x, y)]: "returns the min of x and y (i.e. x < y ? x : y)". *)
Definition minimum (x y : f32) : f32 := if ltb x y then x else y.

Definition zero : f32 := S754_zero false.
Definition one : f32 := SFone prec emax.
(** The literal [100.0]; 100 is a binary32 number. *)
Definition hundred : f32 := of_int32 100.
(** The reciprocal of [100.0] in float32, [1.0 / 100.0]: 10737418 * 2^-30. *)
Definition hundredth : f32 := div one hundred.

(** The closed unit interval. *)
Definition in_unit_interval (x : f32) : Prop :=
  leb zero x = true /\ leb x one = true.

(** The rational a finite float stands for. *)
Definition to_Q (x : f32) : option Q :=
  match x with
  | S754_zero _ => Some 0%Q
  | S754_finite s m e =>
      let v := (inject_Z (Z.pos m) * Qpower 2 e)%Q in
      Some (if s then Qopp v else v)
  | _ => None
  end.

(** [within x q eps]: the float [x] is finite and at most [eps] away from
    the rational [q]. *)
Definition within (x : f32) (q eps : Q) : bool :=
  match to_Q x with
  | Some v => Qle_bool (Qabs (v - q)%Q) eps
  | None => false
  end.

Definition f32_eq_dec (x y : f32) : {x = y} + {x <> y}.
Proof.
  decide equality; first [apply Bool.bool_dec | apply Z.eq_dec | apply Pos.eq_dec].
Defined.

#[global] Instance f32_eq_decision : EqDecision f32 := f32_eq_dec.

(** Shape of a correctly rounded positive value that is normal and at
    least [2^(23 + emin_)]. *)
Definition normal_from (emin_ : Z) (x : f32) : Prop :=
  x = S754_infinity false
  \/ exists m e, x = S754_finite false m e
       /\ (2 ^ 23 <= Z.pos m < 2 ^ 24)%Z /\ (emin_ <= e)%Z.

(** Shape of every value with the sign bit clear, or NaN. *)
Definition nonneg_or_nan (x : f32) : Prop :=
  match x with
  | S754_zero s | S754_infinity s | S754_finite s _ _ => s = false
  | S754_nan => True
  end.

End F32.

(** ** Python: exceptions and the run of a script *)
Module Py.

(** The classes of the exceptions that matter here.  [KeyboardInterrupt],
    [SystemExit] and [GeneratorExit] derive from [BaseException] only; all
    others derive from [Exception]. *)
Inductive exn_class : Type :=
  | KeyboardInterrupt
  | SystemExit
  | GeneratorExit
  | FileExistsError
  | FileNotFoundError
  | NotADirectoryError
  | IsADirectoryError
  | OtherException (name : string).

Record exn : Type := Exn { exn_kind : exn_class; exn_msg : string }.

(** [isinstance(e, Exception)] *)
Definition is_Exception (e : exn) : bool :=
  match exn_kind e with
  | KeyboardInterrupt | SystemExit | GeneratorExit => false
  | _ => true
  end.

(** A path is the list of its components below the root. *)
Abbreviation path := (list string).

Inductive node : Type :=
  | Dir
  | File (data : string).

#[global] Instance node_eq_dec : EqDecision node.
Proof. solve_decision. Defined.

(** What the process writes: a line on standard output, the line that
    [print(l)] writes for a list [l] of strings (Python's [repr] of the
    list), or a stack trace of an exception on standard error. *)
Inductive output : Type :=
  | Stdout (line : string)
  | StdoutList (l : list string)
  | Traceback (e : exn).

Record world : Type := World {
  files : gmap path node;
  console : list output
}.

(** Computations that read and write the world and may raise. *)
Definition M (A : Type) : Type := world -> (exn + A) * world.

Definition ret {A} (a : A) : M A := fun w => (inr a, w).

Definition raise {A} (e : exn) : M A := fun w => (inl e, w).

Definition bind {A B} (c : M A) (k : A -> M B) : M B :=
  fun w =>
    match c w with
    | (inl e, w') => (inl e, w')
    | (inr a, w') => k a w'
    end.

(** [try: c  except Exception as e: h e] *)
Definition try_except_Exception {A} (c : M A) (h : exn -> M A) : M A :=
  fun w =>
    match c w with
    | (inl e, w') => if is_Exception e then h e w' else (inl e, w')
    | r => r
    end.

Definition print (line : string) : M unit :=
  fun w => (inr tt, World (files w) (console w ++ [Stdout line])).

(** [print(l)] for a list of strings. *)
Definition print_list (l : list string) : M unit :=
  fun w => (inr tt, World (files w) (console w ++ [StdoutList l])).

(** [traceback.print_exc()] *)
Definition print_exc (e : exn) : M unit :=
  fun w => (inr tt, World (files w) (console w ++ [Traceback e])).

Definition get_files : M (gmap path node) := fun w => (inr (files w), w).

Definition put_files (f : gmap path node) : M unit :=
  fun w => (inr tt, World f (console w)).

(** Lift an external outcome into the monad. *)
Definition lift {A} (r : exn + A) : M A :=
  match r with
  | inl e => raise e
  | inr a => ret a
  end.

Fixpoint for_each {A} (l : list A) (body : A -> M unit) : M unit :=
  match l with
  | [] => ret tt
  | a :: l' => bind (body a) (fun _ => for_each l' body)
  end.

(** Computations that leave the files alone, whatever they print and
    whether or not they raise. *)
Definition keeps_files {A} (c : M A) : Prop :=
  forall w r w', c w = (r, w') -> files w' = files w.

(** Computations that print nothing, whatever they do to the files and
    whether or not they raise. *)
Definition keeps_console {A} (c : M A) : Prop :=
  forall w r w', c w = (r, w') -> console w' = console w.

(** How the interpreter ends. *)
Inductive outcome : Type :=
  | Finished
  | Uncaught (e : exn).

(** The exit status.  An uncaught [Exception] ends the process with
    status 1; for the other classes the status is decided by the exception
    itself ([SystemExit] carries its code, [KeyboardInterrupt] the signal). *)
Definition exit_status (o : outcome) : option Z :=
  match o with
  | Finished => Some 0%Z
  | Uncaught e => if is_Exception e then Some 1%Z else None
  end.

(** Running the statements of a script as [__main__]. *)
Definition run_main {A} (script : M A) (w : world) : outcome * world :=
  match script w with
  | (inl e, w') => (Uncaught e, w')
  | (inr _, w') => (Finished, w')
  end.

End Py.

Declare Scope py_scope.
Delimit Scope py_scope with py.
Notation "'let*' x := c 'in' k" := (Py.bind c (fun x => k))
  (at level 10, x name, c at level 100, k at level 200) : py_scope.
Notation "c ;; k" := (Py.bind c (fun _ => k))
  (at level 100, k at level 200, right associativity) : py_scope.

(** ** The file system: [os], [shutil]

    The file system is a finite map from paths to nodes; the root is a
    directory and is not stored.  There are no permissions, links or quotas
    in this model: the operations fail only for the reasons written out. *)
Module FS.
Import Py.
Local Open Scope py_scope.

Definition lookup_node (f : gmap path node) (p : path) : option node :=
  match p with
  | [] => Some Dir
  | _ => f !! p
  end.

(** Every stored node lies in a stored directory. *)
Definition well_formed (f : gmap path node) : Prop :=
  map_Forall (fun (q : path) (_ : node) => lookup_node f (removelast q) = Some Dir) f.

#[global] Instance well_formed_dec f : Decision (well_formed f).
Proof. unfold well_formed. apply _. Defined.

(** Computations that keep the file system well formed, whatever their
    outcome. *)
Definition keeps_well_formed {A} (c : M A) : Prop :=
  forall w r w', well_formed (files w) -> c w = (r, w') -> well_formed (files w').

(** Computations that, whatever their outcome, leave every path outside
    [dest] as it was, but for creating directories on the way to [dest]. *)
Definition confined_to (dest : path) {A} (c : M A) : Prop :=
  forall w r w', c w = (r, w') ->
  forall q : path, ~ dest `prefix_of` q ->
    (forall n, files w !! q = Some n -> files w' !! q = Some n)
    /\ (forall n, files w' !! q = Some n ->
          files w !! q = Some n \/ (n = Dir /\ q `prefix_of` dest)).

(** Splitting a path string at a separator, empty components dropped. *)
Fixpoint split_on (sep : ascii) (s : string) (cur : string) : list string :=
  match s with
  | EmptyString => if decide (cur = EmptyString) then [] else [cur]
  | String c s' =>
      if decide (c = sep)
      then (if decide (cur = EmptyString) then [] else [cur]) ++ split_on sep s' EmptyString
      else split_on sep s' (cur +:+ String c EmptyString)
  end.

Definition posix_path (s : string) : path := split_on "/"%char s EmptyString.
Definition windows_path (s : string) : path := split_on "\"%char s EmptyString.

(** [os.path.join] of the components, for printing. *)
Definition path_str (p : path) : string :=
  foldr (fun c acc => "/" +:+ c +:+ acc) EmptyString p.

(** [os.path.dirname] *)
Definition dirname (p : path) : path := removelast p.

(** [os.path.basename] *)
Definition basename (p : path) : string := default EmptyString (last p).

(** [os.path.exists(p)] *)
Definition exists_ (p : path) : M bool :=
  let* f := get_files in
  ret (bool_decide (is_Some (lookup_node f p))).

(** [shutil.rmtree(p)]: removes [p] and everything below it. *)
Definition rmtree (p : path) : M unit :=
  let* f := get_files in
  match lookup_node f p with
  | Some Dir =>
      put_files (filter (fun kv : path * node => ~ p `prefix_of` kv.1) f)
  | Some (File _) => raise (Exn NotADirectoryError (path_str p))
  | None => raise (Exn FileNotFoundError (path_str p))
  end.

(** The directories [os.makedirs] walks through, from the root down:
    [parent] exists and is a directory, [rest] remains to be entered or
    created.  A file in the way makes [os.mkdir] fail: with
    [NotADirectoryError] when it is in the place of a parent, and with
    [FileExistsError], which [exist_ok] lets pass for directories only, when
    it is in the place of the last component. *)
Fixpoint makedirs_from (parent rest : path) (f : gmap path node)
  : exn + gmap path node :=
  match rest with
  | [] => inr f
  | c :: rest' =>
      let q := parent ++ [c] in
      match f !! q with
      | Some Dir => makedirs_from q rest' f
      | Some (File _) =>
          inl (Exn (match rest' with
                    | [] => FileExistsError
                    | _ => NotADirectoryError
                    end) (path_str q))
      | None => makedirs_from q rest' (<[q := Dir]> f)
      end
  end.

(** [os.makedirs(p, exist_ok=True)] *)
Definition makedirs (p : path) : M unit :=
  let* f := get_files in
  let* f' := lift (makedirs_from [] p f) in
  put_files f'.

(** Writing a file, its directory being there. *)
Definition write_file (p : path) (data : string) : M unit :=
  let* f := get_files in
  match lookup_node f p with
  | Some Dir => raise (Exn IsADirectoryError (path_str p))
  | _ => put_files (<[p := File data]> f)
  end.

(** The names in directory [p], split into directories and files. *)
Definition child_of (p : path) (kv : path * node) : option (string * node) :=
  if decide (removelast kv.1 = p)
  then (fun c => (c, kv.2)) <$> last kv.1
  else None.

Definition children (f : gmap path node) (p : path) : list (string * node) :=
  omap (child_of p) (map_to_list f).

Definition is_dir (n : node) : bool :=
  match n with
  | Dir => true
  | File _ => false
  end.

(** Computations that, whatever their outcome, remove no path and turn no
    directory into a file nor a file into a directory. *)
Definition never_removes {A} (c : M A) : Prop :=
  forall w r w' (q : path) n, c w = (r, w') -> files w !! q = Some n ->
    exists n', files w' !! q = Some n' /\ is_dir n' = is_dir n.

Definition subdirs (f : gmap path node) (p : path) : list string :=
  (filter (fun cn : string * node => is_dir cn.2 = true) (children f p)).*1.

Definition plain_files (f : gmap path node) (p : path) : list string :=
  (filter (fun cn : string * node => is_dir cn.2 = false) (children f p)).*1.

(** [os.listdir(p)] *)
Definition listdir (p : path) : M (list string) :=
  let* f := get_files in
  match lookup_node f p with
  | Some Dir => ret ((children f p).*1)
  | Some (File _) => raise (Exn NotADirectoryError (path_str p))
  | None => raise (Exn FileNotFoundError (path_str p))
  end.

(** [os.walk(top)], top down: the triples [(root, dirs, files)].  The order
    of the names inside a directory is the order of the map. *)
Fixpoint walk_from (fuel : nat) (f : gmap path node) (root : path)
  : list (path * list string * list string) :=
  match fuel with
  | O => []
  | S fuel' =>
      let dirs := subdirs f root in
      (root, dirs, plain_files f root)
        :: flat_map (fun d => walk_from fuel' f (root ++ [d])) dirs
  end.

Definition walk (f : gmap path node) (top : path)
  : list (path * list string * list string) :=
  match lookup_node f top with
  | Some Dir => walk_from (S (size f)) f top
  | _ => []
  end.

(** [' ' * n] *)
Definition spaces (n : nat) : string :=
  foldr (fun _ acc => String " "%char acc) EmptyString (seq 0 n).

(** The listing both model-building scripts print:
<<
    for root, dirs, files in os.walk(model_dir):
        level = root.replace(model_dir, '').count(os.sep)
        indent = ' ' * 2 * level
        print(f'{indent}{os.path.basename(root)}/')
        subindent = ' ' * 2 * (level + 1)
        for file in files:
            print(f'{subindent}{file}')
>>
*)
Definition print_tree (model_dir : path) : M unit :=
  let* f := get_files in
  for_each (walk f model_dir) (fun '(root, dirs, files) =>
    let level := (length root - length model_dir)%nat in
    let indent := spaces (2 * level) in
    print (indent +:+ basename root +:+ "/") ;;
    let subindent := spaces (2 * (level + 1)) in
    for_each files (fun file => print (subindent +:+ file))).

End FS.

(** ** TensorFlow's SavedModel writer

    [tf.saved_model.save] belongs to TensorFlow.  What it serialises for a
    given object, the entries of the artifact relative to the export
    directory, is a parameter; writing them creates the directories that are
    missing and replaces the files of the same name. *)
Module SavedModel.
Import Py FS.
Local Open Scope py_scope.

(** An artifact: its files and directories, relative to the export
    directory. *)
Definition artifact : Type := list (path * node).

Definition write_entry (export_dir : path) (ent : path * node) : M unit :=
  match ent.2 with
  | Dir => makedirs (export_dir ++ ent.1)
  | File data =>
      makedirs (export_dir ++ removelast ent.1) ;;
      write_file (export_dir ++ ent.1) data
  end.

(** [tf.saved_model.save(obj, export_dir, ...)], [serialized] being what
    TensorFlow makes of [obj]: the artifact, or the exception of a failed
    trace or serialisation. *)
Definition save (serialized : exn + artifact) (export_dir : path) : M unit :=
  let* entries := lift serialized in
  makedirs export_dir ;;
  for_each entries (write_entry export_dir).

(** The paths a run that writes [entries] under [export_dir] creates or
    replaces: the entries and the directories on the way to them. *)
Definition written (export_dir : path) (entries : artifact) (q : path) : Prop :=
  Exists (fun ent : path * node => q `prefix_of` (export_dir ++ ent.1)) entries.

(** The paths at which a run that writes [entries] puts a file. *)
Definition replaced (export_dir : path) (entries : artifact) (q : path) : Prop :=
  Exists (fun ent : path * node => q = export_dir ++ ent.1 /\ is_dir ent.2 = false)
         entries.

#[global] Instance written_dec dir entries q : Decision (written dir entries q).
Proof. unfold written. apply _. Defined.

#[global] Instance replaced_dec dir entries q : Decision (replaced dir entries q).
Proof. unfold replaced. apply _. Defined.

End SavedModel.

(** A line break inside a printed string. *)
Definition nl : string := String "010"%char EmptyString.

(** ** [create_tf_serving_model.py]: the mock-length predictor *)
Module MockLength.
Import Py FS.
Local Open Scope py_scope.

(** The tensors [predict] returns, all of shape [[n]]. *)
Inductive tensor : Type :=
  | Float32 (v : list F32.f32)
  | Int32 (v : list Z).

(** The first dimension. *)
Definition batch_size (t : tensor) : nat :=
  match t with
  | Float32 v => length v
  | Int32 v => length v
  end.

(** [tf.convert_to_tensor(input_text, dtype=tf.string)]: a batch of byte
    strings stays what it is. *)
Definition convert_to_tensor (input_text : list string) : list string := input_text.

(** [tf.strings.length], in bytes (the default unit), as the [int32]
    tensor TensorFlow returns. *)
Definition strings_length (input_text : list string) : list Z :=
  map (fun s => Int32.wrap (Z.of_nat (String.length s))) input_text.

(** [tf.cast(lengths, tf.float32)] *)
Definition cast_float32 (lengths : list Z) : list F32.f32 :=
  map F32.of_int32 lengths.

(** How [lengths_float / 100.0] is carried out.  Run operation by
    operation it is the float32 division.  [predict] is a [tf.function]:
    it runs, and is saved, as a graph, in which TensorFlow's optimiser
    replaces the division by a constant with the multiplication by the
    reciprocal of the constant, [lengths_float * (1.0 / 100.0)], the
    reciprocal being computed once in float32.  The two differ in the last
    bit at some lengths, so the serving function has both as a
    parameter. *)
Inductive division : Type :=
  | Quotient
  | Reciprocal.

Definition divide_by_hundred (how : division) (x : F32.f32) : F32.f32 :=
  match how with
  | Quotient => F32.div x F32.hundred
  | Reciprocal => F32.mul x F32.hundredth
  end.

(** The serving function:
<<
    input_text = tf.convert_to_tensor(input_text, dtype=tf.string)
    lengths = tf.strings.length(input_text)
    lengths_float = tf.cast(lengths, tf.float32)
    normalized = lengths_float / 100.0
    scores = tf.minimum(normalized, 1.0)
    return {'toxicity_score': scores, 'text_length': lengths, 'predictions': scores}
>>
*)
Definition predict (how : division) (input_text : list string) : gmap string tensor :=
  let input_text := convert_to_tensor input_text in
  let lengths := strings_length input_text in
  let lengths_float := cast_float32 lengths in
  let normalized := map (divide_by_hundred how) lengths_float in
  let scores := map (fun x => F32.minimum x F32.one) normalized in
  <["toxicity_score" := Float32 scores]>
    (<["text_length" := Int32 lengths]>
       (<["predictions" := Float32 scores]> ∅)).

(** Reading the fields of the mapping back. *)
Definition scores_of (outputs : gmap string tensor) : list F32.f32 :=
  match outputs !! "toxicity_score" with
  | Some (Float32 v) => v
  | _ => []
  end.

Definition lengths_of (outputs : gmap string tensor) : list Z :=
  match outputs !! "text_length" with
  | Some (Int32 v) => v
  | _ => []
  end.

(** The score the specification gives a text of [n] bytes, in exact
    arithmetic: min(n/100, 1). *)
Definition exact_score (n : Z) : Q := Qmin (n # 100) 1.

(** How far from it the float32 score of a text of fewer than 100 bytes can
    be: half a unit in the last place for the division, which is rounded
    once, and a whole one for the product with the rounded reciprocal. *)
Definition tolerance (how : division) : Q :=
  match how with
  | Quotient => 1 # 2 ^ 25
  | Reciprocal => 1 # 2 ^ 24
  end.

(** The binary32 number written 0.02: 10737418 * 2^-29. *)
Definition f32_0_02 : F32.f32 := S754_finite false 10737418 (-29).

(** A text of more than one hundred bytes. *)
Definition long_text : string :=
  "a very very long string exceeding one hundred characters, which the mock predictor scores as fully toxic".

(** A text of 2^31 bytes, the shortest whose length does not fit [int32]. *)
Definition huge_text : string :=
  N.iter 2147483648 (String "a"%char) EmptyString.

(** The binary32 number -21474836.0: -10737418 * 2^1. *)
Definition f32_minus_21474836 : F32.f32 := S754_finite true 10737418 1.

Section Script.

(** [tf.__version__] *)
Variable tf_version : string.
(** What TensorFlow makes of [predict] and its [serving_default] signature
    when tracing and saving it: the artifact, or the exception raised while
    it is at work. *)
Variable serialized : exn + SavedModel.artifact.
(** [tf.saved_model.load]: whether the directory loads. *)
Variable load : gmap path node -> path -> exn + unit.

Definition model_dir_literal : string := "/mnt/d/ivan/models/toxicity_model/1".
Definition model_dir : path := posix_path model_dir_literal.

Definition create_serving_model : M bool :=
  (* Clean up existing model *)
  let* present := exists_ model_dir in
  (if present then rmtree model_dir else ret tt) ;;
  makedirs model_dir ;;
  print ("Creating model with TensorFlow " +:+ tf_version) ;;
  (* Save using saved_model directly *)
  SavedModel.save serialized model_dir ;;
  print "✅ Model created successfully" ;;
  print ("📁 Model saved to: " +:+ model_dir_literal) ;;
  (* Verify saved model *)
  print (nl +:+ "📋 Verifying saved model...") ;;
  let* f := get_files in
  let* loaded := lift (load f model_dir) in
  print "✅ Model loads correctly" ;;
  (* List saved files *)
  print (nl +:+ "📁 Created files:") ;;
  print_tree model_dir ;;
  ret true.

(** The handler of the entry point:
<<
    except Exception as e:
        print(f'❌ Error: {e}')
        import traceback
        traceback.print_exc()
>>
*)
Definition on_error (e : exn) : M unit :=
  print ("❌ Error: " +:+ exn_msg e) ;;
  print_exc e.

(** [if __name__ == '__main__': try: create_serving_model() except ...] *)
Definition main : M unit :=
  try_except_Exception (create_serving_model ;; ret tt) on_error.

End Script.

End MockLength.

(** ** [create_toxicity_model.py]: the network with fresh random weights

    The two dense layers and the sigmoid are computed by TensorFlow in
    float32 with an order of summation, fused operations and an exponential
    that IEEE-754 does not fix.  The network is therefore modelled in real
    arithmetic, for arbitrary weights. *)
Module RandomWeights.
Import Py FS.
Local Open Scope py_scope.

(** A [tf.keras.layers.Dense]: [kernel] has one row per input and one
    column per unit. *)
Record Dense : Type := { kernel : list (list R); bias : list R }.

(** [class ToxicityModel(tf.keras.Model)] *)
Record ToxicityModel : Type := { dense1 : Dense; dense2 : Dense }.

Inductive tensor : Type :=
  | Float32 (rows : list (list R))
  | Bool (rows : list (list bool)).

(** The first dimension. *)
Definition batch_size (t : tensor) : nat :=
  match t with
  | Float32 rows => length rows
  | Bool rows => length rows
  end.

(** [tf.cast(tf.strings.length(text), tf.float32)]: the length, an
    [int32], as a real. *)
Definition preprocess (text : string) : R :=
  IZR (Int32.wrap (Z.of_nat (String.length text))).

Definition relu (x : R) : R := Rmax x 0.

Definition sigmoid (x : R) : R := (1 / (1 + exp (- x)))%R.

(** [row . kernel + bias] *)
Definition affine (layer : Dense) (row : list R) : list R :=
  foldl (fun acc xw => zip_with Rplus acc (map (Rmult xw.1) xw.2))
        (bias layer) (zip row (kernel layer)).

(** Calling a dense layer on a batch of rows. *)
Definition dense (activation : R -> R) (layer : Dense) (inputs : list (list R))
  : list (list R) :=
  map (fun row => map activation (affine layer row)) inputs.

(** [tf.reshape(features, [-1, 1])] *)
Definition reshape_column (features : list R) : list (list R) :=
  map (fun x => [x]) features.

(** [tf.greater(x, y)] *)
Definition greater (x y : R) : bool := if Rlt_dec y x then true else false.

(** The serving function:
<<
    features = tf.map_fn(preprocess, text, dtype=tf.float32)
    features = tf.reshape(features, [-1, 1])
    x = self.dense1(features)
    toxicity = self.dense2(x)
    return {'toxicity_score': toxicity, 'is_toxic': tf.greater(toxicity, 0.5)}
>>
*)
Definition serve (self : ToxicityModel) (text : list string) : gmap string tensor :=
  let features := map preprocess text in
  let features := reshape_column features in
  let x := dense relu (dense1 self) features in
  let toxicity := dense sigmoid (dense2 self) x in
  <["toxicity_score" := Float32 toxicity]>
    (<["is_toxic" := Bool (map (map (fun t => greater t (1 / 2)%R)) toxicity)]> ∅).

(** Reading the fields of the mapping back. *)
Definition scores_of (outputs : gmap string tensor) : list (list R) :=
  match outputs !! "toxicity_score" with
  | Some (Float32 rows) => rows
  | _ => []
  end.

Definition flags_of (outputs : gmap string tensor) : list (list bool) :=
  match outputs !! "is_toxic" with
  | Some (Bool rows) => rows
  | _ => []
  end.

(** The values [dense2] hands to the sigmoid, one row per text. *)
Definition logits (self : ToxicityModel) (text : list string) : list (list R) :=
  map (affine (dense2 self))
      (dense relu (dense1 self) (reshape_column (map preprocess text))).

(** A layer whose kernel has as many columns as its bias has units. *)
Definition fits (layer : Dense) : Prop :=
  Forall (fun w : list R => length w = length (bias layer)) (kernel layer).

(** A layer as Keras builds it: the bias starts at zero. *)
Definition zero_bias (layer : Dense) : Prop :=
  Forall (fun b : R => b = 0%R) (bias layer).

Section Script.

(** [os.path.abspath(__file__)] *)
Variable script_file : path.
(** The model the script builds: its freshly initialised weights. *)
Variable model : ToxicityModel.
(** What TensorFlow makes of the model and its [serving_default]
    signature when saving it. *)
Variable serialized : exn + SavedModel.artifact.

Definition script_dir : path := dirname script_file.
Definition models_dir : path := dirname script_dir.
Definition model_path : path := models_dir ++ ["toxicity_model"; "1"].

Definition script : M unit :=
  print ("Creating model at: " +:+ path_str model_path) ;;
  (* Create directory if it doesn't exist *)
  makedirs model_path ;;
  print "Building model..." ;;
  (* Test the model *)
  let test_input := ["test text"] in
  let _ := serve model test_input in
  (* Save for TensorFlow Serving *)
  print ("Saving model to " +:+ path_str model_path +:+ "...") ;;
  SavedModel.save serialized model_path ;;
  print "✅ Model created successfully!" ;;
  print ("📁 Model location: " +:+ path_str model_path) ;;
  (* Verify the saved files *)
  print (nl +:+ "📋 Created files:") ;;
  print_tree model_path.

End Script.

End RandomWeights.

(** ** [download_pretrained_model.py]: the model fetched from the hub *)
Module HubFetch.
Import Py FS.
Local Open Scope py_scope.

Section Script.

(** The object [hub.load] returns. *)
Variable hub_model : Type.
(** [hub.load]: the model behind an identifier, or the exception of a
    failed fetch.  The cache of the hub client is outside the modelled file
    system. *)
Variable hub_load : string -> exn + hub_model.
(** What TensorFlow makes of a fetched model when saving it. *)
Variable serialize : hub_model -> exn + SavedModel.artifact.

Definition model_url : string := "https://tfhub.dev/tensorflow/toxicity/1".
Definition model_dir_literal : string := "D:\ivan\models\toxicity_model\1".
Definition model_dir : path := windows_path model_dir_literal.

Definition script : M unit :=
  print "Script started..." ;;
  print "Imports done." ;;
  print "Downloading pretrained toxicity model..." ;;
  makedirs model_dir ;;
  (* Load model from TF Hub *)
  let* model := lift (hub_load model_url) in
  print "Model downloaded from TF Hub." ;;
  (* Save for TensorFlow Serving *)
  SavedModel.save (serialize model) model_dir ;;
  print ("✅ Model saved at " +:+ model_dir_literal) ;;
  (* List saved files for verification *)
  print "Saved model contents:" ;;
  let* names := listdir model_dir in
  print_list names.

End Script.

End HubFetch.

(** ** Sample runs *)
Module Demo.
Import Py FS.

(** The layout TensorFlow gives a SavedModel. *)
Definition saved_model_files : SavedModel.artifact :=
  [ (["saved_model.pb"], File "graph");
    (["variables"; "variables.index"], File "index");
    (["variables"; "variables.data-00000-of-00001"], File "weights");
    (["assets"], Dir) ].

(** A file system that holds the directory [dir] and nothing else. *)
Definition only_dir (dir : path) : gmap path node :=
  match makedirs_from [] dir ∅ with
  | inr f => f
  | inl _ => ∅
  end.

(** A world whose directory [dir] holds the unrelated file [stale.txt]. *)
Definition stale_world (dir : path) : world :=
  World (<[dir ++ ["stale.txt"] := File "left over"]> (only_dir dir)) [].

Definition empty_world : world := World ∅ [].

(** Where the random-weights script is installed. *)
Definition script_file : path :=
  ["srv"; "ivanchat"; "models"; "toxicity_model"; "create_toxicity_model.py"].

(** Some weights for the network: one input, sixteen hidden units, one
    output. *)
Definition model : RandomWeights.ToxicityModel :=
  {| RandomWeights.dense1 :=
       {| RandomWeights.kernel := [replicate 16 1%R];
          RandomWeights.bias := replicate 16 0%R |};
     RandomWeights.dense2 :=
       {| RandomWeights.kernel := replicate 16 [1%R];
          RandomWeights.bias := [0%R] |} |}.

Definition load_ok (f : gmap path node) (dir : path) : exn + unit := inr tt.

(** A failed fetch, a failed save, and Ctrl-C. *)
Definition unreachable : exn := Exn (OtherException "OSError") "hub unreachable".
Definition not_serializable : exn := Exn (OtherException "ValueError") "cannot trace".
Definition interrupt : exn := Exn KeyboardInterrupt "".

Definition hub_down (handle : string) : exn + unit := inl unreachable.
Definition hub_up (handle : string) : exn + unit := inr tt.
Definition serialize_hub_model (m : unit) : exn + SavedModel.artifact :=
  inr saved_model_files.

Definition random_weights_dest : path := RandomWeights.model_path script_file.

(** The three scripts run on a destination that holds [stale.txt]. *)
Abbreviation mock_run :=
  (MockLength.create_serving_model "2.15.0" (inr saved_model_files) load_ok
     (stale_world MockLength.model_dir)).

Abbreviation random_weights_run :=
  (RandomWeights.script script_file model (inr saved_model_files)
     (stale_world random_weights_dest)).

Abbreviation hub_run :=
  (HubFetch.script unit hub_up serialize_hub_model (stale_world HubFetch.model_dir)).

(** The hub-fetch script run on an empty disk while the hub is down. *)
Abbreviation hub_down_run :=
  (HubFetch.script unit hub_down serialize_hub_model empty_world).

(** The mock-length script when saving fails, and when it is interrupted. *)
Abbreviation mock_failed_save :=
  (MockLength.create_serving_model "2.15.0" (inl not_serializable) load_ok empty_world).

Abbreviation mock_interrupted :=
  (MockLength.create_serving_model "2.15.0" (inl interrupt) load_ok empty_world).

End Demo.

(* ================================================================= *)
(** * Part II: properties *)
(* ================================================================= *)

(** ** Rounding to binary32 *)
Module F32Facts.
Import F32.
Local Open Scope Z_scope.

Lemma digits2_pos_size p : digits2_pos p = Pos.size p.
Proof. induction p as [p IH|p IH|]; simpl; congruence. Qed.

Lemma digits_bounds p :
  2 ^ (Z.pos (digits2_pos p) - 1) <= Z.pos p < 2 ^ Z.pos (digits2_pos p).
Proof.
  rewrite digits2_pos_size. split.
  - pose proof (Pos.size_le p) as H.
    assert (2 ^ Z.pos (Pos.size p) <= 2 * Z.pos p) as H' by (rewrite <- Pos2Z.inj_pow; lia).
    replace (Z.pos (Pos.size p)) with (Z.succ (Z.pos (Pos.size p) - 1)) in H' by lia.
    rewrite Z.pow_succ_r in H' by lia. lia.
  - pose proof (Pos.size_gt p) as H. rewrite <- Pos2Z.inj_pow. lia.
Qed.

Lemma digits_unique p k :
  2 ^ (k - 1) <= Z.pos p < 2 ^ k -> Z.pos (digits2_pos p) = k.
Proof.
  intros [Hlo Hhi]. pose proof (digits_bounds p) as [Dlo Dhi].
  assert (0 < k) as Hk.
  { destruct (Z.ltb_spec 0 k) as [|Hle]; [done|].
    assert (2 ^ k <= 2 ^ 0) by (destruct (Z.eq_dec k 0) as [->|]; [done|rewrite Z.pow_neg_r by lia; lia]).
    simpl in *. lia. }
  destruct (Z.lt_trichotomy (Z.pos (digits2_pos p)) k) as [Hlt|[Heq|Hgt]]; [|done|].
  - assert (2 ^ Z.pos (digits2_pos p) <= 2 ^ (k - 1)) by (apply Z.pow_le_mono_r; lia). lia.
  - assert (2 ^ k <= 2 ^ (Z.pos (digits2_pos p) - 1)) by (apply Z.pow_le_mono_r; lia). lia.
Qed.

Lemma shr_1_m mrs : 0 <= shr_m mrs -> shr_m (shr_1 mrs) = shr_m mrs / 2.
Proof.
  destruct mrs as [m r s]; simpl. intros Hm.
  destruct m as [|[p|p|]|p]; simpl; try lia; try reflexivity.
  - apply Z.div_unique with 1; lia.
  - apply Z.div_unique with 0; lia.
Qed.

Lemma shr_iter_m p : forall mrs,
  0 <= shr_m mrs -> shr_m (iter_pos shr_1 p mrs) = shr_m mrs / 2 ^ Z.pos p.
Proof.
  induction p as [p IH|p IH|]; intros mrs Hm; simpl iter_pos.
  - assert (0 <= shr_m (shr_1 mrs)) as H1 by (rewrite shr_1_m by done; apply Z.div_pos; lia).
    assert (0 <= shr_m (iter_pos shr_1 p (shr_1 mrs))) as H2
      by (rewrite IH by done; apply Z.div_pos; lia).
    rewrite IH, IH, shr_1_m by done.
    rewrite !Z.div_div by lia. f_equal.
    transitivity (2 ^ (1 + Z.pos p + Z.pos p)); [|f_equal; lia].
    rewrite !Z.pow_add_r by lia. lia.
  - assert (0 <= shr_m (iter_pos shr_1 p mrs)) as H2
      by (rewrite IH by done; apply Z.div_pos; lia).
    rewrite IH, IH by done.
    rewrite !Z.div_div by lia. f_equal.
    transitivity (2 ^ (Z.pos p + Z.pos p)); [|f_equal; lia].
    rewrite Z.pow_add_r by lia. lia.
  - rewrite shr_1_m by done. done.
Qed.

Lemma round_nearest_even_bounds m l :
  m <= round_nearest_even m l <= m + 1.
Proof. destruct l as [|[]]; simpl; try lia. destruct (Z.even m); lia. Qed.


Lemma Zdigits2_unique m k :
  0 < m -> 2 ^ (k - 1) <= m < 2 ^ k -> Zdigits2 m = k.
Proof. destruct m as [|p|p]; try lia. intros _. apply digits_unique. Qed.

Lemma fexp_normal e : emin prec emax <= e - prec -> fexp prec emax e = e - prec.
Proof. unfold fexp. lia. Qed.

(** On a mantissa of at least [prec] digits whose exponent stays in the
    normal range, [shr_fexp] drops the digits beyond [prec]. *)
Lemma shr_fexp_normal m e l d :
  0 < m -> Zdigits2 m = d -> prec <= d -> emin prec emax <= e + d - prec ->
  exists mrs, shr_fexp prec emax m e l = (mrs, e + d - prec)
              /\ shr_m mrs = m / 2 ^ (d - prec).
Proof.
  intros Hm Hd Hp He. unfold shr_fexp. rewrite Hd, fexp_normal by lia.
  replace (d + e - prec - e) with (d - prec) by lia.
  assert (shr_m (shr_record_of_loc m l) = m) as Hrec by (by destruct l as [|[]]).
  destruct (d - prec) as [|p|p] eqn:Hs; try lia; simpl.
  - eexists; split; [f_equal; lia|]. rewrite Hrec, Z.div_1_r. done.
  - eexists; split; [f_equal; lia|]. rewrite shr_iter_m by lia. by rewrite Hrec.
Qed.

Lemma binary_round_aux_normal sx mx ex lx d :
  0 < mx -> Zdigits2 mx = d -> prec <= d -> emin prec emax <= ex + d - prec ->
  binary_round_aux prec emax sx mx ex lx = S754_infinity sx
  \/ exists m e, binary_round_aux prec emax sx mx ex lx = S754_finite sx m e
       /\ 2 ^ 23 <= Z.pos m < 2 ^ 24 /\ ex + d - prec <= e.
Proof.
  intros Hm Hd Hp He. unfold binary_round_aux.
  destruct (shr_fexp_normal mx ex lx d) as (mrs1 & -> & Hm1); try done.
  set (m1 := round_nearest_even (shr_m mrs1) (loc_of_shr_record mrs1)).
  pose proof (round_nearest_even_bounds (shr_m mrs1) (loc_of_shr_record mrs1)) as Hr.
  fold m1 in Hr.
  assert (2 ^ 23 <= shr_m mrs1 < 2 ^ 24) as Hb1.
  { rewrite Hm1. destruct mx as [|p|p]; try lia. simpl in Hd.
    pose proof (digits_bounds p) as Hdb. rewrite Hd in Hdb.
    unfold prec in *.
    assert (2 ^ (d - 1) = 2 ^ 23 * 2 ^ (d - 24)) as E1
      by (rewrite <- Z.pow_add_r by lia; f_equal; lia).
    assert (2 ^ d = 2 ^ 24 * 2 ^ (d - 24)) as E2
      by (rewrite <- Z.pow_add_r by lia; f_equal; lia).
    assert (0 < 2 ^ (d - 24)) by (apply Z.pow_pos_nonneg; lia).
    split.
    - apply Z.div_le_lower_bound; lia.
    - apply Z.div_lt_upper_bound; lia. }
  assert (m1 < 2 ^ 24 \/ m1 = 2 ^ 24) as [Hlt|Heq] by lia.
  - destruct (shr_fexp_normal m1 (ex + d - prec) loc_Exact prec) as (mrs2 & -> & Hm2);
      try (unfold prec in *; lia).
    { apply Zdigits2_unique; unfold prec; simpl in *; lia. }
    rewrite Z.sub_diag, Z.div_1_r in Hm2. rewrite Hm2.
    destruct m1 as [|p|p] eqn:Ep; try (simpl in *; lia).
    destruct (_ <=? _); [right|by left].
    exists p, (ex + d - prec + prec - prec). repeat split; try lia. 
  - destruct (shr_fexp_normal m1 (ex + d - prec) loc_Exact 25) as (mrs2 & -> & Hm2);
      try (unfold prec in *; lia).
    { apply Zdigits2_unique; unfold prec; rewrite Heq; simpl; lia. }
    rewrite Heq in Hm2. change (2 ^ 24 / 2 ^ (25 - prec)) with (Z.pos 8388608) in Hm2.
    rewrite Hm2. destruct (_ <=? _); [right|by left].
    eexists _, _. split; [done|]. unfold prec in *. simpl. lia.
Qed.


Lemma iter_xO_mul p k : Z.pos (Pos.iter xO p k) = Z.pos p * 2 ^ Z.pos k.
Proof.
  induction k as [|k IH] using Pos.peano_ind.
  - simpl. lia.
  - rewrite Pos.iter_succ, Pos2Z.inj_xO, IH, Pos2Z.inj_succ, Z.pow_succ_r by lia. lia.
Qed.

Lemma of_int32_normal n :
  0 < n -> normal_from (Zdigits2 n - prec) (of_int32 n).
Proof.
  destruct n as [|p|p]; try lia. intros _.
  unfold of_int32, binary_normalize, binary_round, normal_from.
  pose proof (digits_bounds p) as Hd.
  set (d := Z.pos (digits2_pos p)) in *. simpl Zdigits2. fold d.
  assert (0 < d) by (unfold d; lia).
  rewrite fexp_normal by (unfold emin, prec, emax; lia).
  unfold shl_align. rewrite Z.add_0_r.
  destruct (d - prec - 0) as [|k|k] eqn:Hk.
  - destruct (binary_round_aux_normal false (Z.pos p) 0 loc_Exact d) as [->|(m & e & -> & ? & ?)];
      try done; try (unfold emin, prec, emax in *; lia); [by left|right].
    exists m, e. split_and!; try done; lia.
  - destruct (binary_round_aux_normal false (Z.pos p) 0 loc_Exact d) as [->|(m & e & -> & ? & ?)];
      try done; try (unfold emin, prec, emax in *; lia); [by left|right].
    exists m, e. split_and!; try done; lia.
  - assert (Zdigits2 (Z.pos (Pos.iter xO p k)) = prec) as Hdig.
    { simpl. apply digits_unique. rewrite iter_xO_mul.
      assert (Z.pos k = prec - d) as -> by lia. unfold prec in *.
      assert (2 ^ (24 - 1) = 2 ^ (d - 1) * 2 ^ (24 - d)) as ->
        by (rewrite <- Z.pow_add_r by lia; f_equal; lia).
      assert (2 ^ 24 = 2 ^ d * 2 ^ (24 - d)) as ->
        by (rewrite <- Z.pow_add_r by lia; f_equal; lia).
      assert (0 < 2 ^ (24 - d)) by (apply Z.pow_pos_nonneg; lia). nia. }
    destruct (binary_round_aux_normal false (Z.pos (Pos.iter xO p k)) (d - prec) loc_Exact prec)
      as [->|(m & e & -> & ? & ?)];
      [done|done|unfold prec; lia|unfold emin, prec, emax in *; lia|by left|right].
    exists m, e. split_and!; try done; lia.
Qed.

Lemma hundred_eq : hundred = S754_finite false 13107200 (-17).
Proof. reflexivity. Qed.

Lemma one_eq : one = S754_finite false 8388608 (-23).
Proof. reflexivity. Qed.

(** Dividing a normal value of at least 2^-16 * 2^23 = 128 by 100.0 gives
    at least 1.0. *)
Lemma div_hundred_normal m e :
  2 ^ 23 <= Z.pos m < 2 ^ 24 -> -16 <= e ->
  normal_from (-23) (div (S754_finite false m e) hundred).
Proof.
  intros Hm He. rewrite hundred_eq. unfold div, SFdiv, SFdiv_core_binary.
  assert (Zdigits2 (Z.pos m) = 24) as -> by (apply digits_unique; simpl; lia).
  change (Zdigits2 13107200) with 24.
  rewrite fexp_normal by (unfold emin, prec, emax; lia).
  assert (Z.min (24 + e - (24 + -17) - prec) (e - -17) = e - 7) as ->
    by (unfold prec; lia).
  replace (e - -17 - (e - 7)) with 24 by lia.
  rewrite Z.shiftl_mul_pow2 by lia.
  pose proof (Z_div_mod (Z.pos m * 2 ^ 24) 13107200 eq_refl) as Hdm.
  destruct (Z.div_eucl (Z.pos m * 2 ^ 24) 13107200) as [q r].
  destruct Hdm as [Hq Hr]. change (2 ^ 24) with 16777216 in Hq.
  change (2 ^ 23) with 8388608 in Hm. change (2 ^ 24) with 16777216 in Hm.
  simpl xorb.
  assert (0 < q) as Hq0 by lia.
  assert (q < 2 ^ 24 \/ 2 ^ 24 <= q) as [Hlt|Hge] by lia.
  - assert (Zdigits2 q = 24) as Hdig by (apply Zdigits2_unique; simpl in *; lia).
    destruct (binary_round_aux_normal false q (e - 7) (new_location 13107200 r) 24)
      as [->|(m' & e' & -> & ? & ?)];
      [done|done|done|unfold emin, prec, emax in *; lia|by left|right].
    exists m', e'. split_and!; try done; unfold prec in *; lia.
  - assert (Zdigits2 q = 25) as Hdig.
    { change (2 ^ 24) with 16777216 in Hge. apply Zdigits2_unique; simpl in *; lia. }
    destruct (binary_round_aux_normal false q (e - 7) (new_location 13107200 r) 25)
      as [->|(m' & e' & -> & ? & ?)];
      [done|done|done|unfold emin, prec, emax in *; lia|by left|right].
    exists m', e'. split_and!; try done; unfold prec in *; lia.
Qed.

Lemma ltb_normal_one x : normal_from (-23) x -> ltb x one = false.
Proof.
  intros [->|(m & e & -> & Hm & He)]; [done|].
  rewrite one_eq. unfold ltb, SFltb, SFcompare.
  destruct (e ?= -23) eqn:Hcmp; [|rewrite Z.compare_lt_iff in Hcmp; lia|done].
  destruct (Pos.compare_cont Eq m 8388608) eqn:Hc; try done.
  apply (proj1 (Pos.compare_lt_iff m 8388608)), Pos2Z.pos_lt_pos in Hc.
  change (2 ^ 23) with 8388608 in Hm. lia.
Qed.

Lemma hundredth_eq : hundredth = S754_finite false 10737418 (-30).
Proof. vm_compute. reflexivity. Qed.

(** Multiplying a normal value of at least 128 by the reciprocal of 100.0
    gives at least 1.0. *)
Lemma mul_hundredth_normal m e :
  2 ^ 23 <= Z.pos m < 2 ^ 24 -> -16 <= e ->
  normal_from (-23) (mul (S754_finite false m e) hundredth).
Proof.
  intros Hm He. rewrite hundredth_eq. unfold mul, SFmul. simpl xorb.
  rewrite Pos2Z.inj_mul.
  change (2 ^ 23) with 8388608 in Hm. change (2 ^ 24) with 16777216 in Hm.
  set (p := Z.pos m * 10737418).
  assert (2 ^ 46 <= p < 2 ^ 48) as Hp.
  { change (2 ^ 46) with 70368744177664. change (2 ^ 48) with 281474976710656.
    unfold p. lia. }
  assert (0 < p) as Hp0 by (unfold p; lia).
  assert (p < 2 ^ 47 \/ 2 ^ 47 <= p) as [Hlt|Hge] by lia.
  - assert (Zdigits2 p = 47) as Hdig by (apply Zdigits2_unique; [done|]; simpl; lia).
    destruct (binary_round_aux_normal false p (e + -30) loc_Exact 47)
      as [->|(m' & e' & -> & ? & ?)];
      [done|done|unfold prec; lia|unfold emin, prec, emax in *; lia|by left|right].
    exists m', e'. split_and!; try done; unfold prec in *; lia.
  - assert (Zdigits2 p = 48) as Hdig by (apply Zdigits2_unique; [done|]; simpl; lia).
    destruct (binary_round_aux_normal false p (e + -30) loc_Exact 48)
      as [->|(m' & e' & -> & ? & ?)];
      [done|done|unfold prec; lia|unfold emin, prec, emax in *; lia|by left|right].
    exists m', e'. split_and!; try done; unfold prec in *; lia.
Qed.

Lemma divide_by_hundred_normal how m e :
  2 ^ 23 <= Z.pos m < 2 ^ 24 -> -16 <= e ->
  normal_from (-23) (MockLength.divide_by_hundred how (S754_finite false m e)).
Proof.
  destruct how; simpl; [apply div_hundred_normal|apply mul_hundredth_normal].
Qed.

(** The score of a length, as the serving function computes it from the
    [int32] it has read. *)
Local Abbreviation score how n :=
  (minimum (MockLength.divide_by_hundred how (of_int32 n)) one).

Lemma score_ge_128 how n : 128 <= n -> score how n = one.
Proof.
  intros Hn. unfold minimum.
  destruct (of_int32_normal n) as [->|(m & e & -> & Hm & He)]; [lia|by destruct how|].
  rewrite ltb_normal_one; [done|]. apply divide_by_hundred_normal; [done|].
  destruct n as [|p|p]; try lia. simpl in He.
  pose proof (digits_bounds p) as Hd.
  assert (8 <= Z.pos (digits2_pos p)); [|unfold prec in *; lia].
  destruct (Z.le_gt_cases 8 (Z.pos (digits2_pos p))) as [|Hlt]; [done|].
  assert (2 ^ Z.pos (digits2_pos p) <= 2 ^ 7) by (apply Z.pow_le_mono_r; lia).
  simpl in *. lia.
Qed.

(** The lengths from 100 to 127, which the cast leaves below 2^7. *)
Lemma score_100_127 how n : 100 <= n < 128 -> score how n = one.
Proof.
  intros Hn.
  assert (Forall (fun k => score MockLength.Quotient (100 + Z.of_nat k) = one
                           /\ score MockLength.Reciprocal (100 + Z.of_nat k) = one)
                 (seq 0 28)) as Hall.
  { apply (bool_decide_unpack _). vm_compute. reflexivity. }
  rewrite Forall_forall in Hall.
  replace n with (100 + Z.of_nat (Z.to_nat (n - 100))) by lia.
  destruct (Hall (Z.to_nat (n - 100))) as [Hq Hr]; [apply elem_of_seq; lia|].
  by destruct how.
Qed.

Lemma score_ge_100 how n : 100 <= n -> score how n = one.
Proof.
  intros Hn. destruct (Z.lt_ge_cases n 128); [apply score_100_127|apply score_ge_128]; lia.
Qed.

(** *** Signs *)

Lemma binary_round_aux_nonneg m e l :
  nonneg_or_nan (binary_round_aux prec emax false m e l).
Proof.
  unfold binary_round_aux.
  destruct (shr_fexp prec emax m e l) as [mrs1 e1].
  destruct (shr_fexp prec emax _ e1 loc_Exact) as [mrs2 e2].
  destruct (shr_m mrs2); simpl; [done| |done].
  by destruct (_ <=? _).
Qed.

Lemma of_int32_nonneg n : 0 <= n -> nonneg_or_nan (of_int32 n).
Proof.
  destruct n as [|p|p]; [done| |lia]. intros _.
  unfold of_int32, binary_normalize, binary_round.
  destruct (shl_align _ _ _). apply binary_round_aux_nonneg.
Qed.

Lemma div_hundred_nonneg x : nonneg_or_nan x -> nonneg_or_nan (div x hundred).
Proof.
  rewrite hundred_eq. destruct x as [s|s| |s m e]; intros Hs; simpl in Hs; subst.
  - done.
  - done.
  - done.
  - unfold div, SFdiv.
    destruct (SFdiv_core_binary prec emax (Z.pos m) e 13107200 (-17)) as [[mz ez] lz].
    apply binary_round_aux_nonneg.
Qed.

Lemma mul_hundredth_nonneg x : nonneg_or_nan x -> nonneg_or_nan (mul x hundredth).
Proof.
  rewrite hundredth_eq. destruct x as [s|s| |s m e]; intros Hs; simpl in Hs; subst.
  - done.
  - done.
  - done.
  - unfold mul, SFmul. apply binary_round_aux_nonneg.
Qed.

Lemma divide_by_hundred_nonneg how x :
  nonneg_or_nan x -> nonneg_or_nan (MockLength.divide_by_hundred how x).
Proof.
  destruct how; simpl; [apply div_hundred_nonneg|apply mul_hundredth_nonneg].
Qed.

Lemma minimum_one_in_unit_interval x :
  nonneg_or_nan x -> in_unit_interval (minimum x one).
Proof.
  intros Hx. unfold minimum. destruct (ltb x one) eqn:Hlt; [|done].
  unfold in_unit_interval, leb, SFleb. unfold ltb, SFltb in Hlt.
  destruct (SFcompare x one) as [[]|] eqn:Hc; try done. split; [|done].
  destruct x as [s|s| |s m e]; simpl in Hx; subst; done.
Qed.

Lemma score_in_unit_interval how n : 0 <= n -> in_unit_interval (score how n).
Proof.
  intros Hn.
  by apply minimum_one_in_unit_interval, divide_by_hundred_nonneg, of_int32_nonneg.
Qed.

(** *** Accuracy: the score against the rational min(n/100, 1) *)

Lemma score_accuracy how n :
  0 <= n ->
  within (score how n) (MockLength.exact_score n) (MockLength.tolerance how) = true.
Proof.
  intros Hn. destruct (Z.lt_ge_cases n 100) as [Hlt|Hge].
  - assert (Forall (fun k =>
                      within (score MockLength.Quotient (Z.of_nat k))
                             (MockLength.exact_score (Z.of_nat k))
                             (MockLength.tolerance MockLength.Quotient) = true
                      /\ within (score MockLength.Reciprocal (Z.of_nat k))
                                (MockLength.exact_score (Z.of_nat k))
                                (MockLength.tolerance MockLength.Reciprocal) = true)
                   (seq 0 100)) as Hall.
    { apply (bool_decide_unpack _). vm_compute. reflexivity. }
    rewrite Forall_forall in Hall.
    replace n with (Z.of_nat (Z.to_nat n)) by lia.
    destruct (Hall (Z.to_nat n)) as [Hq Hr]; [apply elem_of_seq; lia|].
    by destruct how.
  - rewrite score_ge_100 by done.
    assert (Qeq (MockLength.exact_score n) 1) as Heq.
    { unfold MockLength.exact_score. apply Q.min_r. unfold Qle. simpl. lia. }
    unfold within. change (to_Q one) with (Some (8388608 * Qpower 2 (-23))%Q).
    apply Qle_bool_iff. rewrite Heq. destruct how; vm_compute; discriminate.
Qed.

(** *** The [int32] of a length *)

Lemma wrap_small z : 0 <= z < 2 ^ 31 -> Int32.wrap z = z.
Proof.
  intros Hz. unfold Int32.wrap.
  change (2 ^ 31) with 2147483648 in *. change (2 ^ 32) with 4294967296.
  rewrite Z.mod_small by lia. lia.
Qed.

Lemma length_N_iter (c : ascii) (n : N) :
  Z.of_nat (String.length (N.iter n (String c) EmptyString)) = Z.of_N n.
Proof.
  induction n as [|n IH] using N.peano_ind; [done|].
  rewrite N.iter_succ. cbn [String.length].
  rewrite Nat2Z.inj_succ, IH, N2Z.inj_succ. done.
Qed.

End F32Facts.

(** ** The serving functions *)
(** The score the serving function gives one text. *)
Local Abbreviation score_of how text :=
  (F32.minimum
     (MockLength.divide_by_hundred how
        (F32.of_int32 (Int32.wrap (Z.of_nat (String.length text)))))
     F32.one).

Section Serving.
Import MockLength.

Lemma predict_toxicity_score how batch :
  predict how batch !! "toxicity_score"
  = Some (Float32 (map (fun s => score_of how s) batch)).
Proof.
  unfold predict, cast_float32, strings_length, convert_to_tensor.
  rewrite lookup_insert_eq, !map_map. reflexivity.
Qed.

Lemma predict_predictions how batch :
  predict how batch !! "predictions"
  = Some (Float32 (map (fun s => score_of how s) batch)).
Proof.
  unfold predict, cast_float32, strings_length, convert_to_tensor.
  rewrite !lookup_insert_ne, lookup_insert_eq, !map_map by done. reflexivity.
Qed.

Lemma predict_text_length how batch :
  predict how batch !! "text_length"
  = Some (Int32 (map (fun s => Int32.wrap (Z.of_nat (String.length s))) batch)).
Proof.
  unfold predict, cast_float32, strings_length, convert_to_tensor.
  rewrite lookup_insert_ne, lookup_insert_eq by done. reflexivity.
Qed.

Lemma predict_dom how batch :
  dom (predict how batch)
  = ({["toxicity_score"; "text_length"; "predictions"]} : gset string).
Proof. unfold predict. rewrite !dom_insert_L, dom_empty_L. set_solver. Qed.

Lemma score_of_long how s :
  (100 <= String.length s)%nat -> (Z.of_nat (String.length s) < 2 ^ 31)%Z ->
  score_of how s = F32.one.
Proof.
  intros Hs Hb. rewrite F32Facts.wrap_small by lia. apply F32Facts.score_ge_100. lia.
Qed.

Lemma score_of_in_unit_interval how s :
  (Z.of_nat (String.length s) < 2 ^ 31)%Z -> F32.in_unit_interval (score_of how s).
Proof.
  intros Hb. rewrite F32Facts.wrap_small by lia.
  apply F32Facts.score_in_unit_interval. lia.
Qed.

Lemma score_of_accurate how s :
  (Z.of_nat (String.length s) < 2 ^ 31)%Z ->
  F32.within (score_of how s) (exact_score (Z.of_nat (String.length s))) (tolerance how)
  = true.
Proof.
  intros Hb. rewrite F32Facts.wrap_small by lia. apply F32Facts.score_accuracy. lia.
Qed.

(** A text of 2^31 bytes has the [int32] length -2^31 and the score
    -21474836.0. *)
Lemma huge_text_length : Z.of_nat (String.length huge_text) = 2147483648%Z.
Proof. unfold huge_text. apply F32Facts.length_N_iter. Qed.

Lemma score_of_huge how : score_of how huge_text = f32_minus_21474836.
Proof. rewrite huge_text_length. destruct how; vm_compute; reflexivity. Qed.

End Serving.

Section Network.
Import RandomWeights.
Local Open Scope R_scope.

Lemma sigmoid_range x : 0 < sigmoid x < 1.
Proof.
  unfold sigmoid. pose proof (exp_pos (- x)) as Hexp.
  split.
  - apply Rdiv_lt_0_compat; lra.
  - apply (Rmult_lt_reg_r (1 + exp (- x))); [lra|].
    unfold Rdiv. rewrite Rmult_assoc, Rinv_l by lra. lra.
Qed.

Lemma greater_spec x y : greater x y = true <-> y < x.
Proof. unfold greater. destruct (Rlt_dec y x); split; (done || lra || intros; done). Qed.

Lemma dense_length act layer inputs :
  length (dense act layer inputs) = length inputs.
Proof. unfold dense. apply length_map. Qed.

Lemma dense_sigmoid_range layer inputs :
  Forall (Forall (fun t => 0 <= t <= 1)) (dense sigmoid layer inputs).
Proof.
  unfold dense. apply Forall_map, Forall_forall. intros row _.
  apply Forall_map, Forall_forall. intros t _.
  pose proof (sigmoid_range t). lra.
Qed.

Local Abbreviation toxicity self text :=
  (dense sigmoid (dense2 self)
     (dense relu (dense1 self) (reshape_column (map preprocess text)))).

Lemma serve_toxicity_score self text :
  serve self text !! "toxicity_score" = Some (Float32 (toxicity self text)).
Proof. unfold serve. by rewrite lookup_insert_eq. Qed.

Lemma serve_is_toxic self text :
  serve self text !! "is_toxic"
  = Some (Bool (map (map (fun t => greater t (1 / 2))) (toxicity self text))).
Proof. unfold serve. by rewrite lookup_insert_ne, lookup_insert_eq. Qed.

Lemma serve_dom self text :
  dom (serve self text) = ({["toxicity_score"; "is_toxic"]} : gset string).
Proof. unfold serve. rewrite !dom_insert_L, dom_empty_L. set_solver. Qed.

Lemma toxicity_length self text : length (toxicity self text) = length text.
Proof.
  unfold reshape_column. by rewrite !dense_length, !length_map.
Qed.

End Network.

(** ** The claims about the serving functions *)

(** C1, as stated, fails: what the predictor returns is a float32, and not
    exactly min(length/100, 1.0).  For ["hi"] it returns 10737418 * 2^-29,
    which is not 1/50, whichever way the division is carried out; and for a
    text of 2^31 bytes, whose [int32] length is -2^31, it returns
    -21474836.0, where min(length/100, 1.0) is 1. *)
Lemma mock_score_is_not_exact :
  MockLength.predict MockLength.Quotient ["hi"] !! "toxicity_score"
  = Some (MockLength.Float32 [MockLength.f32_0_02])
  /\ MockLength.predict MockLength.Reciprocal ["hi"] !! "toxicity_score"
     = Some (MockLength.Float32 [MockLength.f32_0_02])
  /\ F32.within MockLength.f32_0_02 (MockLength.exact_score 2) 0 = false
  /\ MockLength.predict MockLength.Reciprocal [MockLength.huge_text] !! "toxicity_score"
     = Some (MockLength.Float32 [MockLength.f32_minus_21474836])
  /\ F32.within MockLength.f32_minus_21474836 (MockLength.exact_score 2147483648) 1
     = false.
Proof.
  split_and!.
  - vm_compute. reflexivity.
  - vm_compute. reflexivity.
  - vm_compute. reflexivity.
  - rewrite predict_toxicity_score. cbn [map]. by rewrite score_of_huge.
  - vm_compute. reflexivity.
Qed.

(** C1, amended.  For every batch, of any size, and every text in it that
    is shorter than 2^31 bytes, the [toxicity_score] of the mock-length
    predictor is min(byte length / 100, 1.0) evaluated in float32: it is
    within half a unit in the last place (2^-25) of the rational
    min(length/100, 1) when the division is a division, and within a whole
    one (2^-24) when it is the product with the reciprocal, and it is
    exactly 1.0 for a text of 100 bytes or more.  On the batch ["hi", s]
    with [s] of at least 100 bytes it is [0.02, 1.0], where the float32
    written 0.02 is the one nearest to 1/50. *)
Theorem mock_toxicity_score_formula :
  (forall (how : MockLength.division) (batch : list string),
     exists v,
       MockLength.predict how batch !! "toxicity_score" = Some (MockLength.Float32 v)
       /\ Forall2 (fun (s : string) (x : F32.f32) =>
                     (Z.of_nat (String.length s) < 2 ^ 31)%Z ->
                     F32.within x (MockLength.exact_score (Z.of_nat (String.length s)))
                                (MockLength.tolerance how) = true
                     /\ ((100 <= String.length s)%nat -> x = F32.one))
                  batch v)
  /\ (forall (how : MockLength.division) (s : string),
        (100 <= String.length s)%nat -> (Z.of_nat (String.length s) < 2 ^ 31)%Z ->
        MockLength.predict how ["hi"; s] !! "toxicity_score"
        = Some (MockLength.Float32 [MockLength.f32_0_02; F32.one]))
  /\ F32.within MockLength.f32_0_02 (2 # 100) (1 # 2 ^ 30) = true.
Proof.
  split_and!.
  - intros how batch. eexists. split; [apply predict_toxicity_score|].
    apply Forall2_fmap_r, Forall_Forall2_diag, Forall_forall. intros s _ Hb.
    split; [by apply score_of_accurate|]. intros Hs. by apply score_of_long.
  - intros how s Hs Hb. rewrite predict_toxicity_score. cbn [map].
    rewrite (score_of_long how s Hs Hb). by destruct how.
  - vm_compute. reflexivity.
Qed.

Lemma mock_toxicity_score_formula_witness :
  (100 <= String.length MockLength.long_text)%nat
  /\ (Z.of_nat (String.length MockLength.long_text) < 2 ^ 31)%Z
  /\ MockLength.predict MockLength.Reciprocal ["hi"; MockLength.long_text]
       !! "toxicity_score"
     = Some (MockLength.Float32 [MockLength.f32_0_02; F32.one]).
Proof.
  assert (100 <= String.length MockLength.long_text)%nat as Hs by (vm_compute; lia).
  assert (Z.of_nat (String.length MockLength.long_text) < 2 ^ 31)%Z as Hb
    by (vm_compute; reflexivity).
  split; [exact Hs|]. split; [exact Hb|].
  exact (proj1 (proj2 mock_toxicity_score_formula) MockLength.Reciprocal
           MockLength.long_text Hs Hb).
Defined.

(** C5, as stated, fails on the mock-length predictor: its mapping has a
    third field, [predictions]. *)
Lemma mock_output_has_predictions :
  ~ (dom (MockLength.predict MockLength.Reciprocal [])
     = ({["toxicity_score"; "text_length"]} : gset string)
     \/ dom (MockLength.predict MockLength.Reciprocal [])
        = ({["toxicity_score"; "is_toxic"]} : gset string)).
Proof.
  assert ("predictions" ∈ dom (MockLength.predict MockLength.Reciprocal [])) as Hin.
  { apply elem_of_dom. rewrite predict_predictions. eauto. }
  intros [H|H]; rewrite H in Hin; set_solver.
Qed.

(** C5, amended.  For every batch the mapping of the mock-length serving
    function has exactly the fields [toxicity_score], [text_length] and
    [predictions], and the mapping of the random-weights serving function
    has exactly the fields [toxicity_score] and [is_toxic]. *)
Theorem serving_output_fields :
  (forall (how : MockLength.division) (batch : list string),
     dom (MockLength.predict how batch)
     = ({["toxicity_score"; "text_length"; "predictions"]} : gset string))
  /\ (forall (model : RandomWeights.ToxicityModel) (batch : list string),
        dom (RandomWeights.serve model batch)
        = ({["toxicity_score"; "is_toxic"]} : gset string)).
Proof.
  split; [apply predict_dom|apply serve_dom].
Qed.




(** C7.  For every batch, the output mapping has a [toxicity_score] field
    whose first dimension is the length of the batch, for both
    predictors. *)
Theorem toxicity_score_batch_length :
  (forall (how : MockLength.division) (batch : list string),
     exists t, MockLength.predict how batch !! "toxicity_score" = Some t
               /\ MockLength.batch_size t = length batch)
  /\ (forall (model : RandomWeights.ToxicityModel) (batch : list string),
        exists t, RandomWeights.serve model batch !! "toxicity_score" = Some t
                  /\ RandomWeights.batch_size t = length batch).
Proof.
  split.
  - intros how batch. eexists. split; [apply predict_toxicity_score|].
    simpl. apply length_map.
  - intros model batch. eexists. split; [apply serve_toxicity_score|].
    simpl. apply toxicity_length.
Qed.

(** C8.  On the empty batch both predictors return their mapping, with all
    its fields, and every field is an empty batch. *)
Theorem empty_batch_outputs :
  (forall how : MockLength.division,
     dom (MockLength.predict how [])
     = ({["toxicity_score"; "text_length"; "predictions"]} : gset string)
     /\ map_Forall (fun _ t => MockLength.batch_size t = 0%nat)
                   (MockLength.predict how []))
  /\ (forall model : RandomWeights.ToxicityModel,
        dom (RandomWeights.serve model [])
        = ({["toxicity_score"; "is_toxic"]} : gset string)
        /\ map_Forall (fun _ t => RandomWeights.batch_size t = 0%nat)
                      (RandomWeights.serve model [])).
Proof.
  split.
  - intros how. split; [apply predict_dom|].
    unfold MockLength.predict. simpl.
    repeat (apply map_Forall_insert_2; [reflexivity|]). apply map_Forall_empty.
  - intros model. split; [apply serve_dom|].
    unfold RandomWeights.serve. simpl.
    repeat (apply map_Forall_insert_2; [reflexivity|]). apply map_Forall_empty.
Qed.

(** C9.  In the mock-length script the [predictions] field is the
    [toxicity_score] field, element for element. *)
Theorem predictions_same_as_toxicity_score :
  forall (how : MockLength.division) (batch : list string),
    exists v,
      MockLength.predict how batch !! "predictions" = Some (MockLength.Float32 v)
      /\ MockLength.predict how batch !! "toxicity_score" = Some (MockLength.Float32 v)
      /\ length v = length batch.
Proof.
  intros how batch. exists (map (fun s => score_of how s) batch).
  split_and!; [apply predict_predictions|apply predict_toxicity_score|apply length_map].
Qed.


(** ** The monad and the file system *)
Module RunFacts.
Import Py FS SavedModel.
Local Open Scope py_scope.

Lemma bind_inr {A B} (c : M A) (k : A -> M B) w b w' :
  bind c k w = (inr b, w') ->
  exists a w1, c w = (inr a, w1) /\ k a w1 = (inr b, w').
Proof.
  unfold bind. destruct (c w) as [[e|a] w1]; [done|]. intros H. by exists a, w1.
Qed.

Lemma run_inr {A} (x : (exn + A) * world) a : x.1 = inr a -> x = (inr a, x.2).
Proof. destruct x as [r w]. simpl. by intros ->. Qed.

Lemma run_inl {A} (x : (exn + A) * world) e : x.1 = inl e -> x = (inl e, x.2).
Proof. destruct x as [r w]. simpl. by intros ->. Qed.

Lemma only_dir_spec (dir : path) :
  match makedirs_from [] dir ∅ with inr _ => True | inl _ => False end ->
  makedirs_from [] dir ∅ = inr (Demo.only_dir dir).
Proof. unfold Demo.only_dir. by destruct (makedirs_from [] dir ∅). Qed.

Lemma bind_inl {A B} (c : M A) (k : A -> M B) w e w' :
  c w = (inl e, w') -> bind c k w = (inl e, w').
Proof. unfold bind. by intros ->. Qed.

Lemma bind_step {A B} (c : M A) (k : A -> M B) w a w1 :
  c w = (inr a, w1) -> bind c k w = k a w1.
Proof. unfold bind. by intros ->. Qed.

Lemma keeps_files_ret {A} (a : A) : keeps_files (ret a).
Proof. intros w r w' H. by inversion H. Qed.

Lemma keeps_files_lift {A} (x : exn + A) : keeps_files (lift x).
Proof. intros w r w' H. destruct x; by inversion H. Qed.

Lemma keeps_files_print line : keeps_files (print line).
Proof. intros w r w' H. by inversion H. Qed.

Lemma keeps_files_print_list l : keeps_files (print_list l).
Proof. intros w r w' H. by inversion H. Qed.

Lemma keeps_files_get_files : keeps_files get_files.
Proof. intros w r w' H. by inversion H. Qed.

Lemma keeps_files_bind {A B} (c : M A) (k : A -> M B) :
  keeps_files c -> (forall a, keeps_files (k a)) -> keeps_files (bind c k).
Proof.
  intros Hc Hk w r w'. unfold bind. destruct (c w) as [[e|a] w1] eqn:Hcw.
  - intros H. inversion H; subst. by eapply Hc.
  - intros H. rewrite (Hk _ _ _ _ H). by eapply Hc.
Qed.

Lemma keeps_files_for_each {A} (l : list A) (body : A -> M unit) :
  (forall a, keeps_files (body a)) -> keeps_files (for_each l body).
Proof.
  intros Hb. induction l as [|a l IH]; simpl.
  - apply keeps_files_ret.
  - apply keeps_files_bind; [apply Hb|]. intros _. apply IH.
Qed.

Lemma keeps_files_print_tree p : keeps_files (print_tree p).
Proof.
  unfold print_tree. apply keeps_files_bind; [apply keeps_files_get_files|]. intros f.
  apply keeps_files_for_each. intros [[root dirs] fs].
  apply keeps_files_bind; [apply keeps_files_print|]. intros _.
  apply keeps_files_for_each. intros file. apply keeps_files_print.
Qed.

Lemma keeps_files_listdir p : keeps_files (listdir p).
Proof.
  unfold listdir. apply keeps_files_bind; [apply keeps_files_get_files|]. intros f.
  destruct (lookup_node f p) as [[|d]|]; intros w r w' H; by inversion H.
Qed.

Lemma print_run line w :
  print line w = (inr tt, World (files w) (console w ++ [Stdout line])).
Proof. reflexivity. Qed.

Lemma makedirs_run p w f' :
  makedirs_from [] p (files w) = inr f' ->
  makedirs p w = (inr tt, World f' (console w)).
Proof. intros Hmk. unfold makedirs, bind, get_files, lift, put_files. by rewrite Hmk. Qed.

Lemma exists_run p w :
  exists_ p w = (inr (bool_decide (is_Some (lookup_node (files w) p))), w).
Proof. reflexivity. Qed.

Lemma prefix_antisym (p q : path) : p `prefix_of` q -> q `prefix_of` p -> q = p.
Proof.
  intros [k ->] [k' Hk]. rewrite <- app_assoc in Hk.
  rewrite <- (app_nil_r p) in Hk at 1. apply app_inv_head in Hk.
  symmetry in Hk. apply app_eq_nil in Hk as [-> _]. by rewrite app_nil_r.
Qed.

(** *** [os.makedirs] *)

Lemma prefix_removelast (l : path) : removelast l `prefix_of` l.
Proof.
  destruct l as [|x l] using rev_ind; [done|].
  rewrite removelast_last. by apply prefix_app_r.
Qed.

Lemma makedirs_from_lookup rest : forall (parent : path) (f f' : gmap path node),
  makedirs_from parent rest f = inr f' ->
  forall q : path, f' !! q = f !! q
            \/ (f !! q = None /\ f' !! q = Some Dir /\ q `prefix_of` (parent ++ rest)).
Proof.
  induction rest as [|c rest IH]; intros parent f f' Hmk q; simpl in Hmk.
  - inversion Hmk; subst. by left.
  - destruct (f !! (parent ++ [c])) as [[|data]|] eqn:Hq0; [| |].
    + destruct (IH _ _ _ Hmk q) as [?|(? & ? & Hpre)]; [by left|right].
      split_and!; try done. by rewrite <- app_assoc in Hpre.
    + destruct rest; done.
    + destruct (IH _ _ _ Hmk q) as [Heq|(Hnone & Hsome & Hpre)].
      * destruct (decide (q = parent ++ [c])) as [->|Hne].
        -- right. rewrite lookup_insert_eq in Heq. split_and!; try done.
           change (c :: rest) with ([c] ++ rest). rewrite app_assoc.
           by apply prefix_app_r.
        -- left. by rewrite lookup_insert_ne in Heq.
      * right. destruct (decide (q = parent ++ [c])) as [->|Hne].
        -- by rewrite lookup_insert_eq in Hnone.
        -- rewrite lookup_insert_ne in Hnone by done. split_and!; try done.
           by rewrite <- app_assoc in Hpre.
Qed.

Lemma makedirs_from_creates rest : forall (parent : path) (f f' : gmap path node),
  makedirs_from parent rest f = inr f' ->
  lookup_node f parent = Some Dir ->
  lookup_node f' (parent ++ rest) = Some Dir.
Proof.
  induction rest as [|c rest IH]; intros parent f f' Hmk Hpar; simpl in Hmk.
  - inversion Hmk; subst. by rewrite app_nil_r.
  - change (c :: rest) with ([c] ++ rest). rewrite app_assoc.
    assert (forall g : gmap path node, lookup_node g (parent ++ [c]) = g !! (parent ++ [c]))
      as Hnode by (intros g; by destruct parent).
    destruct (f !! (parent ++ [c])) as [[|data]|] eqn:Hq0.
    + apply (IH _ _ _ Hmk). by rewrite Hnode.
    + destruct rest; done.
    + apply (IH _ _ _ Hmk). by rewrite Hnode, lookup_insert_eq.
Qed.

Lemma makedirs_inr p w w' :
  makedirs p w = (inr tt, w') ->
  console w' = console w
  /\ makedirs_from [] p (files w) = inr (files w').
Proof.
  unfold makedirs, bind, get_files, lift, put_files.
  destruct (makedirs_from [] p (files w)) as [e|f'] eqn:Hmk; simpl; [done|].
  intros H. inversion H; subst. done.
Qed.

(** What [os.makedirs] leaves in place, and what it adds. *)
Lemma makedirs_keeps p w w' q n :
  makedirs p w = (inr tt, w') -> files w !! q = Some n -> files w' !! q = Some n.
Proof.
  intros (_ & Hmk)%makedirs_inr Hq.
  destruct (makedirs_from_lookup _ _ _ _ Hmk q) as [Heq|(Hnone & _)]; congruence.
Qed.

Lemma makedirs_adds p w w' q n :
  makedirs p w = (inr tt, w') -> files w' !! q = Some n ->
  files w !! q = Some n \/ (n = Dir /\ q `prefix_of` p).
Proof.
  intros (_ & Hmk)%makedirs_inr Hq.
  destruct (makedirs_from_lookup _ _ _ _ Hmk q) as [Heq|(_ & Hsome & Hpre)]; [left|right].
  - congruence.
  - split; [congruence|done].
Qed.

(** *** Writing the artifact *)

Lemma write_file_inr p data w w' :
  write_file p data w = (inr tt, w') ->
  files w' = <[p := File data]> (files w) /\ lookup_node (files w) p <> Some Dir.
Proof.
  unfold write_file, bind, get_files, put_files, raise.
  destruct (lookup_node (files w) p) as [[|d]|] eqn:Hl; [done| |];
    intros H; inversion H; subst; done.
Qed.

Lemma write_entry_adds dir ent w w' q n :
  write_entry dir ent w = (inr tt, w') -> files w' !! q = Some n ->
  files w !! q = Some n \/ q `prefix_of` (dir ++ ent.1).
Proof.
  unfold write_entry. destruct ent as [rel [|data]]; simpl.
  - intros Hmk Hq. destruct (makedirs_adds _ _ _ _ _ Hmk Hq) as [?|[_ ?]]; eauto.
  - intros (u & w1 & Hmk & Hwr)%bind_inr Hq. destruct u.
    apply write_file_inr in Hwr as [Hf _]. rewrite Hf in Hq.
    destruct (decide (q = dir ++ rel)) as [->|Hne]; [by right|].
    rewrite lookup_insert_ne in Hq by done.
    destruct (makedirs_adds _ _ _ _ _ Hmk Hq) as [?|[_ Hpre]]; [by left|right].
    etrans; [done|]. apply prefix_app, prefix_removelast.
Qed.

Lemma write_entry_keeps dir ent w w' q n :
  write_entry dir ent w = (inr tt, w') -> files w !! q = Some n ->
  files w' !! q = Some n \/ (q = dir ++ ent.1 /\ is_dir ent.2 = false).
Proof.
  unfold write_entry. destruct ent as [rel [|data]]; simpl.
  - intros Hmk Hq. left. by eapply makedirs_keeps.
  - intros (u & w1 & Hmk & Hwr)%bind_inr Hq. destruct u.
    apply write_file_inr in Hwr as [Hf _].
    destruct (decide (q = dir ++ rel)) as [->|Hne]; [by right|left].
    rewrite Hf, lookup_insert_ne by done. by eapply makedirs_keeps.
Qed.

Lemma for_each_write_adds dir entries : forall w w' q n,
  for_each entries (write_entry dir) w = (inr tt, w') -> files w' !! q = Some n ->
  files w !! q = Some n \/ written dir entries q.
Proof.
  induction entries as [|ent entries IH]; intros w w' q n; simpl.
  - unfold ret. intros H Hq. inversion H; subst. by left.
  - intros (u & w1 & Hent & Hrest)%bind_inr Hq. destruct u.
    destruct (IH _ _ _ _ Hrest Hq) as [Hq1|Hw]; [|right; by apply Exists_cons_tl].
    destruct (write_entry_adds _ _ _ _ _ _ Hent Hq1) as [?|?]; [by left|right].
    by apply Exists_cons_hd.
Qed.

Lemma for_each_write_keeps dir entries : forall w w' q n,
  for_each entries (write_entry dir) w = (inr tt, w') -> files w !! q = Some n ->
  ~ replaced dir entries q -> files w' !! q = Some n.
Proof.
  induction entries as [|ent entries IH]; intros w w' q n; simpl.
  - unfold ret. intros H Hq _. by inversion H; subst.
  - intros (u & w1 & Hent & Hrest)%bind_inr Hq Hnr. destruct u.
    destruct (write_entry_keeps _ _ _ _ _ _ Hent Hq) as [Hq1|Hrep].
    + eapply IH; [done..|]. intros Hr. apply Hnr. by apply Exists_cons_tl.
    + exfalso. apply Hnr. by apply Exists_cons_hd.
Qed.

(** [tf.saved_model.save]: every node after the save was there before, or is
    the export directory or a directory above it, or was written. *)
Lemma save_adds entries dir w w' q n :
  save (inr entries) dir w = (inr tt, w') -> files w' !! q = Some n ->
  files w !! q = Some n \/ q `prefix_of` dir \/ written dir entries q.
Proof.
  unfold save. simpl. intros (es & w0 & Hret & Hrun)%bind_inr Hq.
  unfold ret in Hret. inversion Hret; subst es w0. clear Hret.
  apply bind_inr in Hrun as (u & w1 & Hmk & Hrun). destruct u.
  destruct (for_each_write_adds _ _ _ _ _ _ Hrun Hq) as [Hq1|?]; [|by right; right].
  destruct (makedirs_adds _ _ _ _ _ Hmk Hq1) as [?|[_ ?]]; [by left|by right; left].
Qed.

(** [tf.saved_model.save] keeps every node it does not replace by a file of
    the artifact. *)
Lemma save_keeps entries dir w w' q n :
  save (inr entries) dir w = (inr tt, w') -> files w !! q = Some n ->
  ~ replaced dir entries q -> files w' !! q = Some n.
Proof.
  unfold save. simpl. intros (es & w0 & Hret & Hrun)%bind_inr Hq Hnr.
  unfold ret in Hret. inversion Hret; subst es w0. clear Hret.
  apply bind_inr in Hrun as (u & w1 & Hmk & Hrun). destruct u.
  eapply for_each_write_keeps; [done| |done]. by eapply makedirs_keeps.
Qed.

Lemma save_inl_serialize e dir w : save (inl e) dir w = (inl e, w).
Proof. reflexivity. Qed.

(** *** [shutil.rmtree] and well-formed file systems *)

Lemma rmtree_inr p w w' :
  rmtree p w = (inr tt, w') ->
  files w' = filter (fun kv : path * node => ~ p `prefix_of` kv.1) (files w).
Proof.
  unfold rmtree, bind, get_files, put_files, raise.
  destruct (lookup_node (files w) p) as [[|d]|]; intros H; inversion H; subst; done.
Qed.

Lemma rmtree_clears p w w' q n :
  rmtree p w = (inr tt, w') -> files w' !! q = Some n ->
  files w !! q = Some n /\ ~ p `prefix_of` q.
Proof.
  intros Hrm%rmtree_inr. rewrite Hrm. by intros [? ?]%map_lookup_filter_Some.
Qed.

(** In a well-formed file system everything lies below existing
    directories. *)
Lemma well_formed_ancestor (f : gmap path node) (p : path) :
  well_formed f ->
  forall (l : path) n, f !! (p ++ l) = Some n -> is_Some (lookup_node f p).
Proof.
  intros Hwf l. induction l as [|x l IH] using rev_ind; intros n Hl.
  - rewrite app_nil_r in Hl. destruct p; simpl; eauto.
  - specialize (Hwf _ _ Hl). simpl in Hwf.
    rewrite app_assoc, removelast_last in Hwf.
    destruct p as [|y p]; [simpl; eauto|]. by apply (IH Dir).
Qed.

Lemma absent_nothing_below (f : gmap path node) (p q : path) n :
  well_formed f -> lookup_node f p = None -> f !! q = Some n -> ~ p `prefix_of` q.
Proof.
  intros Hwf Hp Hq [l ->]. destruct (well_formed_ancestor f p Hwf l n Hq) as [? ?].
  congruence.
Qed.

End RunFacts.

(** ** The three scripts *)
Module ScriptFacts.
Import Py FS SavedModel RunFacts.
Local Open Scope py_scope.

Local Ltac step H u w1 H1 :=
  apply bind_inr in H as (u & w1 & H1 & H).

(** *** [create_tf_serving_model.py] *)

Lemma mock_model_dir_eq :
  MockLength.model_dir = ["mnt"; "d"; "ivan"; "models"; "toxicity_model"; "1"].
Proof. vm_compute. reflexivity. Qed.

Lemma create_serving_model_eq tf_version serialized load :
  MockLength.create_serving_model tf_version serialized load
  = (let* present := exists_ MockLength.model_dir in
     (if present then rmtree MockLength.model_dir else ret tt) ;;
     makedirs MockLength.model_dir ;;
     print ("Creating model with TensorFlow " +:+ tf_version) ;;
     save serialized MockLength.model_dir ;;
     print "✅ Model created successfully" ;;
     print ("📁 Model saved to: " +:+ MockLength.model_dir_literal) ;;
     print (nl +:+ "📋 Verifying saved model...") ;;
     let* f := get_files in
     let* loaded := lift (load f MockLength.model_dir) in
     print "✅ Model loads correctly" ;;
     print (nl +:+ "📁 Created files:") ;;
     print_tree MockLength.model_dir ;;
     ret true).
Proof. reflexivity. Qed.

Lemma create_serving_model_destination tf_version entries load w r w' :
  well_formed (files w) ->
  MockLength.create_serving_model tf_version (inr entries) load w = (inr r, w') ->
  forall (q : path) n,
    files w' !! q = Some n -> MockLength.model_dir `prefix_of` q ->
    q = MockLength.model_dir \/ written MockLength.model_dir entries q.
Proof.
  intros Hwf Hrun q n Hq Hpre. rewrite create_serving_model_eq in Hrun.
  step Hrun present w1 Hex. rewrite exists_run in Hex.
  injection Hex as H0 <-.
  step Hrun u2 w2 Hrm. step Hrun u3 w3 Hmk. step Hrun u4 w4 Hpr. step Hrun u5 w5 Hsave.
  destruct u2, u3, u5.
  assert (files w' = files w5) as Hrest.
  { revert Hrun. apply keeps_files_bind; [apply keeps_files_print|]. intros _.
    apply keeps_files_bind; [apply keeps_files_print|]. intros _.
    apply keeps_files_bind; [apply keeps_files_print|]. intros _.
    apply keeps_files_bind; [apply keeps_files_get_files|]. intros f.
    apply keeps_files_bind; [apply keeps_files_lift|]. intros _.
    apply keeps_files_bind; [apply keeps_files_print|]. intros _.
    apply keeps_files_bind; [apply keeps_files_print|]. intros _.
    apply keeps_files_bind; [apply keeps_files_print_tree|]. intros _.
    apply keeps_files_ret. }
  rewrite Hrest in Hq.
  destruct (save_adds _ _ _ _ _ _ Hsave Hq) as [Hq4|[Hq4|Hq4]];
    [|left; by apply prefix_antisym|by right].
  left. rewrite (keeps_files_print _ _ _ _ Hpr) in Hq4.
  destruct (makedirs_adds _ _ _ _ _ Hmk Hq4) as [Hq2|[_ Hq2]];
    [exfalso|by apply prefix_antisym].
  destruct present.
  - destruct (rmtree_clears _ _ _ _ _ Hrm Hq2) as [_ Hno]. by apply Hno.
  - unfold ret in Hrm. inversion Hrm; subst w2.
    assert (lookup_node (files w) MockLength.model_dir = None) as Habs.
    { destruct (lookup_node (files w) MockLength.model_dir) eqn:Hl; [|done].
      apply bool_decide_eq_false in H0. exfalso. apply H0. eauto. }
    by eapply absent_nothing_below.
Qed.

Lemma main_handles tf_version serialized load w e w' :
  MockLength.create_serving_model tf_version serialized load w = (inl e, w') ->
  is_Exception e = true ->
  run_main (MockLength.main tf_version serialized load) w
  = (Finished,
     World (files w') (console w' ++ [Stdout ("❌ Error: " +:+ exn_msg e); Traceback e])).
Proof.
  intros Hrun Hexc. unfold run_main, MockLength.main, try_except_Exception.
  rewrite (bind_inl _ _ _ _ _ Hrun), Hexc.
  unfold MockLength.on_error, bind, print, print_exc. simpl.
  by rewrite <- app_assoc.
Qed.

Lemma main_propagates tf_version serialized load w e w' :
  MockLength.create_serving_model tf_version serialized load w = (inl e, w') ->
  is_Exception e = false ->
  run_main (MockLength.main tf_version serialized load) w = (Uncaught e, w').
Proof.
  intros Hrun Hexc. unfold run_main, MockLength.main, try_except_Exception.
  by rewrite (bind_inl _ _ _ _ _ Hrun), Hexc.
Qed.

(** *** [create_toxicity_model.py] *)

Lemma random_weights_script_eq script_file model serialized :
  RandomWeights.script script_file model serialized
  = (print ("Creating model at: " +:+ path_str (RandomWeights.model_path script_file)) ;;
     makedirs (RandomWeights.model_path script_file) ;;
     print "Building model..." ;;
     print ("Saving model to " +:+ path_str (RandomWeights.model_path script_file) +:+ "...") ;;
     save serialized (RandomWeights.model_path script_file) ;;
     print "✅ Model created successfully!" ;;
     print ("📁 Model location: " +:+ path_str (RandomWeights.model_path script_file)) ;;
     print (nl +:+ "📋 Created files:") ;;
     print_tree (RandomWeights.model_path script_file)).
Proof. reflexivity. Qed.

Lemma random_weights_script_keeps script_file model entries w w' :
  RandomWeights.script script_file model (inr entries) w = (inr tt, w') ->
  forall (q : path) n,
    files w !! q = Some n ->
    ~ replaced (RandomWeights.model_path script_file) entries q ->
    files w' !! q = Some n.
Proof.
  intros Hrun q n Hq Hnr. rewrite random_weights_script_eq in Hrun.
  step Hrun u1 w1 Hp1. step Hrun u2 w2 Hmk. step Hrun u3 w3 Hp3.
  step Hrun u4 w4 Hp4. step Hrun u5 w5 Hsave. destruct u2, u5.
  assert (files w' = files w5) as ->.
  { revert Hrun. apply keeps_files_bind; [apply keeps_files_print|]. intros _.
    apply keeps_files_bind; [apply keeps_files_print|]. intros _.
    apply keeps_files_bind; [apply keeps_files_print|]. intros _.
    apply keeps_files_print_tree. }
  eapply save_keeps; [done| |done].
  rewrite (keeps_files_print _ _ _ _ Hp4), (keeps_files_print _ _ _ _ Hp3).
  eapply makedirs_keeps; [done|]. by rewrite (keeps_files_print _ _ _ _ Hp1).
Qed.

(** *** [download_pretrained_model.py] *)

Lemma hub_model_dir_eq :
  HubFetch.model_dir = ["D:"; "ivan"; "models"; "toxicity_model"; "1"].
Proof. vm_compute. reflexivity. Qed.

Lemma hub_script_eq hub_model hub_load serialize :
  HubFetch.script hub_model hub_load serialize
  = (print "Script started..." ;;
     print "Imports done." ;;
     print "Downloading pretrained toxicity model..." ;;
     makedirs HubFetch.model_dir ;;
     let* model := lift (hub_load HubFetch.model_url) in
     print "Model downloaded from TF Hub." ;;
     save (serialize model) HubFetch.model_dir ;;
     print ("✅ Model saved at " +:+ HubFetch.model_dir_literal) ;;
     print "Saved model contents:" ;;
     let* names := listdir HubFetch.model_dir in
     print_list names).
Proof. reflexivity. Qed.

Lemma hub_script_keeps hub_model hub_load serialize m entries w w' :
  hub_load HubFetch.model_url = inr m -> serialize m = inr entries ->
  HubFetch.script hub_model hub_load serialize w = (inr tt, w') ->
  forall (q : path) n,
    files w !! q = Some n -> ~ replaced HubFetch.model_dir entries q ->
    files w' !! q = Some n.
Proof.
  intros Hload Hser Hrun q n Hq Hnr. rewrite hub_script_eq in Hrun.
  step Hrun u1 w1 Hp1. step Hrun u2 w2 Hp2. step Hrun u3 w3 Hp3.
  step Hrun u4 w4 Hmk. step Hrun m' w5 Hl. rewrite Hload in Hl.
  injection Hl as <- <-.
  step Hrun u6 w6 Hp6. step Hrun u7 w7 Hsave. rewrite Hser in Hsave. destruct u4, u7.
  assert (files w' = files w7) as ->.
  { revert Hrun. apply keeps_files_bind; [apply keeps_files_print|]. intros _.
    apply keeps_files_bind; [apply keeps_files_print|]. intros _.
    apply keeps_files_bind; [apply keeps_files_listdir|]. intros names.
    apply keeps_files_print_list. }
  eapply save_keeps; [done| |done].
  rewrite (keeps_files_print _ _ _ _ Hp6).
  eapply makedirs_keeps; [done|].
  by rewrite (keeps_files_print _ _ _ _ Hp3), (keeps_files_print _ _ _ _ Hp2),
    (keeps_files_print _ _ _ _ Hp1).
Qed.

Lemma run_main_uncaught {A} (script : M A) w e w' :
  script w = (inl e, w') -> run_main script w = (Uncaught e, w').
Proof. intros H. unfold run_main. by rewrite H. Qed.

Lemma hub_script_fetch_fails hub_model hub_load serialize w e f' :
  hub_load HubFetch.model_url = inl e ->
  makedirs_from [] HubFetch.model_dir (files w) = inr f' ->
  HubFetch.script hub_model hub_load serialize w
  = (inl e,
     World f' (console w ++ [Stdout "Script started..."; Stdout "Imports done.";
                             Stdout "Downloading pretrained toxicity model..."])).
Proof.
  intros Hload Hmk. rewrite hub_script_eq.
  rewrite (bind_step _ _ _ _ _ (print_run _ _)).
  rewrite (bind_step _ _ _ _ _ (print_run _ _)).
  rewrite (bind_step _ _ _ _ _ (print_run _ _)).
  erewrite bind_step by (apply makedirs_run; exact Hmk).
  rewrite Hload. cbn [files console]. by rewrite <- !app_assoc.
Qed.

End ScriptFacts.


(** ** The claims about the exports *)
Section ExportClaims.
Import Py FS SavedModel.

(** C2, as stated, fails on the random-weights script: a file that was in
    the destination before the run is still there after the export, and the
    run did not write it. *)
Lemma export_keeps_stale_file :
  Demo.random_weights_run.1 = inr tt
  /\ files Demo.random_weights_run.2 !! (Demo.random_weights_dest ++ ["stale.txt"])
     = Some (File "left over")
  /\ ~ written Demo.random_weights_dest Demo.saved_model_files
        (Demo.random_weights_dest ++ ["stale.txt"]).
Proof.
  split_and!.
  - vm_compute. reflexivity.
  - vm_compute. reflexivity.
  - apply (bool_decide_unpack _). vm_compute. reflexivity.
Qed.

(** C2, amended.  The mock-length script removes what was at the
    destination: after its export, everything in the destination directory
    was written by that run.  The random-weights and hub-fetch scripts only
    create the directory if it is missing: after their export, whatever was
    in the file system before and is not replaced by a file of the artifact
    is still there. *)
Theorem export_destination_contents :
  (forall tf_version entries load w r w',
     well_formed (files w) ->
     MockLength.create_serving_model tf_version (inr entries) load w = (inr r, w') ->
     forall (q : path) n,
       files w' !! q = Some n -> MockLength.model_dir `prefix_of` q ->
       q = MockLength.model_dir \/ written MockLength.model_dir entries q)
  /\ (forall script_file model entries w w',
        RandomWeights.script script_file model (inr entries) w = (inr tt, w') ->
        forall (q : path) n,
          files w !! q = Some n ->
          ~ replaced (RandomWeights.model_path script_file) entries q ->
          files w' !! q = Some n)
  /\ (forall hub_model hub_load serialize (m : hub_model) entries w w',
        hub_load HubFetch.model_url = inr m -> serialize m = inr entries ->
        HubFetch.script hub_model hub_load serialize w = (inr tt, w') ->
        forall (q : path) n,
          files w !! q = Some n -> ~ replaced HubFetch.model_dir entries q ->
          files w' !! q = Some n).
Proof.
  split_and!.
  - apply ScriptFacts.create_serving_model_destination.
  - apply ScriptFacts.random_weights_script_keeps.
  - apply ScriptFacts.hub_script_keeps.
Qed.

Lemma export_destination_contents_witness :
  (well_formed (files (Demo.stale_world MockLength.model_dir))
   /\ files Demo.mock_run.2 !! (MockLength.model_dir ++ ["variables"; "variables.index"])
      = Some (File "index")
   /\ (MockLength.model_dir ++ ["variables"; "variables.index"] = MockLength.model_dir
       \/ written MockLength.model_dir Demo.saved_model_files
            (MockLength.model_dir ++ ["variables"; "variables.index"])))
  /\ (files (Demo.stale_world Demo.random_weights_dest)
        !! (Demo.random_weights_dest ++ ["stale.txt"]) = Some (File "left over")
      /\ files Demo.random_weights_run.2 !! (Demo.random_weights_dest ++ ["stale.txt"])
         = Some (File "left over"))
  /\ (files (Demo.stale_world HubFetch.model_dir) !! (HubFetch.model_dir ++ ["stale.txt"])
      = Some (File "left over")
      /\ files Demo.hub_run.2 !! (HubFetch.model_dir ++ ["stale.txt"])
         = Some (File "left over")).
Proof.
  split_and!.
  - apply (bool_decide_unpack _). vm_compute. reflexivity.
  - vm_compute. reflexivity.
  - refine (proj1 export_destination_contents "2.15.0" Demo.saved_model_files Demo.load_ok
              (Demo.stale_world MockLength.model_dir) true Demo.mock_run.2 _ _
              _ (File "index") _ _).
    + apply (bool_decide_unpack _). vm_compute. reflexivity.
    + apply RunFacts.run_inr. vm_compute. reflexivity.
    + vm_compute. reflexivity.
    + apply (bool_decide_unpack _). vm_compute. reflexivity.
  - vm_compute. reflexivity.
  - refine (proj1 (proj2 export_destination_contents) Demo.script_file Demo.model
              Demo.saved_model_files (Demo.stale_world Demo.random_weights_dest)
              Demo.random_weights_run.2 _ _ (File "left over") _ _).
    + apply RunFacts.run_inr. vm_compute. reflexivity.
    + vm_compute. reflexivity.
    + apply (bool_decide_unpack _). vm_compute. reflexivity.
  - vm_compute. reflexivity.
  - refine (proj2 (proj2 export_destination_contents) unit Demo.hub_up
              Demo.serialize_hub_model tt Demo.saved_model_files
              (Demo.stale_world HubFetch.model_dir) Demo.hub_run.2 _ _ _
              _ (File "left over") _ _).
    + reflexivity.
    + reflexivity.
    + apply RunFacts.run_inr. vm_compute. reflexivity.
    + vm_compute. reflexivity.
    + apply (bool_decide_unpack _). vm_compute. reflexivity.
Defined.

(** C3, as stated, fails: the destination directory is created before the
    fetch, so a write to the file system does precede it. *)
Lemma hub_fetch_creates_directory_first :
  Demo.hub_down_run.1 = inl Demo.unreachable
  /\ files Demo.empty_world !! HubFetch.model_dir = None
  /\ files Demo.hub_down_run.2 !! HubFetch.model_dir = Some Dir.
Proof. split_and!; vm_compute; reflexivity. Qed.

(** C3, amended.  In the hub-fetch script, if the fetch fails (the
    destination directory having been created or found first), the script
    stops with the exception the fetch raised; by then the destination
    directory exists, and no file has been written or removed. *)
Theorem hub_fetch_failure_writes_no_file :
  forall hub_model hub_load serialize w e (f' : gmap path node),
    hub_load HubFetch.model_url = inl e ->
    makedirs_from [] HubFetch.model_dir (files w) = inr f' ->
    HubFetch.script hub_model hub_load serialize w
    = (inl e,
       World f' (console w ++ [Stdout "Script started..."; Stdout "Imports done.";
                               Stdout "Downloading pretrained toxicity model..."]))
    /\ f' !! HubFetch.model_dir = Some Dir
    /\ (forall (q : path) data,
          f' !! q = Some (File data) <-> files w !! q = Some (File data)).
Proof.
  intros hub_model hub_load serialize w e f' Hload Hmk. split_and!.
  - by apply ScriptFacts.hub_script_fetch_fails.
  - pose proof (RunFacts.makedirs_from_creates _ _ _ _ Hmk eq_refl) as Hdir.
    rewrite app_nil_l in Hdir. rewrite ScriptFacts.hub_model_dir_eq in Hdir |- *.
    exact Hdir.
  - intros q data.
    destruct (RunFacts.makedirs_from_lookup _ _ _ _ Hmk q) as [->|(Hnone & Hdir & _)];
      [done|].
    rewrite Hnone, Hdir. split; intros; done.
Qed.

Lemma hub_fetch_failure_writes_no_file_witness :
  Demo.hub_down HubFetch.model_url = inl Demo.unreachable
  /\ makedirs_from [] HubFetch.model_dir (files Demo.empty_world)
     = inr (Demo.only_dir HubFetch.model_dir)
  /\ Demo.only_dir HubFetch.model_dir !! HubFetch.model_dir = Some Dir.
Proof.
  assert (makedirs_from [] HubFetch.model_dir (files Demo.empty_world)
          = inr (Demo.only_dir HubFetch.model_dir)) as Hmk.
  { apply RunFacts.only_dir_spec. vm_compute. exact I. }
  split_and!.
  - reflexivity.
  - exact Hmk.
  - exact (proj1 (proj2 (hub_fetch_failure_writes_no_file unit Demo.hub_down
             Demo.serialize_hub_model Demo.empty_world Demo.unreachable
             (Demo.only_dir HubFetch.model_dir) eq_refl Hmk))).
Defined.




End ExportClaims.

(** ** More on the mock-length score *)
Module ScoreFacts.
Import F32 F32Facts.
Local Open Scope Z_scope.

Local Abbreviation score how n :=
  (minimum (MockLength.divide_by_hundred how (of_int32 n)) one).

(** The scores of the lengths below 100, for the division and for the
    product with the reciprocal. *)
Lemma score_below_100_table :
  Forall (fun how : MockLength.division =>
    Forall (fun i : nat =>
              score how (Z.of_nat i) <> one
              /\ (score how (Z.of_nat i) = zero <-> i = 0%nat)
              /\ Forall (fun j : nat =>
                           (i <= j)%nat ->
                           leb (score how (Z.of_nat i)) (score how (Z.of_nat j)) = true)
                        (seq 0 100))
           (seq 0 100))
    [MockLength.Quotient; MockLength.Reciprocal].
Proof. apply (bool_decide_unpack _). vm_compute. reflexivity. Qed.

Lemma score_table_row how (n : Z) :
  0 <= n < 100 ->
  score how n <> one
  /\ (score how n = zero <-> n = 0)
  /\ forall m, n <= m < 100 -> leb (score how n) (score how m) = true.
Proof.
  intros Hn. pose proof score_below_100_table as Htab. rewrite Forall_forall in Htab.
  assert (how ∈ [MockLength.Quotient; MockLength.Reciprocal]) as Hin
    by (destruct how; repeat constructor).
  specialize (Htab how Hin). rewrite Forall_forall in Htab.
  destruct (Htab (Z.to_nat n)) as (H1 & H0 & Hrow); [apply elem_of_seq; lia|].
  assert (Z.of_nat (Z.to_nat n) = n) as Hid by lia. rewrite Hid in H1, H0, Hrow.
  split; [done|]. split.
  - rewrite H0. lia.
  - intros m Hm. rewrite Forall_forall in Hrow.
    specialize (Hrow (Z.to_nat m)).
    assert (Z.of_nat (Z.to_nat m) = m) as Hidm by lia. rewrite Hidm in Hrow.
    apply Hrow; [apply elem_of_seq|]; lia.
Qed.

Lemma score_one_iff how n : 0 <= n -> score how n = one <-> 100 <= n.
Proof.
  intros Hn. split.
  - intros Hone. destruct (Z.lt_ge_cases n 100) as [Hlt|]; [|done].
    by destruct (score_table_row how n) as [Hne _]; [lia|].
  - apply score_ge_100.
Qed.

Lemma score_zero_iff how n : 0 <= n -> score how n = zero <-> n = 0.
Proof.
  intros Hn. destruct (Z.lt_ge_cases n 100) as [Hlt|Hge].
  - by apply score_table_row.
  - rewrite score_ge_100 by done. split; [done|lia].
Qed.

Lemma score_mono how n m : 0 <= n <= m -> leb (score how n) (score how m) = true.
Proof.
  intros Hnm. destruct (Z.lt_ge_cases m 100) as [Hlt|Hge].
  - destruct (score_table_row how n) as (_ & _ & Hrow); [lia|]. apply Hrow. lia.
  - rewrite (score_ge_100 how m) by done. apply score_in_unit_interval. lia.
Qed.

End ScoreFacts.

Section MockOutputs.
Import MockLength.

Lemma scores_of_predict how batch :
  scores_of (predict how batch) = (fun s => score_of how s) <$> batch.
Proof. unfold scores_of. by rewrite predict_toxicity_score. Qed.

Lemma lengths_of_predict how batch :
  lengths_of (predict how batch)
  = (fun s => Int32.wrap (Z.of_nat (String.length s))) <$> batch.
Proof. unfold lengths_of. by rewrite predict_text_length. Qed.

End MockOutputs.

(** X1.  In the mapping of the mock-length predictor a longer text never has
    a lower score than a shorter one, as long as it is shorter than 2^31
    bytes: the score is monotone in the byte length, the rounding of the
    division, or of the product with the reciprocal, included. *)
Theorem longer_text_scores_no_lower :
  forall (how : MockLength.division) (batch : list string) (i j : nat)
         (s t : string) (x y : F32.f32),
    batch !! i = Some s -> batch !! j = Some t ->
    MockLength.scores_of (MockLength.predict how batch) !! i = Some x ->
    MockLength.scores_of (MockLength.predict how batch) !! j = Some y ->
    (String.length s <= String.length t)%nat ->
    (Z.of_nat (String.length t) < 2 ^ 31)%Z ->
    F32.leb x y = true.
Proof.
  intros how batch i j s t x y Hs Ht Hx Hy Hlen Hb.
  rewrite scores_of_predict, list_lookup_fmap in Hx, Hy.
  rewrite Hs in Hx. rewrite Ht in Hy. simpl in Hx, Hy.
  injection Hx as <-. injection Hy as <-.
  rewrite !F32Facts.wrap_small by lia.
  apply ScoreFacts.score_mono. lia.
Qed.

Lemma longer_text_scores_no_lower_witness :
  (String.length "hi" <= String.length MockLength.long_text)%nat
  /\ (Z.of_nat (String.length MockLength.long_text) < 2 ^ 31)%Z
  /\ F32.leb MockLength.f32_0_02 F32.one = true.
Proof.
  assert (String.length "hi" <= String.length MockLength.long_text)%nat as Hlen
    by (vm_compute; lia).
  assert (Z.of_nat (String.length MockLength.long_text) < 2 ^ 31)%Z as Hb
    by (vm_compute; reflexivity).
  split; [exact Hlen|]. split; [exact Hb|].
  apply (longer_text_scores_no_lower MockLength.Reciprocal ["hi"; MockLength.long_text]
           0 1 "hi" MockLength.long_text).
  - reflexivity.
  - reflexivity.
  - vm_compute. reflexivity.
  - vm_compute. reflexivity.
  - exact Hlen.
  - exact Hb.
Defined.

(** X2.  In the mapping of the mock-length predictor, for every text of the
    batch that is shorter than 2^31 bytes: its [text_length] is its byte
    length; its [toxicity_score] is exactly 1.0 if the text has at least 100
    bytes and in no other case; and it is exactly 0.0 if the text is empty
    and in no other case.  No rounding, of the division or of the product
    with the reciprocal, reaches 1.0 below 100 bytes or 0.0 above 0
    bytes. *)
Theorem score_saturates_at_100_bytes :
  forall (how : MockLength.division) (batch : list string),
    Forall2 (fun (s : string) (len : Z) =>
               (Z.of_nat (String.length s) < 2 ^ 31)%Z ->
               len = Z.of_nat (String.length s))
            batch (MockLength.lengths_of (MockLength.predict how batch))
    /\ Forall2 (fun (s : string) (x : F32.f32) =>
                  (Z.of_nat (String.length s) < 2 ^ 31)%Z ->
                  (x = F32.one <-> (100 <= String.length s)%nat)
                  /\ (x = F32.zero <-> s = EmptyString))
               batch (MockLength.scores_of (MockLength.predict how batch)).
Proof.
  intros how batch. rewrite scores_of_predict, lengths_of_predict. split.
  - apply Forall2_fmap_r, Forall_Forall2_diag, Forall_forall. intros s _ Hb.
    apply F32Facts.wrap_small. lia.
  - apply Forall2_fmap_r, Forall_Forall2_diag, Forall_forall. intros s _ Hb.
    rewrite F32Facts.wrap_small by lia. split.
    + rewrite ScoreFacts.score_one_iff by lia. lia.
    + rewrite ScoreFacts.score_zero_iff by lia. destruct s; [done|].
      cbn [String.length]. split; [lia|done].
Qed.

Lemma score_saturates_at_100_bytes_witness :
  (Z.of_nat (String.length MockLength.long_text) < 2 ^ 31)%Z
  /\ (100 <= String.length MockLength.long_text)%nat
  /\ MockLength.scores_of (MockLength.predict MockLength.Reciprocal [MockLength.long_text])
     = [F32.one].
Proof.
  assert (Z.of_nat (String.length MockLength.long_text) < 2 ^ 31)%Z as Hb
    by (vm_compute; reflexivity).
  assert (100 <= String.length MockLength.long_text)%nat as Hs by (vm_compute; lia).
  split; [exact Hb|]. split; [exact Hs|].
  pose proof (proj2 (score_saturates_at_100_bytes MockLength.Reciprocal
                       [MockLength.long_text])) as Hall.
  destruct (MockLength.scores_of
              (MockLength.predict MockLength.Reciprocal [MockLength.long_text]))
    as [|x [|x' v]] eqn:Hv.
  - apply Forall2_nil_inv_r in Hall. discriminate.
  - apply Forall2_cons_1 in Hall as [Hx _]. f_equal. by apply (proj1 (Hx Hb)).
  - apply Forall2_cons_1 in Hall as [_ Hall]. apply Forall2_nil_inv_l in Hall.
    discriminate.
Defined.

(** ** More on the network *)
Section NetworkFacts.
Import RandomWeights.
Local Open Scope R_scope.

Lemma sigmoid_0 : sigmoid 0 = 1 / 2.
Proof. unfold sigmoid. rewrite Ropp_0, exp_0. lra. Qed.

Lemma relu_scale c x : 0 <= c -> relu (c * x) = c * relu x.
Proof.
  intros Hc. unfold relu. rewrite <- (Rmult_0_r c) at 1. by apply RmaxRmult.
Qed.

Lemma serve_scores self text :
  scores_of (serve self text) = map (map sigmoid) (logits self text).
Proof.
  unfold scores_of. rewrite serve_toxicity_score. unfold logits, dense.
  by rewrite !map_map.
Qed.

Lemma serve_flags self text :
  flags_of (serve self text)
  = map (map (fun z => greater (sigmoid z) (1 / 2))) (logits self text).
Proof.
  unfold flags_of. rewrite serve_is_toxic. unfold logits, dense.
  rewrite !map_map. apply map_ext. intros row. by rewrite !map_map.
Qed.

Lemma logits_rows self text :
  logits self text
  = map (fun s => affine (dense2 self) (map relu (affine (dense1 self) [preprocess s])))
        text.
Proof. unfold logits, dense, reshape_column. by rewrite !map_map. Qed.

(** *** Shapes *)

Lemma affine_steps_length (units : nat) (xs : list (R * list R)) : forall acc : list R,
  length acc = units ->
  Forall (fun xw : R * list R => length xw.2 = units) xs ->
  length (foldl (fun acc xw => zip_with Rplus acc (map (Rmult xw.1) xw.2)) acc xs)
  = units.
Proof.
  induction xs as [|[x w] xs IH]; intros acc Hacc Hxs; simpl; [done|].
  apply Forall_cons in Hxs as [Hw Hxs]. simpl in Hw.
  apply IH; [|done]. rewrite length_zip_with, length_map. lia.
Qed.

Lemma affine_length layer row :
  fits layer -> length (affine layer row) = length (bias layer).
Proof.
  intros Hfit. unfold affine. apply affine_steps_length; [done|].
  apply Forall_forall. intros [x w] Hin. simpl.
  apply elem_of_zip_r in Hin. unfold fits in Hfit. rewrite Forall_forall in Hfit.
  by apply Hfit.
Qed.

(** *** Layers without bias are homogeneous *)

Lemma affine_steps_scale c (xs : list (R * list R)) : forall acc : list R,
  foldl (fun acc xw => zip_with Rplus acc (map (Rmult xw.1) xw.2))
        (map (Rmult c) acc) (map (fun xw : R * list R => (c * xw.1, xw.2)) xs)
  = map (Rmult c)
        (foldl (fun acc xw => zip_with Rplus acc (map (Rmult xw.1) xw.2)) acc xs).
Proof.
  induction xs as [|[x w] xs IH]; intros acc; simpl; [done|].
  rewrite <- IH. f_equal. clear IH.
  revert w. induction acc as [|a acc IHacc]; intros [|b w]; simpl; try done.
  f_equal; [lra|apply IHacc].
Qed.

Lemma zero_bias_scale c layer : zero_bias layer -> map (Rmult c) (bias layer) = bias layer.
Proof.
  unfold zero_bias. induction 1 as [|b l Hb _ IH]; simpl; [done|].
  rewrite IH, Hb. f_equal. lra.
Qed.

Lemma affine_scale c layer row :
  zero_bias layer -> affine layer (map (Rmult c) row) = map (Rmult c) (affine layer row).
Proof.
  intros Hzero. unfold affine. rewrite <- affine_steps_scale, zero_bias_scale by done.
  f_equal. generalize (kernel layer). clear.
  induction row as [|x row IH]; intros [|w k]; simpl; try done. by rewrite IH.
Qed.

Lemma row_logits_scale self c :
  zero_bias (dense1 self) -> zero_bias (dense2 self) -> 0 <= c ->
  affine (dense2 self) (map relu (affine (dense1 self) [c]))
  = map (Rmult c) (affine (dense2 self) (map relu (affine (dense1 self) [1]))).
Proof.
  intros Hz1 Hz2 Hc.
  replace [c] with (map (Rmult c) [1]) by (simpl; f_equal; lra).
  rewrite affine_scale by done.
  assert (map relu (map (Rmult c) (affine (dense1 self) [1]))
          = map (Rmult c) (map relu (affine (dense1 self) [1]))) as ->.
  { rewrite !map_map. apply map_ext. intros x. by apply relu_scale. }
  by apply affine_scale.
Qed.

End NetworkFacts.

(** X3.  When the kernel of [dense2] has as many columns as the layer has
    units, every row of [toxicity_score] has one score per unit, and
    [is_toxic] has the shape of [toxicity_score]: [n, 1] for the layer of
    the script, whatever the batch. *)
Theorem serve_output_shape :
  forall (self : RandomWeights.ToxicityModel) (text : list string),
    RandomWeights.fits (RandomWeights.dense2 self) ->
    Forall (fun row : list R =>
              length row = length (RandomWeights.bias (RandomWeights.dense2 self)))
           (RandomWeights.scores_of (RandomWeights.serve self text))
    /\ Forall2 (fun (row : list R) (flags : list bool) => length row = length flags)
               (RandomWeights.scores_of (RandomWeights.serve self text))
               (RandomWeights.flags_of (RandomWeights.serve self text))
    /\ length (RandomWeights.scores_of (RandomWeights.serve self text)) = length text.
Proof.
  intros self text Hfit. rewrite serve_scores, serve_flags, logits_rows. split_and!.
  - rewrite map_map. apply Forall_map, Forall_forall. intros s _.
    rewrite length_map. by apply affine_length.
  - apply Forall2_fmap, Forall_Forall2_diag, Forall_forall. intros row _.
    by rewrite !length_map.
  - by rewrite !length_map.
Qed.

Lemma serve_output_shape_witness :
  RandomWeights.fits (RandomWeights.dense2 Demo.model)
  /\ length (RandomWeights.scores_of (RandomWeights.serve Demo.model ["hi"; "hello"]))
     = 2%nat.
Proof.
  assert (RandomWeights.fits (RandomWeights.dense2 Demo.model)) as Hfit.
  { unfold RandomWeights.fits. simpl. repeat constructor. }
  split; [exact Hfit|].
  exact (proj2 (proj2 (serve_output_shape Demo.model ["hi"; "hello"] Hfit))).
Defined.

(** X4.  A model whose biases are zero, which is how Keras builds the two
    layers and how the script saves them, gives the empty text the score
    0.5 in every unit and never flags it, whatever the kernels and whatever
    else is in the batch. *)
Theorem fresh_model_on_empty_text :
  forall (self : RandomWeights.ToxicityModel) (text : list string),
    RandomWeights.zero_bias (RandomWeights.dense1 self) ->
    RandomWeights.zero_bias (RandomWeights.dense2 self) ->
    Forall2 (fun (s : string) (row : list R) =>
               s = EmptyString -> Forall (fun t : R => t = (1 / 2)%R) row)
            text (RandomWeights.scores_of (RandomWeights.serve self text))
    /\ Forall2 (fun (s : string) (flags : list bool) =>
                  s = EmptyString -> Forall (fun b : bool => b = false) flags)
               text (RandomWeights.flags_of (RandomWeights.serve self text)).
Proof.
  intros self text Hz1 Hz2.
  assert (RandomWeights.preprocess EmptyString = 0%R) as Hempty by reflexivity.
  assert (RandomWeights.affine (RandomWeights.dense2 self)
            (map RandomWeights.relu
               (RandomWeights.affine (RandomWeights.dense1 self)
                  [RandomWeights.preprocess EmptyString]))
          = map (Rmult 0)
              (RandomWeights.affine (RandomWeights.dense2 self)
                 (map RandomWeights.relu
                    (RandomWeights.affine (RandomWeights.dense1 self) [1%R])))) as Hrow.
  { rewrite Hempty. apply row_logits_scale; [done..|]. lra. }
  rewrite serve_scores, serve_flags, logits_rows, !map_map. split.
  - apply Forall2_fmap_r, Forall_Forall2_diag, Forall_forall. intros s _ ->.
    cbn beta. rewrite Hrow, map_map. apply Forall_map, Forall_forall. intros z _.
    cbn beta. rewrite Rmult_0_l. apply sigmoid_0.
  - apply Forall2_fmap_r, Forall_Forall2_diag, Forall_forall. intros s _ ->.
    cbn beta. rewrite Hrow, map_map. apply Forall_map, Forall_forall. intros z _.
    cbn beta. rewrite Rmult_0_l, sigmoid_0.
    unfold RandomWeights.greater. destruct (Rlt_dec (1 / 2) (1 / 2)); [lra|done].
Qed.

Lemma fresh_model_on_empty_text_witness :
  RandomWeights.zero_bias (RandomWeights.dense1 Demo.model)
  /\ RandomWeights.zero_bias (RandomWeights.dense2 Demo.model)
  /\ Forall2 (fun (s : string) (row : list R) =>
                s = EmptyString -> Forall (fun t : R => t = (1 / 2)%R) row)
             [""; "hi"]
             (RandomWeights.scores_of (RandomWeights.serve Demo.model [""; "hi"])).
Proof.
  assert (RandomWeights.zero_bias (RandomWeights.dense1 Demo.model)) as Hz1.
  { unfold RandomWeights.zero_bias. simpl. repeat constructor. }
  assert (RandomWeights.zero_bias (RandomWeights.dense2 Demo.model)) as Hz2.
  { unfold RandomWeights.zero_bias. simpl. repeat constructor. }
  split; [exact Hz1|]. split; [exact Hz2|].
  exact (proj1 (fresh_model_on_empty_text Demo.model [""; "hi"] Hz1 Hz2)).
Defined.

(** ** Frames and invariants of the runs *)
Module FrameFacts.
Import Py FS SavedModel RunFacts.
Local Open Scope py_scope.

Lemma bind_cases {A B} (c : M A) (k : A -> M B) w r w' :
  bind c k w = (r, w') ->
  (exists e, c w = (inl e, w') /\ r = inl e)
  \/ (exists a w1, c w = (inr a, w1) /\ k a w1 = (r, w')).
Proof.
  unfold bind. destruct (c w) as [[e|a] w1]; intros H.
  - left. exists e. by inversion H.
  - right. by exists a, w1.
Qed.

Lemma makedirs_cases p w r w' :
  makedirs p w = (r, w') ->
  (w' = w /\ exists e, r = inl e /\ makedirs_from [] p (files w) = inl e)
  \/ (r = inr tt /\ console w' = console w
      /\ makedirs_from [] p (files w) = inr (files w')).
Proof.
  unfold makedirs, bind, get_files, lift, put_files, raise, ret.
  destruct (makedirs_from [] p (files w)) as [e|f'] eqn:Hmk; simpl;
    intros H; inversion H; subst; eauto.
Qed.

Lemma write_file_cases p data w r w' :
  write_file p data w = (r, w') ->
  (w' = w /\ lookup_node (files w) p = Some Dir /\ exists e, r = inl e)
  \/ (r = inr tt /\ files w' = <[p := File data]> (files w)
      /\ lookup_node (files w) p <> Some Dir).
Proof.
  unfold write_file, bind, get_files, put_files, raise.
  destruct (lookup_node (files w) p) as [[|d]|] eqn:Hl;
    intros H; inversion H; subst; eauto.
Qed.

Lemma rmtree_cases p w r w' :
  rmtree p w = (r, w') ->
  (w' = w /\ lookup_node (files w) p <> Some Dir /\ exists e, r = inl e)
  \/ (r = inr tt /\ lookup_node (files w) p = Some Dir
      /\ files w' = filter (fun kv : path * node => ~ p `prefix_of` kv.1) (files w)).
Proof.
  unfold rmtree, bind, get_files, put_files, raise.
  destruct (lookup_node (files w) p) as [[|d]|] eqn:Hl;
    intros H; inversion H; subst; eauto.
Qed.

(** *** Nothing outside the destination *)

Lemma keeps_files_confined {A} dest (c : M A) : keeps_files c -> confined_to dest c.
Proof.
  intros Hc w r w' Hrun q _. rewrite (Hc _ _ _ Hrun). split; [done|]. eauto.
Qed.

Lemma confined_bind {A B} dest (c : M A) (k : A -> M B) :
  confined_to dest c -> (forall a, confined_to dest (k a)) -> confined_to dest (bind c k).
Proof.
  intros Hc Hk w r w' Hrun q Hq.
  destruct (bind_cases _ _ _ _ _ Hrun) as [(e & Hcw & _)|(a & w1 & Hcw & Hkw)].
  - by apply (Hc _ _ _ Hcw).
  - destruct (Hc _ _ _ Hcw q Hq) as [Hkeep1 Hadd1].
    destruct (Hk a _ _ _ Hkw q Hq) as [Hkeep2 Hadd2]. split.
    + intros n Hn. by apply Hkeep2, Hkeep1.
    + intros n Hn. destruct (Hadd2 n Hn) as [?|?]; eauto.
Qed.

Lemma confined_for_each {A} dest (l : list A) (body : A -> M unit) :
  (forall a, confined_to dest (body a)) -> confined_to dest (for_each l body).
Proof.
  intros Hb. induction l as [|a l IH]; simpl.
  - apply keeps_files_confined, keeps_files_ret.
  - apply confined_bind; [apply Hb|]. intros _. apply IH.
Qed.

Lemma confined_try {A} dest (c : M A) (h : exn -> M A) :
  confined_to dest c -> (forall e, confined_to dest (h e)) ->
  confined_to dest (try_except_Exception c h).
Proof.
  intros Hc Hh w r w' Hrun q Hq. unfold try_except_Exception in Hrun.
  destruct (c w) as [[e|a] w1] eqn:Hcw.
  - destruct (is_Exception e).
    + destruct (Hc _ _ _ Hcw q Hq) as [Hkeep1 Hadd1].
      destruct (Hh e _ _ _ Hrun q Hq) as [Hkeep2 Hadd2]. split.
      * intros n Hn. by apply Hkeep2, Hkeep1.
      * intros n Hn. destruct (Hadd2 n Hn) as [?|?]; eauto.
    + inversion Hrun; subst. by apply (Hc _ _ _ Hcw).
  - inversion Hrun; subst. by apply (Hc _ _ _ Hcw).
Qed.

Lemma confined_makedirs (dest p : path) :
  dest `prefix_of` p -> confined_to dest (makedirs p).
Proof.
  intros Hp w r w' Hrun q Hq.
  destruct (makedirs_cases _ _ _ _ Hrun) as [[-> _]|(_ & _ & Hmk)]; [split; eauto|].
  destruct (makedirs_from_lookup _ _ _ _ Hmk q) as [Heq|(Hnone & Hdir & Hpre)].
  - rewrite Heq. split; eauto.
  - split; [intros n Hn; congruence|]. intros n Hn. right.
    split; [congruence|].
    destruct (prefix_weak_total _ _ _ Hpre Hp) as [?|?]; done.
Qed.

Lemma confined_write_file (dest p : path) data :
  dest `prefix_of` p -> confined_to dest (write_file p data).
Proof.
  intros Hp w r w' Hrun q Hq.
  destruct (write_file_cases _ _ _ _ _ Hrun) as [(-> & _)|(_ & Hf & _)]; [split; eauto|].
  rewrite Hf, lookup_insert_ne by (intros ->; done). split; eauto.
Qed.

Lemma confined_rmtree (dest p : path) :
  dest `prefix_of` p -> confined_to dest (rmtree p).
Proof.
  intros Hp w r w' Hrun q Hq.
  destruct (rmtree_cases _ _ _ _ Hrun) as [(-> & _)|(_ & _ & Hf)]; [split; eauto|].
  rewrite Hf. split.
  - intros n Hn. apply map_lookup_filter_Some. split; [done|]. simpl.
    intros Hpq. apply Hq. by etrans.
  - intros n [Hn _]%map_lookup_filter_Some. by left.
Qed.

Lemma confined_write_entry (dest : path) ent : confined_to dest (write_entry dest ent).
Proof.
  unfold write_entry. destruct ent as [rel [|data]]; simpl.
  - apply confined_makedirs. by apply prefix_app_r.
  - apply confined_bind; [apply confined_makedirs; by apply prefix_app_r|].
    intros _. apply confined_write_file. by apply prefix_app_r.
Qed.

Lemma confined_save (dest : path) serialized : confined_to dest (save serialized dest).
Proof.
  unfold save. apply confined_bind; [apply keeps_files_confined, keeps_files_lift|].
  intros entries. apply confined_bind; [by apply confined_makedirs|].
  intros _. apply confined_for_each. intros ent. apply confined_write_entry.
Qed.

Lemma confined_print dest line : confined_to dest (print line).
Proof. apply keeps_files_confined, keeps_files_print. Qed.

Lemma keeps_files_print_exc e : keeps_files (print_exc e).
Proof. intros w r w' H. by inversion H. Qed.

Lemma keeps_files_exists_ p : keeps_files (exists_ p).
Proof. intros w r w' H. by inversion H. Qed.

Local Ltac confined_atom :=
  first
    [ apply confined_print
    | apply confined_save
    | apply confined_makedirs; done
    | apply confined_rmtree; done
    | apply keeps_files_confined;
      first [ apply keeps_files_ret | apply keeps_files_lift | apply keeps_files_get_files
            | apply keeps_files_print_tree | apply keeps_files_listdir
            | apply keeps_files_exists_ | apply keeps_files_print_exc
            | apply keeps_files_print_list ] ].

Local Ltac confined_steps :=
  repeat first [ confined_atom | apply confined_bind; [confined_atom|intros ?] ].

Lemma confined_create_serving_model tf_version serialized load :
  confined_to MockLength.model_dir
    (MockLength.create_serving_model tf_version serialized load).
Proof.
  rewrite ScriptFacts.create_serving_model_eq.
  apply confined_bind; [confined_atom|]. intros present.
  apply confined_bind; [destruct present; confined_atom|]. intros _.
  confined_steps.
Qed.

Lemma confined_main tf_version serialized load :
  confined_to MockLength.model_dir (MockLength.main tf_version serialized load).
Proof.
  unfold MockLength.main. apply confined_try.
  - apply confined_bind; [apply confined_create_serving_model|]. intros _. confined_atom.
  - intros e. unfold MockLength.on_error. confined_steps.
Qed.

Lemma confined_random_weights_script script_file model serialized :
  confined_to (RandomWeights.model_path script_file)
    (RandomWeights.script script_file model serialized).
Proof. rewrite ScriptFacts.random_weights_script_eq. confined_steps. Qed.

Lemma confined_hub_script hub_model hub_load serialize :
  confined_to HubFetch.model_dir (HubFetch.script hub_model hub_load serialize).
Proof. rewrite ScriptFacts.hub_script_eq. confined_steps. Qed.

(** *** Well-formed file systems stay well formed *)

Lemma removelast_neq (l : path) : l <> [] -> removelast l <> l.
Proof.
  intros Hl Heq. apply (app_removelast_last EmptyString) in Hl.
  rewrite Heq in Hl. apply (f_equal length) in Hl. rewrite length_app in Hl.
  simpl in Hl. lia.
Qed.

Lemma lookup_node_insert_ne (f : gmap path node) (p q : path) n :
  p <> q -> lookup_node (<[q := n]> f) p = lookup_node f p.
Proof. intros Hne. destruct p; [done|]. simpl. by rewrite lookup_insert_ne. Qed.

Lemma lookup_node_insert_dir (f : gmap path node) (q : path) :
  lookup_node (<[q := Dir]> f) q = Some Dir.
Proof. destruct q; [done|]. simpl. by rewrite lookup_insert_eq. Qed.

Lemma well_formed_insert_dir (f : gmap path node) (q : path) :
  well_formed f -> lookup_node f (removelast q) = Some Dir ->
  well_formed (<[q := Dir]> f).
Proof.
  intros Hwf Hpar p n Hp. simpl.
  destruct (decide (removelast p = q)) as [->|Hne]; [apply lookup_node_insert_dir|].
  rewrite lookup_node_insert_ne by done.
  destruct (decide (p = q)) as [->|Hpq]; [done|].
  rewrite lookup_insert_ne in Hp by done. by apply (Hwf _ _ Hp).
Qed.

Lemma well_formed_insert_file (f : gmap path node) (q : path) data :
  well_formed f -> lookup_node f q <> Some Dir ->
  lookup_node f (removelast q) = Some Dir ->
  well_formed (<[q := File data]> f).
Proof.
  intros Hwf Hq Hpar p n Hp. simpl.
  destruct (decide (p = q)) as [->|Hpq].
  - rewrite lookup_node_insert_ne; [done|].
    apply removelast_neq. intros ->. by apply Hq.
  - rewrite lookup_insert_ne in Hp by done. specialize (Hwf _ _ Hp). simpl in Hwf.
    rewrite lookup_node_insert_ne; [done|]. intros Heq. rewrite Heq in Hwf. done.
Qed.

Lemma makedirs_from_well_formed rest : forall (parent : path) (f f' : gmap path node),
  well_formed f -> lookup_node f parent = Some Dir ->
  makedirs_from parent rest f = inr f' -> well_formed f'.
Proof.
  induction rest as [|c rest IH]; intros parent f f' Hwf Hpar Hmk; simpl in Hmk.
  - by inversion Hmk; subst.
  - assert (forall g : gmap path node, lookup_node g (parent ++ [c]) = g !! (parent ++ [c]))
      as Hnode by (intros g; by destruct parent).
    destruct (f !! (parent ++ [c])) as [[|data]|] eqn:Hq0.
    + apply (IH _ _ _ Hwf) in Hmk; [done|]. by rewrite Hnode.
    + by destruct rest.
    + apply IH in Hmk; [done| |apply lookup_node_insert_dir].
      apply well_formed_insert_dir; [done|]. by rewrite removelast_last.
Qed.

Lemma keeps_files_well_formed {A} (c : M A) : keeps_files c -> keeps_well_formed c.
Proof. intros Hc w r w' Hwf Hrun. by rewrite (Hc _ _ _ Hrun). Qed.

Lemma well_formed_bind {A B} (c : M A) (k : A -> M B) :
  keeps_well_formed c -> (forall a, keeps_well_formed (k a)) ->
  keeps_well_formed (bind c k).
Proof.
  intros Hc Hk w r w' Hwf Hrun.
  destruct (bind_cases _ _ _ _ _ Hrun) as [(e & Hcw & _)|(a & w1 & Hcw & Hkw)].
  - by apply (Hc _ _ _ Hwf Hcw).
  - apply (Hk a _ _ _ (Hc _ _ _ Hwf Hcw) Hkw).
Qed.

Lemma well_formed_for_each {A} (l : list A) (body : A -> M unit) :
  (forall a, keeps_well_formed (body a)) -> keeps_well_formed (for_each l body).
Proof.
  intros Hb. induction l as [|a l IH]; simpl.
  - apply keeps_files_well_formed, keeps_files_ret.
  - apply well_formed_bind; [apply Hb|]. intros _. apply IH.
Qed.

Lemma well_formed_try {A} (c : M A) (h : exn -> M A) :
  keeps_well_formed c -> (forall e, keeps_well_formed (h e)) ->
  keeps_well_formed (try_except_Exception c h).
Proof.
  intros Hc Hh w r w' Hwf Hrun. unfold try_except_Exception in Hrun.
  destruct (c w) as [[e|a] w1] eqn:Hcw.
  - destruct (is_Exception e).
    + apply (Hh e _ _ _ (Hc _ _ _ Hwf Hcw) Hrun).
    + inversion Hrun; subst. by apply (Hc _ _ _ Hwf Hcw).
  - inversion Hrun; subst. by apply (Hc _ _ _ Hwf Hcw).
Qed.

Lemma well_formed_makedirs p : keeps_well_formed (makedirs p).
Proof.
  intros w r w' Hwf Hrun.
  destruct (makedirs_cases _ _ _ _ Hrun) as [[-> _]|(_ & _ & Hmk)]; [done|].
  exact (makedirs_from_well_formed p [] _ _ Hwf eq_refl Hmk).
Qed.

Lemma well_formed_rmtree p : keeps_well_formed (rmtree p).
Proof.
  intros w r w' Hwf Hrun.
  destruct (rmtree_cases _ _ _ _ Hrun) as [(-> & _)|(_ & _ & Hf)]; [done|].
  rewrite Hf. intros q n [Hq Hnp]%map_lookup_filter_Some. simpl in *.
  specialize (Hwf _ _ Hq). simpl in Hwf.
  destruct (removelast q) as [|x l] eqn:Hrl; [done|]. simpl in *.
  apply map_lookup_filter_Some. split; [done|]. simpl.
  intros Hpre. apply Hnp. etrans; [done|]. rewrite <- Hrl. apply prefix_removelast.
Qed.

Lemma well_formed_write_entry dir ent : keeps_well_formed (write_entry dir ent).
Proof.
  unfold write_entry. destruct ent as [rel [|data]]; simpl.
  - apply well_formed_makedirs.
  - intros w r w' Hwf Hrun.
    destruct (bind_cases _ _ _ _ _ Hrun) as [(e & Hmk & _)|(u & w1 & Hmk & Hwr)].
    + by apply (well_formed_makedirs _ _ _ _ Hwf Hmk).
    + pose proof (well_formed_makedirs _ _ _ _ Hwf Hmk) as Hwf1.
      destruct (makedirs_cases _ _ _ _ Hmk) as [(_ & e & ? & _)|(_ & _ & Hfrom)]; [done|].
      pose proof (makedirs_from_creates _ [] _ _ Hfrom eq_refl) as Hpar.
      rewrite app_nil_l in Hpar.
      destruct (write_file_cases _ _ _ _ _ Hwr) as [(-> & _)|(_ & Hf & Hnd)]; [done|].
      rewrite Hf. apply well_formed_insert_file; [done..|].
      destruct rel as [|x rel].
      * exfalso. apply Hnd. simpl in Hpar. by rewrite app_nil_r in *.
      * by rewrite removelast_app.
Qed.

Lemma well_formed_save serialized dir : keeps_well_formed (save serialized dir).
Proof.
  unfold save. apply well_formed_bind; [apply keeps_files_well_formed, keeps_files_lift|].
  intros entries. apply well_formed_bind; [apply well_formed_makedirs|].
  intros _. apply well_formed_for_each. intros ent. apply well_formed_write_entry.
Qed.

Local Ltac well_formed_atom :=
  first
    [ apply well_formed_save
    | apply well_formed_makedirs
    | apply well_formed_rmtree
    | apply keeps_files_well_formed;
      first [ apply keeps_files_ret | apply keeps_files_lift | apply keeps_files_get_files
            | apply keeps_files_print | apply keeps_files_print_tree
            | apply keeps_files_listdir | apply keeps_files_exists_
            | apply keeps_files_print_exc | apply keeps_files_print_list ] ].

Local Ltac well_formed_steps :=
  repeat first [ well_formed_atom | apply well_formed_bind; [well_formed_atom|intros ?] ].

Lemma well_formed_create_serving_model tf_version serialized load :
  keeps_well_formed (MockLength.create_serving_model tf_version serialized load).
Proof.
  rewrite ScriptFacts.create_serving_model_eq.
  apply well_formed_bind; [well_formed_atom|]. intros present.
  apply well_formed_bind; [destruct present; well_formed_atom|]. intros _.
  well_formed_steps.
Qed.

Lemma well_formed_main tf_version serialized load :
  keeps_well_formed (MockLength.main tf_version serialized load).
Proof.
  unfold MockLength.main. apply well_formed_try.
  - apply well_formed_bind; [apply well_formed_create_serving_model|].
    intros _. well_formed_atom.
  - intros e. unfold MockLength.on_error. well_formed_steps.
Qed.

Lemma well_formed_random_weights_script script_file model serialized :
  keeps_well_formed (RandomWeights.script script_file model serialized).
Proof. rewrite ScriptFacts.random_weights_script_eq. well_formed_steps. Qed.

Lemma well_formed_hub_script hub_model hub_load serialize :
  keeps_well_formed (HubFetch.script hub_model hub_load serialize).
Proof. rewrite ScriptFacts.hub_script_eq. well_formed_steps. Qed.

End FrameFacts.

(** ** What an export leaves in the destination *)
Module ExportFacts.
Import Py FS SavedModel RunFacts FrameFacts.
Local Open Scope py_scope.

Lemma write_entry_puts (dir : path) ent w w' :
  dir <> [] -> write_entry dir ent w = (inr tt, w') ->
  files w' !! (dir ++ ent.1) = Some ent.2.
Proof.
  intros Hdir. unfold write_entry. destruct ent as [rel [|data]]; simpl.
  - intros Hmk. apply makedirs_inr in Hmk as [_ Hmk].
    pose proof (makedirs_from_creates _ [] _ _ Hmk eq_refl) as Hnode.
    rewrite app_nil_l in Hnode. by destruct dir.
  - intros (u & w1 & _ & Hwr)%bind_inr.
    apply write_file_inr in Hwr as [-> _]. by rewrite lookup_insert_eq.
Qed.

Lemma write_entry_keeps_dir (dir : path) ent w r w' (q : path) :
  write_entry dir ent w = (r, w') -> files w !! q = Some Dir -> files w' !! q = Some Dir.
Proof.
  unfold write_entry. destruct ent as [rel [|data]]; simpl.
  - intros Hmk Hq. destruct (makedirs_cases _ _ _ _ Hmk) as [[-> _]|(-> & _)]; [done|].
    by eapply makedirs_keeps.
  - intros Hrun Hq.
    destruct (bind_cases _ _ _ _ _ Hrun) as [(e & Hmk & _)|(u & w1 & Hmk & Hwr)].
    + by destruct (makedirs_cases _ _ _ _ Hmk) as [[-> _]|(? & _)].
    + destruct u. pose proof (makedirs_keeps _ _ _ _ _ Hmk Hq) as Hq1.
      destruct (write_file_cases _ _ _ _ _ Hwr) as [(-> & _)|(_ & -> & Hnd)]; [done|].
      rewrite lookup_insert_ne; [done|]. intros <-. apply Hnd.
      destruct (dir ++ rel); [done|]. done.
Qed.

Lemma for_each_write_keeps_dir (dir : path) entries (q : path) : forall w r w',
  for_each entries (write_entry dir) w = (r, w') ->
  files w !! q = Some Dir -> files w' !! q = Some Dir.
Proof.
  induction entries as [|ent entries IH]; intros w r w' Hrun Hq; simpl in Hrun.
  - unfold ret in Hrun. by inversion Hrun; subst.
  - destruct (bind_cases _ _ _ _ _ Hrun) as [(e & Hent & _)|(u & w1 & Hent & Hrest)].
    + by eapply write_entry_keeps_dir.
    + eapply IH; [done|]. by eapply write_entry_keeps_dir.
Qed.

Lemma for_each_write_puts (dir : path) entries : forall w w',
  dir <> [] -> NoDup entries.*1 ->
  for_each entries (write_entry dir) w = (inr tt, w') ->
  forall ent, ent ∈ entries -> files w' !! (dir ++ ent.1) = Some ent.2.
Proof.
  induction entries as [|ent0 entries IH]; intros w w' Hdir Hnd Hrun ent Hin.
  - by apply elem_of_nil in Hin.
  - simpl in Hrun. apply bind_inr in Hrun as (u & w1 & Hent & Hrest). destruct u.
    rewrite fmap_cons in Hnd. apply NoDup_cons in Hnd as [Hfresh Hnd].
    apply elem_of_cons in Hin as [->|Hin]; [|by eapply IH].
    apply (for_each_write_keeps dir entries w1 w' _ _ Hrest
             (write_entry_puts dir _ w w1 Hdir Hent)).
    intros Hrep. apply Hfresh. unfold replaced in Hrep.
    apply Exists_exists in Hrep as (ent' & Hin' & Heq & _).
    apply app_inv_head in Heq. rewrite Heq. by apply list_elem_of_fmap_2.
Qed.

Lemma save_puts (dir : path) entries w w' :
  dir <> [] -> NoDup entries.*1 -> save (inr entries) dir w = (inr tt, w') ->
  files w' !! dir = Some Dir
  /\ forall ent, ent ∈ entries -> files w' !! (dir ++ ent.1) = Some ent.2.
Proof.
  intros Hdir Hnd. unfold save. simpl. intros (es & w0 & Hret & Hrun)%bind_inr.
  unfold ret in Hret. inversion Hret; subst es w0. clear Hret.
  apply bind_inr in Hrun as (u & w1 & Hmk & Hrun). destruct u. split.
  - apply (for_each_write_keeps_dir dir entries dir w1 (inr tt) w' Hrun).
    apply makedirs_inr in Hmk as [_ Hmk].
    pose proof (makedirs_from_creates _ [] _ _ Hmk eq_refl) as Hnode.
    rewrite app_nil_l in Hnode. by destruct dir.
  - by eapply for_each_write_puts.
Qed.

Local Ltac step H u w1 H1 :=
  apply bind_inr in H as (u & w1 & H1 & H).

Lemma mock_model_dir_nonempty : MockLength.model_dir <> [].
Proof. by rewrite ScriptFacts.mock_model_dir_eq. Qed.

Lemma hub_model_dir_nonempty : HubFetch.model_dir <> [].
Proof. by rewrite ScriptFacts.hub_model_dir_eq. Qed.

Lemma model_path_nonempty script_file : RandomWeights.model_path script_file <> [].
Proof. unfold RandomWeights.model_path. by destruct (RandomWeights.models_dir script_file). Qed.

Lemma create_serving_model_puts tf_version entries load w r w' :
  NoDup entries.*1 ->
  MockLength.create_serving_model tf_version (inr entries) load w = (inr r, w') ->
  files w' !! MockLength.model_dir = Some Dir
  /\ forall ent, ent ∈ entries -> files w' !! (MockLength.model_dir ++ ent.1) = Some ent.2.
Proof.
  intros Hnd Hrun. rewrite ScriptFacts.create_serving_model_eq in Hrun.
  step Hrun present w1 Hex. step Hrun u2 w2 Hrm. step Hrun u3 w3 Hmk.
  step Hrun u4 w4 Hpr. step Hrun u5 w5 Hsave. destruct u5.
  assert (files w' = files w5) as ->.
  { revert Hrun. apply keeps_files_bind; [apply keeps_files_print|]. intros _.
    apply keeps_files_bind; [apply keeps_files_print|]. intros _.
    apply keeps_files_bind; [apply keeps_files_print|]. intros _.
    apply keeps_files_bind; [apply keeps_files_get_files|]. intros f.
    apply keeps_files_bind; [apply keeps_files_lift|]. intros _.
    apply keeps_files_bind; [apply keeps_files_print|]. intros _.
    apply keeps_files_bind; [apply keeps_files_print|]. intros _.
    apply keeps_files_bind; [apply keeps_files_print_tree|]. intros _.
    apply keeps_files_ret. }
  by apply (save_puts _ _ _ _ mock_model_dir_nonempty Hnd Hsave).
Qed.

Lemma random_weights_script_puts script_file model entries w w' :
  NoDup entries.*1 ->
  RandomWeights.script script_file model (inr entries) w = (inr tt, w') ->
  files w' !! RandomWeights.model_path script_file = Some Dir
  /\ forall ent, ent ∈ entries ->
       files w' !! (RandomWeights.model_path script_file ++ ent.1) = Some ent.2.
Proof.
  intros Hnd Hrun. rewrite ScriptFacts.random_weights_script_eq in Hrun.
  step Hrun u1 w1 Hp1. step Hrun u2 w2 Hmk. step Hrun u3 w3 Hp3.
  step Hrun u4 w4 Hp4. step Hrun u5 w5 Hsave. destruct u5.
  assert (files w' = files w5) as ->.
  { revert Hrun. apply keeps_files_bind; [apply keeps_files_print|]. intros _.
    apply keeps_files_bind; [apply keeps_files_print|]. intros _.
    apply keeps_files_bind; [apply keeps_files_print|]. intros _.
    apply keeps_files_print_tree. }
  by apply (save_puts _ _ _ _ (model_path_nonempty script_file) Hnd Hsave).
Qed.

Lemma hub_script_puts hub_model hub_load serialize m entries w w' :
  hub_load HubFetch.model_url = inr m -> serialize m = inr entries ->
  NoDup entries.*1 ->
  HubFetch.script hub_model hub_load serialize w = (inr tt, w') ->
  files w' !! HubFetch.model_dir = Some Dir
  /\ forall ent, ent ∈ entries -> files w' !! (HubFetch.model_dir ++ ent.1) = Some ent.2.
Proof.
  intros Hload Hser Hnd Hrun. rewrite ScriptFacts.hub_script_eq in Hrun.
  step Hrun u1 w1 Hp1. step Hrun u2 w2 Hp2. step Hrun u3 w3 Hp3.
  step Hrun u4 w4 Hmk. step Hrun m' w5 Hl. rewrite Hload in Hl.
  injection Hl as <- <-.
  step Hrun u6 w6 Hp6. step Hrun u7 w7 Hsave. rewrite Hser in Hsave. destruct u7.
  assert (files w' = files w7) as ->.
  { revert Hrun. apply keeps_files_bind; [apply keeps_files_print|]. intros _.
    apply keeps_files_bind; [apply keeps_files_print|]. intros _.
    apply keeps_files_bind; [apply keeps_files_listdir|]. intros names.
    apply keeps_files_print_list. }
  by apply (save_puts _ _ _ _ hub_model_dir_nonempty Hnd Hsave).
Qed.

(** In a well-formed file system whatever has something below it is a
    directory. *)
Lemma well_formed_below (f : gmap path node) (p : path) :
  well_formed f ->
  forall (l : path) n, l <> [] -> f !! (p ++ l) = Some n -> lookup_node f p = Some Dir.
Proof.
  intros Hwf l. induction l as [|x l IH] using rev_ind; intros n Hne Hl; [done|].
  specialize (Hwf _ _ Hl). simpl in Hwf.
  rewrite app_assoc, removelast_last in Hwf.
  destruct l as [|y l]; [by rewrite app_nil_r in Hwf|].
  apply (IH Dir); [done|]. by destruct p.
Qed.

(** After a completed run of the mock-length script the nodes at and below
    the destination are fixed by the artifact. *)
Lemma create_serving_model_content tf_version entries load w r w' :
  well_formed (files w) -> NoDup entries.*1 ->
  MockLength.create_serving_model tf_version (inr entries) load w = (inr r, w') ->
  forall (q : path) n,
    MockLength.model_dir `prefix_of` q ->
    files w' !! q = Some n <->
    (q = MockLength.model_dir /\ n = Dir)
    \/ (exists ent, ent ∈ entries /\ q = MockLength.model_dir ++ ent.1 /\ n = ent.2)
    \/ (n = Dir /\ exists ent, ent ∈ entries
                  /\ q `prefix_of` (MockLength.model_dir ++ ent.1)
                  /\ q <> MockLength.model_dir ++ ent.1).
Proof.
  intros Hwf Hnd Hrun q n Hpre.
  pose proof (well_formed_create_serving_model _ _ _ _ _ _ Hwf Hrun) as Hwf'.
  destruct (create_serving_model_puts _ _ _ _ _ _ Hnd Hrun) as [Hdir Hputs].
  assert (forall ent, ent ∈ entries ->
            q `prefix_of` (MockLength.model_dir ++ ent.1) ->
            q <> MockLength.model_dir ++ ent.1 -> files w' !! q = Some Dir) as Hway.
  { intros ent Hin [l Hl] Hne.
    assert (l <> []) as Hl0 by (intros ->; by rewrite app_nil_r in Hl).
    pose proof (Hputs ent Hin) as Hent. rewrite Hl in Hent.
    pose proof (well_formed_below _ q Hwf' l _ Hl0 Hent) as Hq.
    destruct q; [|done]. apply prefix_nil_inv in Hpre.
    by destruct mock_model_dir_nonempty. }
  split.
  - intros Hq.
    destruct (ScriptFacts.create_serving_model_destination _ _ _ _ _ _ Hwf Hrun q n Hq Hpre)
      as [->|Hw].
    + left. split; [done|congruence].
    + apply Exists_exists in Hw as (ent & Hin & Hqe).
      destruct (decide (q = MockLength.model_dir ++ ent.1)) as [->|Hne].
      * right; left. exists ent. split_and!; try done.
        rewrite (Hputs ent Hin) in Hq. congruence.
      * right; right. rewrite (Hway ent Hin Hqe Hne) in Hq.
        split; [congruence|]. by exists ent.
  - intros [[-> ->]|[(ent & Hin & -> & ->)|(-> & ent & Hin & Hqe & Hne)]].
    + done.
    + by apply Hputs.
    + by apply (Hway ent).
Qed.

(** When saving fails, the mock-length script has already emptied the
    destination. *)
Lemma create_serving_model_failed_save tf_version e load w r w' :
  well_formed (files w) ->
  MockLength.create_serving_model tf_version (inl e) load w = (r, w') ->
  forall q : path,
    MockLength.model_dir `prefix_of` q -> q <> MockLength.model_dir ->
    files w' !! q = None.
Proof.
  intros Hwf Hrun. rewrite ScriptFacts.create_serving_model_eq in Hrun.
  pose proof mock_model_dir_nonempty as Hd. revert Hrun Hd.
  generalize MockLength.model_dir. intros d Hrun Hd q [l ->] Hne.
  assert (l <> []) as Hl by (intros ->; by rewrite app_nil_r in Hne).
  assert (lookup_node (files w) d = files w !! d) as Hnode by (by destruct d).
  destruct (bind_cases _ _ _ _ _ Hrun) as [(e0 & Hex & _)|(present & w1 & Hex & Hrun1)];
    rewrite exists_run in Hex; [done|]. injection Hex as Hpresent <-. clear Hrun.
  destruct (bind_cases _ _ _ _ _ Hrun1) as [(e1 & Hrm & _)|(u & w2 & Hrm & Hrun2)].
  { destruct present; [|done].
    destruct (rmtree_cases _ _ _ _ Hrm) as [(-> & Hnd & _)|(? & _)]; [|done].
    destruct (files w !! (d ++ l)) as [n|] eqn:Hq; [|done].
    destruct Hnd. by apply (well_formed_below _ _ Hwf l n). }
  destruct u.
  assert (forall n, files w2 !! (d ++ l) = Some n -> False) as Hclean.
  { intros n Hq. destruct present.
    - destruct (rmtree_clears _ _ _ _ _ Hrm Hq) as [_ Hno]. apply Hno. by apply prefix_app_r.
    - unfold ret in Hrm. injection Hrm as <-.
      apply bool_decide_eq_false in Hpresent. apply Hpresent.
      rewrite (well_formed_below _ _ Hwf l n Hl Hq). eauto. }
  clear Hrun1.
  destruct (bind_cases _ _ _ _ _ Hrun2) as [(e2 & Hmk & _)|(u3 & w3 & Hmk & Hrun3)].
  { destruct (makedirs_cases _ _ _ _ Hmk) as [[-> _]|(? & _)]; [|done].
    destruct (files w2 !! (d ++ l)) as [n|] eqn:Hq; [|done].
    by destruct (Hclean n). }
  destruct u3. clear Hrun2.
  assert (files w3 !! (d ++ l) = None) as Hq3.
  { destruct (files w3 !! (d ++ l)) as [n|] eqn:Hq; [|done].
    destruct (makedirs_adds _ _ _ _ _ Hmk Hq) as [Hq2|[_ Hpre]]; [by destruct (Hclean n)|].
    destruct Hne. apply prefix_antisym; [by apply prefix_app_r|done]. }
  destruct (bind_cases _ _ _ _ _ Hrun3) as [(e3 & Hpr & _)|(u4 & w4 & Hpr & Hrun4)];
    [done|].
  rewrite <- (keeps_files_print _ _ _ _ Hpr) in Hq3.
  destruct (bind_cases _ _ _ _ _ Hrun4) as [(e4 & Hsave & _)|(u5 & w5 & Hsave & _)].
  - rewrite save_inl_serialize in Hsave. by injection Hsave as _ <-.
  - by rewrite save_inl_serialize in Hsave.
Qed.

Lemma main_failed_save tf_version e load w o w' :
  well_formed (files w) ->
  run_main (MockLength.main tf_version (inl e) load) w = (o, w') ->
  forall q : path,
    MockLength.model_dir `prefix_of` q -> q <> MockLength.model_dir ->
    files w' !! q = None.
Proof.
  intros Hwf Hrun q Hq Hne.
  unfold run_main, MockLength.main, try_except_Exception in Hrun.
  destruct (MockLength.create_serving_model tf_version (inl e) load w) as [r0 w0] eqn:Hc.
  pose proof (create_serving_model_failed_save _ _ _ _ _ _ Hwf Hc q Hq Hne) as Hq0.
  unfold bind in Hrun at 1. rewrite Hc in Hrun.
  destruct r0 as [e0|b].
  - destruct (is_Exception e0).
    + destruct (MockLength.on_error e0 w0) as [r1 w1] eqn:Herr.
      assert (files w1 = files w0) as Hf.
      { revert Herr. unfold MockLength.on_error.
        apply keeps_files_bind; [apply keeps_files_print|]. intros _.
        apply keeps_files_print_exc. }
      destruct r1; injection Hrun as _ <-; by rewrite Hf.
    + by injection Hrun as _ <-.
  - unfold ret in Hrun. by injection Hrun as _ <-.
Qed.

Lemma makedirs_fails p w e :
  makedirs_from [] p (files w) = inl e -> makedirs p w = (inl e, w).
Proof. intros Hmk. unfold makedirs, bind, get_files, lift, raise. by rewrite Hmk. Qed.

(** When the destination cannot be created, the hub-fetch script stops
    there, whatever the hub would have answered. *)
Lemma hub_script_blocked hub_model hub_load serialize w e :
  makedirs_from [] HubFetch.model_dir (files w) = inl e ->
  HubFetch.script hub_model hub_load serialize w
  = (inl e,
     World (files w) (console w ++ [Stdout "Script started..."; Stdout "Imports done.";
                                    Stdout "Downloading pretrained toxicity model..."])).
Proof.
  intros Hmk. rewrite ScriptFacts.hub_script_eq.
  rewrite (bind_step _ _ _ _ _ (print_run _ _)).
  rewrite (bind_step _ _ _ _ _ (print_run _ _)).
  rewrite (bind_step _ _ _ _ _ (print_run _ _)).
  apply bind_inl. rewrite (makedirs_fails _ _ e); [|exact Hmk].
  cbn [files console]. by rewrite <- !app_assoc.
Qed.

End ExportFacts.

(** ** What the scripts never remove, and what stops them *)
Module PersistFacts.
Import Py FS SavedModel RunFacts FrameFacts.
Local Open Scope py_scope.

Lemma keeps_files_never_removes {A} (c : M A) : keeps_files c -> never_removes c.
Proof. intros Hc w r w' q n Hrun Hq. rewrite (Hc _ _ _ Hrun). eauto. Qed.

Lemma never_removes_bind {A B} (c : M A) (k : A -> M B) :
  never_removes c -> (forall a, never_removes (k a)) -> never_removes (bind c k).
Proof.
  intros Hc Hk w r w' q n Hrun Hq.
  destruct (bind_cases _ _ _ _ _ Hrun) as [(e & Hcw & _)|(a & w1 & Hcw & Hkw)].
  - by apply (Hc _ _ _ _ _ Hcw).
  - destruct (Hc _ _ _ _ _ Hcw Hq) as (n1 & Hq1 & Hd1).
    destruct (Hk a _ _ _ _ _ Hkw Hq1) as (n2 & Hq2 & Hd2).
    exists n2. split; [done|congruence].
Qed.

Lemma never_removes_for_each {A} (l : list A) (body : A -> M unit) :
  (forall a, never_removes (body a)) -> never_removes (for_each l body).
Proof.
  intros Hb. induction l as [|a l IH]; simpl.
  - apply keeps_files_never_removes, keeps_files_ret.
  - apply never_removes_bind; [apply Hb|]. intros _. apply IH.
Qed.

Lemma never_removes_makedirs (p : path) : never_removes (makedirs p).
Proof.
  intros w r w' q n Hrun Hq.
  destruct (makedirs_cases _ _ _ _ Hrun) as [[-> _]|(_ & _ & Hmk)]; [eauto|].
  destruct (makedirs_from_lookup _ _ _ _ Hmk q) as [Heq|(Hnone & _)].
  - rewrite Heq. eauto.
  - congruence.
Qed.

Lemma never_removes_write_file (p : path) data : never_removes (write_file p data).
Proof.
  intros w r w' q n Hrun Hq.
  destruct (write_file_cases _ _ _ _ _ Hrun) as [(-> & _)|(_ & Hf & Hnd)]; [eauto|].
  rewrite Hf. destruct (decide (q = p)) as [->|Hne].
  - rewrite lookup_insert_eq. exists (File data). split; [done|].
    destruct n as [|d]; [|done]. destruct Hnd. by destruct p.
  - rewrite lookup_insert_ne by done. eauto.
Qed.

Lemma never_removes_write_entry (dest : path) ent : never_removes (write_entry dest ent).
Proof.
  unfold write_entry. destruct ent as [rel [|data]]; simpl.
  - apply never_removes_makedirs.
  - apply never_removes_bind; [apply never_removes_makedirs|].
    intros _. apply never_removes_write_file.
Qed.

Lemma never_removes_save (dest : path) serialized : never_removes (save serialized dest).
Proof.
  unfold save. apply never_removes_bind; [apply keeps_files_never_removes, keeps_files_lift|].
  intros entries. apply never_removes_bind; [apply never_removes_makedirs|].
  intros _. apply never_removes_for_each. intros ent. apply never_removes_write_entry.
Qed.

Local Ltac never_removes_atom :=
  first
    [ apply never_removes_save
    | apply never_removes_makedirs
    | apply keeps_files_never_removes;
      first [ apply keeps_files_print | apply keeps_files_ret | apply keeps_files_lift
            | apply keeps_files_get_files | apply keeps_files_print_tree
            | apply keeps_files_listdir | apply keeps_files_print_list ] ].

Local Ltac never_removes_steps :=
  repeat first [ never_removes_atom
               | apply never_removes_bind; [never_removes_atom|intros ?] ].

Lemma never_removes_random_weights_script script_file model serialized :
  never_removes (RandomWeights.script script_file model serialized).
Proof. rewrite ScriptFacts.random_weights_script_eq. never_removes_steps. Qed.

Lemma never_removes_hub_script hub_model hub_load serialize :
  never_removes (HubFetch.script hub_model hub_load serialize).
Proof. rewrite ScriptFacts.hub_script_eq. never_removes_steps. Qed.

(** *** A file in the way of [os.makedirs] *)

Lemma makedirs_from_blocked (parent rest : path) f (q : path) d :
  q <> [] -> q `prefix_of` rest -> f !! (parent ++ q) = Some (File d) ->
  exists e, makedirs_from parent rest f = inl e
            /\ (exn_kind e = FileExistsError \/ exn_kind e = NotADirectoryError).
Proof.
  revert parent f q. induction rest as [|c rest IH]; intros parent f q Hq Hpre Hfile.
  - apply prefix_nil_inv in Hpre. done.
  - destruct q as [|c' q]; [done|].
    apply prefix_cons_inv_1 in Hpre as Hc. subst c'.
    apply prefix_cons_inv_2 in Hpre.
    rewrite (cons_middle c parent q), app_assoc in Hfile. simpl.
    destruct (f !! (parent ++ [c])) as [[|d']|] eqn:Hl.
    + apply (IH _ _ q); [|done|done]. intros ->. rewrite app_nil_r in Hfile. congruence.
    + eexists. split; [done|]. simpl. destruct rest; eauto.
    + apply (IH _ _ q); [|done|].
      * intros ->. rewrite app_nil_r in Hfile. congruence.
      * rewrite lookup_insert_ne; [done|].
        intros Heq. rewrite <- Heq, Hl in Hfile. done.
Qed.

Lemma makedirs_from_fails (parent rest : path) f e :
  makedirs_from parent rest f = inl e ->
  exists (q : path) d, q <> [] /\ q `prefix_of` rest /\ f !! (parent ++ q) = Some (File d).
Proof.
  revert parent f. induction rest as [|c rest IH]; intros parent f Hmk; [done|].
  simpl in Hmk. destruct (f !! (parent ++ [c])) as [[|d']|] eqn:Hl.
  - destruct (IH _ _ Hmk) as (q & d & Hq & Hpre & Hfile).
    exists (c :: q), d. split; [done|]. split; [by apply prefix_cons|].
    by rewrite (cons_middle c parent q), app_assoc.
  - exists [c], d'. split; [done|]. split; [|done]. apply prefix_cons, prefix_nil.
  - destruct (IH _ _ Hmk) as (q & d & Hq & Hpre & Hfile).
    exists (c :: q), d. split; [done|]. split; [by apply prefix_cons|].
    rewrite (cons_middle c parent q), app_assoc.
    rewrite lookup_insert_ne in Hfile; [done|].
    intros Heq. rewrite <- Heq, lookup_insert_eq in Hfile. done.
Qed.

Lemma random_weights_script_blocked script_file model serialized w e :
  makedirs_from [] (RandomWeights.model_path script_file) (files w) = inl e ->
  RandomWeights.script script_file model serialized w
  = (inl e,
     World (files w)
       (console w ++ [Stdout ("Creating model at: "
                              +:+ path_str (RandomWeights.model_path script_file))])).
Proof.
  intros Hmk. rewrite ScriptFacts.random_weights_script_eq.
  rewrite (bind_step _ _ _ _ _ (print_run _ _)).
  apply bind_inl. by rewrite (ExportFacts.makedirs_fails _ _ e).
Qed.

End PersistFacts.

(** ** The listings *)
Module ListingFacts.
Import Py FS SavedModel RunFacts FrameFacts.
Local Open Scope py_scope.

Lemma child_of_Some (p : path) kv c n :
  child_of p kv = Some (c, n) <-> kv = (p ++ [c], n).
Proof.
  unfold child_of. destruct kv as [k v]. simpl. split.
  - destruct (decide (removelast k = p)) as [<-|]; [|done].
    destruct (last k) as [c'|] eqn:Hlast; [|done]. simpl. intros [= -> ->].
    apply last_Some in Hlast as [l' ->]. by rewrite removelast_last.
  - intros [= -> ->]. rewrite removelast_last, decide_True by done.
    by rewrite last_snoc.
Qed.

Lemma elem_of_children (f : gmap path node) (p : path) c n :
  (c, n) ∈ children f p <-> f !! (p ++ [c]) = Some n.
Proof.
  unfold children. rewrite list_elem_of_omap. split.
  - intros ([k v] & Hin & Hc). apply child_of_Some in Hc as [= -> ->].
    by apply elem_of_map_to_list in Hin.
  - intros Hl. exists (p ++ [c], n). split; [by apply elem_of_map_to_list|].
    by apply child_of_Some.
Qed.

Lemma elem_of_subdirs (f : gmap path node) (p : path) c :
  c ∈ subdirs f p <-> f !! (p ++ [c]) = Some Dir.
Proof.
  unfold subdirs. rewrite list_elem_of_fmap. split.
  - intros ([c' n] & -> & [Hd Hin]%list_elem_of_filter). simpl in *.
    apply elem_of_children in Hin. by destruct n.
  - intros Hl. exists (c, Dir). split; [done|]. apply list_elem_of_filter.
    split; [done|]. by apply elem_of_children.
Qed.

Lemma elem_of_plain_files (f : gmap path node) (p : path) c :
  c ∈ plain_files f p <-> exists d, f !! (p ++ [c]) = Some (File d).
Proof.
  unfold plain_files. rewrite list_elem_of_fmap. split.
  - intros ([c' n] & -> & [Hd Hin]%list_elem_of_filter). simpl in *.
    apply elem_of_children in Hin. destruct n as [|d]; [done|]. eauto.
  - intros [d Hl]. exists (c, File d). split; [done|]. apply list_elem_of_filter.
    split; [done|]. by apply elem_of_children.
Qed.

Lemma NoDup_children_names (f : gmap path node) (p : path) : NoDup (children f p).*1.
Proof.
  unfold children. pose proof (NoDup_fst_map_to_list f) as Hnd.
  revert Hnd. generalize (map_to_list f). intros l.
  induction l as [|[k v] l IH]; intros Hnd; [constructor|].
  rewrite fmap_cons in Hnd. apply NoDup_cons in Hnd as [Hk Hnd]. simpl.
  destruct (child_of p (k, v)) as [[c n]|] eqn:Hc; simpl; [|by apply IH].
  apply NoDup_cons. split; [|by apply IH].
  intros ([c' n'] & Hc' & Hin)%list_elem_of_fmap. simpl in Hc'. subst c'.
  apply list_elem_of_omap in Hin as ([k' v'] & Hin & Hc').
  apply child_of_Some in Hc as [= -> ->]. apply child_of_Some in Hc' as [= -> ->].
  apply Hk. apply list_elem_of_fmap. by exists (p ++ [c], n').
Qed.

(** *** [os.walk] *)

Lemma walk_from_sound (fuel : nat) (f : gmap path node) (root : path) t :
  t ∈ walk_from fuel f root ->
  root `prefix_of` t.1.1
  /\ (t.1.1 = root \/ f !! t.1.1 = Some Dir)
  /\ t.1.2 = subdirs f t.1.1 /\ t.2 = plain_files f t.1.1.
Proof.
  revert root. induction fuel as [|fuel IH]; intros root Hin; simpl in Hin.
  - by apply elem_of_nil in Hin.
  - apply elem_of_cons in Hin as [->|Hin]; [simpl; eauto|].
    apply list_elem_of_In, in_flat_map in Hin as (d & Hd & Hin).
    apply list_elem_of_In in Hd, Hin. apply elem_of_subdirs in Hd.
    destruct (IH _ Hin) as (Hpre & Hdir & Hrest). split; [|split; [|done]].
    + etrans; [|done]. by apply prefix_app_r.
    + right. by destruct Hdir as [->|?].
Qed.

Lemma walk_from_complete (fuel : nat) (f : gmap path node) (root k : path) :
  length k < fuel ->
  (forall k' : path, k' `prefix_of` k -> k' <> [] -> f !! (root ++ k') = Some Dir) ->
  (root ++ k, subdirs f (root ++ k), plain_files f (root ++ k)) ∈ walk_from fuel f root.
Proof.
  revert root k. induction fuel as [|fuel IH]; intros root k Hlen Hdirs; [lia|].
  simpl. destruct k as [|c k].
  - rewrite app_nil_r. by left.
  - right. apply list_elem_of_In, in_flat_map. exists c. split.
    + apply list_elem_of_In, elem_of_subdirs. apply Hdirs; [|done].
      apply prefix_cons, prefix_nil.
    + apply list_elem_of_In. rewrite (cons_middle c root k), app_assoc.
      apply IH; [simpl in Hlen; lia|]. intros k' Hk' Hne.
      rewrite <- app_assoc. apply Hdirs; [|done]. by apply prefix_cons.
Qed.

(** In a well-formed file system no path is deeper than the number of
    nodes, so that the fuel of [walk] is enough. *)
Lemma depth_below_size (f : gmap path node) (root k : path) :
  (forall k' : path, k' `prefix_of` k -> k' <> [] -> is_Some (f !! (root ++ k'))) ->
  length k <= size f.
Proof.
  intros Hdirs.
  set (keys := (fun i => root ++ take (S i) k) <$> seq 0 (length k)).
  assert (NoDup keys) as Hnd.
  { apply NoDup_fmap_2_strong; [|apply NoDup_seq].
    intros i j Hi Hj Heq. apply elem_of_seq in Hi, Hj.
    apply app_inv_head, (f_equal length) in Heq. rewrite !length_take in Heq. lia. }
  assert (list_to_set (C := gset path) keys ⊆ dom f) as Hsub.
  { intros q Hq. apply elem_of_list_to_set, list_elem_of_fmap in Hq as (i & -> & Hi).
    apply elem_of_seq in Hi. apply elem_of_dom, Hdirs.
    - apply prefix_take.
    - intros Heq. apply (f_equal length) in Heq. rewrite length_take in Heq.
      cbn [length] in Heq. lia. }
  apply subseteq_size in Hsub. rewrite size_list_to_set, size_dom in Hsub by done.
  unfold keys in Hsub. by rewrite length_fmap, length_seq in Hsub.
Qed.

Lemma well_formed_chain (f : gmap path node) (root k : path) n :
  well_formed f -> f !! (root ++ k) = Some n ->
  forall k' : path, k' `prefix_of` k -> k' <> [] -> k' <> k -> f !! (root ++ k') = Some Dir.
Proof.
  intros Hwf Hk k' [l ->] Hne Hne'.
  assert (l <> []) as Hl by (intros ->; by rewrite app_nil_r in Hne').
  rewrite app_assoc in Hk.
  pose proof (ExportFacts.well_formed_below f (root ++ k') Hwf l n Hl Hk) as Hdir.
  destruct (root ++ k') eqn:Hp; [|done]. by destruct root, k'.
Qed.

Lemma walk_spec (f : gmap path node) (top : path) t :
  well_formed f -> lookup_node f top = Some Dir ->
  t ∈ walk f top
  <-> top `prefix_of` t.1.1 /\ lookup_node f t.1.1 = Some Dir
      /\ t.1.2 = subdirs f t.1.1 /\ t.2 = plain_files f t.1.1.
Proof.
  intros Hwf Htop. unfold walk. rewrite Htop. split.
  - intros Hin. destruct (walk_from_sound _ _ _ _ Hin) as (Hpre & Hdir & Hrest).
    split; [done|]. split; [|done].
    destruct Hdir as [->|Hdir]; [done|]. by destruct (t.1.1).
  - destruct t as [[root dirs] fs]. cbn [fst snd]. intros ([k ->] & Hdir & -> & ->).
    assert (forall k' : path, k' `prefix_of` k -> k' <> [] ->
              f !! (top ++ k') = Some Dir) as Hchain.
    { intros k' Hk' Hne. destruct (decide (k' = k)) as [->|Hne'].
      - destruct (top ++ k) eqn:Hp; [by destruct top, k|done].
      - apply (well_formed_chain f top k Dir); try done.
        destruct (top ++ k) eqn:Hp; [|done]. destruct top, k; try done.
        by apply prefix_nil_inv in Hk'. }
    apply walk_from_complete; [|done].
    apply Nat.lt_succ_r, (depth_below_size f top). intros k' Hk' Hne.
    rewrite (Hchain k' Hk' Hne). eauto.
Qed.

(** *** Printing *)

Lemma for_each_prints {A} (l : list A) (body : A -> M unit) (out : A -> list output) :
  (forall a w, body a w = (inr tt, World (files w) (console w ++ out a))) ->
  forall w, for_each l body w
            = (inr tt, World (files w) (console w ++ flat_map out l)).
Proof.
  intros Hbody. induction l as [|a l IH]; intros w; simpl.
  - unfold ret. rewrite app_nil_r. by destruct w.
  - rewrite (bind_step _ _ _ _ _ (Hbody a w)), IH. cbn [files console].
    by rewrite <- app_assoc.
Qed.

Local Abbreviation tree_lines top :=
  (fun t : path * list string * list string =>
     Stdout (spaces (2 * (length t.1.1 - length top)) +:+ basename t.1.1 +:+ "/")
       :: map (fun file => Stdout (spaces (2 * (length t.1.1 - length top + 1)) +:+ file))
              t.2).

Lemma print_tree_run (top : path) w :
  print_tree top w
  = (inr tt,
     World (files w) (console w ++ flat_map (tree_lines top) (walk (files w) top))).
Proof.
  unfold print_tree. rewrite (bind_step _ _ _ _ _ (eq_refl : get_files w = (inr (files w), w))).
  apply for_each_prints. intros [[root dirs] fs] w1. cbn [fst snd].
  rewrite (bind_step _ _ _ _ _ (print_run _ _)).
  rewrite (for_each_prints fs _ (fun file =>
             [Stdout (spaces (2 * (length root - length top + 1)) +:+ file)])).
  - cbn [files console]. rewrite <- app_assoc. do 3 f_equal.
  - intros file w2. apply print_run.
Qed.

Lemma print_tree_names_files (top q : path) w d :
  well_formed (files w) -> lookup_node (files w) top = Some Dir ->
  top `prefix_of` q -> q <> top -> files w !! q = Some (File d) ->
  exists k, Stdout (spaces k +:+ basename q)
            ∈ flat_map (tree_lines top) (walk (files w) top).
Proof.
  intros Hwf Htop [l ->] Hne Hq.
  destruct l as [|c l _] using rev_ind; [by rewrite app_nil_r in Hne|].
  rewrite app_assoc in Hq |- *. eexists.
  apply list_elem_of_In, in_flat_map.
  exists (top ++ l, subdirs (files w) (top ++ l), plain_files (files w) (top ++ l)).
  split.
  - apply list_elem_of_In, walk_spec; [done|done|]. simpl.
    split; [by apply prefix_app_r|]. split; [|done].
    apply (ExportFacts.well_formed_below _ _ Hwf [c] (File d)); done.
  - apply list_elem_of_In. cbn [fst snd]. right. apply list_elem_of_fmap.
    exists c. split.
    + unfold basename. by rewrite last_snoc.
    + apply elem_of_plain_files. eauto.
Qed.

Lemma print_tree_names_dirs (top q : path) w :
  well_formed (files w) -> lookup_node (files w) top = Some Dir ->
  top `prefix_of` q -> lookup_node (files w) q = Some Dir ->
  exists k, Stdout (spaces k +:+ basename q +:+ "/")
            ∈ flat_map (tree_lines top) (walk (files w) top).
Proof.
  intros Hwf Htop Hpre Hq. eexists.
  apply list_elem_of_In, in_flat_map.
  exists (q, subdirs (files w) q, plain_files (files w) q). split.
  - apply list_elem_of_In, walk_spec; done.
  - apply list_elem_of_In. cbn [fst snd]. by left.
Qed.

(** *** [os.listdir] *)

Lemma listdir_run (p : path) w :
  lookup_node (files w) p = Some Dir ->
  listdir p w = (inr (children (files w) p).*1, w).
Proof.
  intros Hp. unfold listdir.
  rewrite (bind_step _ _ _ _ _ (eq_refl : get_files w = (inr (files w), w))).
  by rewrite Hp.
Qed.

Lemma elem_of_children_names (f : gmap path node) (p : path) c :
  c ∈ (children f p).*1 <-> is_Some (f !! (p ++ [c])).
Proof.
  rewrite list_elem_of_fmap. split.
  - intros ([c' n] & -> & Hin). apply elem_of_children in Hin. eauto.
  - intros [n Hn]. exists (c, n). split; [done|]. by apply elem_of_children.
Qed.

Lemma listdir_cases (p : path) w names w' :
  listdir p w = (inr names, w') ->
  w' = w /\ names = (children (files w) p).*1.
Proof.
  unfold listdir. intros Hrun. apply bind_inr in Hrun as (f & w1 & Hget & Hrun).
  injection Hget as <- <-.
  destruct (lookup_node (files w) p) as [[|d]|]; [|done|done].
  by injection Hrun as <- <-.
Qed.

(** *** The listings at the end of the scripts *)

Local Ltac step H u w1 H1 :=
  apply bind_inr in H as (u & w1 & H1 & H).

Lemma lookup_node_dir (f : gmap path node) (p : path) :
  f !! p = Some Dir -> lookup_node f p = Some Dir.
Proof. by destruct p. Qed.

Lemma lookup_node_snoc (f : gmap path node) (p : path) c :
  lookup_node f (p ++ [c]) = f !! (p ++ [c]).
Proof. by destruct p. Qed.

(** What prints nothing. *)
Lemma keeps_console_ret {A} (a : A) : keeps_console (ret a).
Proof. intros w r w' H. by inversion H. Qed.

Lemma keeps_console_lift {A} (x : exn + A) : keeps_console (lift x).
Proof. intros w r w' H. destruct x; by inversion H. Qed.

Lemma keeps_console_get_files : keeps_console get_files.
Proof. intros w r w' H. by inversion H. Qed.

Lemma keeps_console_exists_ p : keeps_console (exists_ p).
Proof. intros w r w' H. by inversion H. Qed.

Lemma keeps_console_bind {A B} (c : M A) (k : A -> M B) :
  keeps_console c -> (forall a, keeps_console (k a)) -> keeps_console (bind c k).
Proof.
  intros Hc Hk w r w' Hrun.
  destruct (bind_cases _ _ _ _ _ Hrun) as [(e & Hcw & _)|(a & w1 & Hcw & Hkw)].
  - by apply (Hc _ _ _ Hcw).
  - rewrite (Hk a _ _ _ Hkw). by apply (Hc _ _ _ Hcw).
Qed.

Lemma keeps_console_for_each {A} (l : list A) (body : A -> M unit) :
  (forall a, keeps_console (body a)) -> keeps_console (for_each l body).
Proof.
  intros Hb. induction l as [|a l IH]; simpl.
  - apply keeps_console_ret.
  - apply keeps_console_bind; [apply Hb|]. intros _. apply IH.
Qed.

Lemma keeps_console_makedirs (p : path) : keeps_console (makedirs p).
Proof.
  intros w r w' Hrun.
  by destruct (makedirs_cases _ _ _ _ Hrun) as [[-> _]|(_ & ? & _)].
Qed.

Lemma keeps_console_rmtree (p : path) : keeps_console (rmtree p).
Proof.
  unfold rmtree. apply keeps_console_bind; [apply keeps_console_get_files|]. intros f.
  destruct (lookup_node f p) as [[|d]|]; intros w r w' H; by inversion H.
Qed.

Lemma keeps_console_write_file (p : path) data : keeps_console (write_file p data).
Proof.
  unfold write_file. apply keeps_console_bind; [apply keeps_console_get_files|]. intros f.
  destruct (lookup_node f p) as [[|d]|]; intros w r w' H; by inversion H.
Qed.

Lemma keeps_console_save (dest : path) serialized : keeps_console (save serialized dest).
Proof.
  unfold save. apply keeps_console_bind; [apply keeps_console_lift|]. intros entries.
  apply keeps_console_bind; [apply keeps_console_makedirs|]. intros _.
  apply keeps_console_for_each. intros [rel [|data]]; unfold write_entry; simpl.
  - apply keeps_console_makedirs.
  - apply keeps_console_bind; [apply keeps_console_makedirs|]. intros _.
    apply keeps_console_write_file.
Qed.

Lemma print_console line w r w' :
  print line w = (r, w') -> console w' = console w ++ [Stdout line].
Proof. intros H. by inversion H. Qed.

Lemma listing_names_entries (dest : path) (entries : artifact) w' :
  well_formed (files w') -> files w' !! dest = Some Dir ->
  (forall ent, ent ∈ entries -> files w' !! (dest ++ ent.1) = Some ent.2) ->
  forall (rel : path) d, (rel, File d) ∈ entries ->
    exists k, Stdout (spaces k +:+ basename rel)
              ∈ flat_map (tree_lines dest) (walk (files w') dest).
Proof.
  intros Hwf Hdir Hent rel d Hin. specialize (Hent _ Hin). simpl in Hent.
  assert (rel <> []) as Hrel.
  { intros ->. rewrite app_nil_r in Hent. congruence. }
  destruct (print_tree_names_files dest (dest ++ rel) w' d Hwf) as [k Hk].
  - by apply lookup_node_dir.
  - by apply prefix_app_r.
  - intros Heq. rewrite <- (app_nil_r dest) in Heq at 2. by apply app_inv_head in Heq.
  - done.
  - exists k.
    assert (basename (dest ++ rel) = basename rel) as <-; [|done].
    unfold basename. rewrite last_app. destruct (last rel) eqn:Hl; [done|].
    by apply last_None in Hl.
Qed.

Lemma listing_head (dest : path) (f : gmap path node) :
  f !! dest = Some Dir ->
  head (flat_map (tree_lines dest) (walk f dest))
  = Some (Stdout (basename dest +:+ "/")).
Proof.
  intros Hdir. unfold walk. rewrite (lookup_node_dir _ _ Hdir).
  cbn [walk_from flat_map fst snd app head]. by rewrite Nat.sub_diag.
Qed.

Lemma create_serving_model_transcript tf_version entries load w r w' :
  NoDup entries.*1 -> well_formed (files w) ->
  MockLength.create_serving_model tf_version (inr entries) load w = (inr r, w') ->
  exists listing,
    console w'
    = console w
      ++ [Stdout ("Creating model with TensorFlow " +:+ tf_version);
          Stdout "✅ Model created successfully";
          Stdout ("📁 Model saved to: " +:+ MockLength.model_dir_literal);
          Stdout (nl +:+ "📋 Verifying saved model...");
          Stdout "✅ Model loads correctly";
          Stdout (nl +:+ "📁 Created files:")]
      ++ listing
    /\ head listing = Some (Stdout "1/")
    /\ forall (rel : path) d, (rel, File d) ∈ entries ->
         exists k, Stdout (spaces k +:+ basename rel) ∈ listing.
Proof.
  intros Hnd Hwf Hrun.
  destruct (ExportFacts.create_serving_model_puts _ _ _ _ _ _ Hnd Hrun) as [Hdir Hent].
  pose proof (well_formed_create_serving_model _ _ _ _ _ _ Hwf Hrun) as Hwf'.
  rewrite ScriptFacts.create_serving_model_eq in Hrun.
  step Hrun present w1 H1. apply keeps_console_exists_ in H1.
  step Hrun u2 w2 H2.
  assert (console w2 = console w1) as Hc2.
  { destruct present; [by apply keeps_console_rmtree in H2|by apply keeps_console_ret in H2]. }
  step Hrun u3 w3 H3. apply keeps_console_makedirs in H3.
  step Hrun u4 w4 H4. apply print_console in H4.
  step Hrun u5 w5 H5. apply keeps_console_save in H5.
  step Hrun u6 w6 H6. apply print_console in H6.
  step Hrun u7 w7 H7. apply print_console in H7.
  step Hrun u8 w8 H8. apply print_console in H8.
  step Hrun f9 w9 H9. apply keeps_console_get_files in H9.
  step Hrun u10 w10 H10. apply keeps_console_lift in H10.
  step Hrun u11 w11 H11. apply print_console in H11.
  step Hrun u12 w12 H12. apply print_console in H12.
  step Hrun u13 w13 H13. rewrite print_tree_run in H13.
  injection H13 as _ <-. unfold ret in Hrun. injection Hrun as _ <-.
  cbn [files console] in *.
  exists (flat_map (tree_lines MockLength.model_dir)
            (walk (files w12) MockLength.model_dir)).
  split; [|split].
  - rewrite H12, H11, H10, H9, H8, H7, H6, H5, H4, H3, Hc2, H1.
    by rewrite <- !app_assoc.
  - rewrite (listing_head _ _ Hdir). by rewrite ScriptFacts.mock_model_dir_eq.
  - by apply (listing_names_entries MockLength.model_dir entries
                (World (files w12) (console w12))).
Qed.

Lemma basename_model_path script_file :
  basename (RandomWeights.model_path script_file) = "1".
Proof.
  unfold basename, RandomWeights.model_path. by rewrite last_app.
Qed.

Lemma random_weights_script_transcript script_file model entries w w' :
  NoDup entries.*1 -> well_formed (files w) ->
  RandomWeights.script script_file model (inr entries) w = (inr tt, w') ->
  exists listing,
    console w'
    = console w
      ++ [Stdout ("Creating model at: "
                  +:+ path_str (RandomWeights.model_path script_file));
          Stdout "Building model...";
          Stdout ("Saving model to "
                  +:+ path_str (RandomWeights.model_path script_file) +:+ "...");
          Stdout "✅ Model created successfully!";
          Stdout ("📁 Model location: "
                  +:+ path_str (RandomWeights.model_path script_file));
          Stdout (nl +:+ "📋 Created files:")]
      ++ listing
    /\ head listing = Some (Stdout "1/")
    /\ forall (rel : path) d, (rel, File d) ∈ entries ->
         exists k, Stdout (spaces k +:+ basename rel) ∈ listing.
Proof.
  intros Hnd Hwf Hrun.
  destruct (ExportFacts.random_weights_script_puts _ _ _ _ _ Hnd Hrun) as [Hdir Hent].
  pose proof (well_formed_random_weights_script _ _ _ _ _ _ Hwf Hrun) as Hwf'.
  rewrite ScriptFacts.random_weights_script_eq in Hrun.
  step Hrun u1 w1 H1. apply print_console in H1.
  step Hrun u2 w2 H2. apply keeps_console_makedirs in H2.
  step Hrun u3 w3 H3. apply print_console in H3.
  step Hrun u4 w4 H4. apply print_console in H4.
  step Hrun u5 w5 H5. apply keeps_console_save in H5.
  step Hrun u6 w6 H6. apply print_console in H6.
  step Hrun u7 w7 H7. apply print_console in H7.
  step Hrun u8 w8 H8. apply print_console in H8.
  rewrite print_tree_run in Hrun. injection Hrun as <-.
  cbn [files console] in *.
  exists (flat_map (tree_lines (RandomWeights.model_path script_file))
            (walk (files w8) (RandomWeights.model_path script_file))).
  split; [|split].
  - rewrite H8, H7, H6, H5, H4, H3, H2, H1. by rewrite <- !app_assoc.
  - rewrite (listing_head _ _ Hdir). by rewrite basename_model_path.
  - by apply (listing_names_entries (RandomWeights.model_path script_file) entries
                (World (files w8) (console w8))).
Qed.

Lemma hub_script_transcript hub_model hub_load serialize (m : hub_model) entries w w' :
  hub_load HubFetch.model_url = inr m -> serialize m = inr entries ->
  NoDup entries.*1 -> well_formed (files w) ->
  HubFetch.script hub_model hub_load serialize w = (inr tt, w') ->
  exists names,
    console w'
    = console w
      ++ [Stdout "Script started...";
          Stdout "Imports done.";
          Stdout "Downloading pretrained toxicity model...";
          Stdout "Model downloaded from TF Hub.";
          Stdout ("✅ Model saved at " +:+ HubFetch.model_dir_literal);
          Stdout "Saved model contents:";
          StdoutList names]
    /\ NoDup names
    /\ (forall c, c ∈ names <-> is_Some (files w' !! (HubFetch.model_dir ++ [c])))
    /\ (forall (ent : path * node) c, ent ∈ entries -> head ent.1 = Some c -> c ∈ names).
Proof.
  intros Hload Hser Hnd Hwf Hrun.
  destruct (ExportFacts.hub_script_puts _ _ _ _ _ _ _ Hload Hser Hnd Hrun) as [Hdir Hent].
  pose proof (well_formed_hub_script _ _ _ _ _ _ Hwf Hrun) as Hwf'.
  rewrite ScriptFacts.hub_script_eq in Hrun.
  step Hrun u1 w1 H1. apply print_console in H1.
  step Hrun u2 w2 H2. apply print_console in H2.
  step Hrun u3 w3 H3. apply print_console in H3.
  step Hrun u4 w4 H4. apply keeps_console_makedirs in H4.
  step Hrun m5 w5 H5. apply keeps_console_lift in H5.
  step Hrun u6 w6 H6. apply print_console in H6.
  step Hrun u7 w7 H7. apply keeps_console_save in H7.
  step Hrun u8 w8 H8. apply print_console in H8.
  step Hrun u9 w9 H9. apply print_console in H9.
  step Hrun names w10 H10. apply listdir_cases in H10 as [-> ->].
  unfold print_list in Hrun. injection Hrun as <-. cbn [files console] in *.
  exists (children (files w9) HubFetch.model_dir).*1. split; [|split; [|split]].
  - rewrite H9, H8, H7, H6, H5, H4, H3, H2, H1. by rewrite <- !app_assoc.
  - apply NoDup_children_names.
  - intros c. apply elem_of_children_names.
  - intros [rel n] c Hin Hhead. apply elem_of_children_names.
    specialize (Hent _ Hin). cbn [fst snd] in Hent, Hhead.
    destruct rel as [|c' rel]; [done|]. cbn [head] in Hhead. injection Hhead as ->.
    rewrite (cons_middle c HubFetch.model_dir rel), app_assoc in Hent.
    rewrite <- lookup_node_snoc. by apply (well_formed_ancestor _ _ Hwf' rel n).
Qed.

End ListingFacts.

(** ** Further properties of the exports *)
Section ExportExtras.
Import Py FS SavedModel.

(** X5.  Whatever its outcome, no script removes or changes a path outside
    its destination directory; outside it, a run at most creates the
    missing directories on the way to the destination. *)
Theorem scripts_confined_to_destination :
  (forall tf_version serialized load,
     confined_to MockLength.model_dir (MockLength.main tf_version serialized load))
  /\ (forall script_file model serialized,
        confined_to (RandomWeights.model_path script_file)
          (RandomWeights.script script_file model serialized))
  /\ (forall hub_model hub_load serialize,
        confined_to HubFetch.model_dir (HubFetch.script hub_model hub_load serialize)).
Proof.
  split_and!.
  - apply FrameFacts.confined_main.
  - apply FrameFacts.confined_random_weights_script.
  - apply FrameFacts.confined_hub_script.
Qed.

Lemma scripts_confined_to_destination_witness :
  ~ MockLength.model_dir `prefix_of` ["mnt"; "d"]
  /\ files (Demo.stale_world MockLength.model_dir) !! ["mnt"; "d"] = Some Dir
  /\ files (MockLength.main "2.15.0" (inl Demo.not_serializable) Demo.load_ok
              (Demo.stale_world MockLength.model_dir)).2 !! ["mnt"; "d"] = Some Dir.
Proof.
  assert (~ MockLength.model_dir `prefix_of` ["mnt"; "d"]) as Hout
    by (apply (bool_decide_unpack _); vm_compute; reflexivity).
  assert (files (Demo.stale_world MockLength.model_dir) !! ["mnt"; "d"] = Some Dir) as Hin
    by (vm_compute; reflexivity).
  split; [exact Hout|]. split; [exact Hin|].
  exact (proj1 (proj1 scripts_confined_to_destination "2.15.0"
                  (inl Demo.not_serializable) Demo.load_ok
                  (Demo.stale_world MockLength.model_dir) _ _
                  (surjective_pairing _) ["mnt"; "d"] Hout) Dir Hin).
Defined.

(** X6.  Every script keeps the file system well formed, whatever its
    outcome: after a run, complete or not, every file and directory still
    lies in a directory. *)
Theorem scripts_keep_file_system_well_formed :
  (forall tf_version serialized load,
     keeps_well_formed (MockLength.main tf_version serialized load))
  /\ (forall script_file model serialized,
        keeps_well_formed (RandomWeights.script script_file model serialized))
  /\ (forall hub_model hub_load serialize,
        keeps_well_formed (HubFetch.script hub_model hub_load serialize)).
Proof.
  split_and!.
  - apply FrameFacts.well_formed_main.
  - apply FrameFacts.well_formed_random_weights_script.
  - apply FrameFacts.well_formed_hub_script.
Qed.

Lemma scripts_keep_file_system_well_formed_witness :
  well_formed (files (Demo.stale_world HubFetch.model_dir))
  /\ well_formed (files Demo.hub_run.2).
Proof.
  assert (well_formed (files (Demo.stale_world HubFetch.model_dir))) as Hwf
    by (apply (bool_decide_unpack _); vm_compute; reflexivity).
  split; [exact Hwf|].
  exact (proj2 (proj2 scripts_keep_file_system_well_formed) unit Demo.hub_up
           Demo.serialize_hub_model (Demo.stale_world HubFetch.model_dir) _ _ Hwf
           (surjective_pairing _)).
Defined.

(** X7.  When an export completes and the artifact names every path once,
    the destination is a directory and every file and directory of the
    artifact is in place below it, the files with their content.  This holds
    for the three scripts. *)
Theorem export_puts_artifact_in_place :
  (forall tf_version entries load w r w',
     NoDup entries.*1 ->
     MockLength.create_serving_model tf_version (inr entries) load w = (inr r, w') ->
     files w' !! MockLength.model_dir = Some Dir
     /\ forall ent, ent ∈ entries ->
          files w' !! (MockLength.model_dir ++ ent.1) = Some ent.2)
  /\ (forall script_file model entries w w',
        NoDup entries.*1 ->
        RandomWeights.script script_file model (inr entries) w = (inr tt, w') ->
        files w' !! RandomWeights.model_path script_file = Some Dir
        /\ forall ent, ent ∈ entries ->
             files w' !! (RandomWeights.model_path script_file ++ ent.1) = Some ent.2)
  /\ (forall hub_model hub_load serialize (m : hub_model) entries w w',
        hub_load HubFetch.model_url = inr m -> serialize m = inr entries ->
        NoDup entries.*1 ->
        HubFetch.script hub_model hub_load serialize w = (inr tt, w') ->
        files w' !! HubFetch.model_dir = Some Dir
        /\ forall ent, ent ∈ entries ->
             files w' !! (HubFetch.model_dir ++ ent.1) = Some ent.2).
Proof.
  split_and!.
  - intros. by eapply ExportFacts.create_serving_model_puts.
  - intros. by eapply ExportFacts.random_weights_script_puts.
  - intros. by eapply ExportFacts.hub_script_puts.
Qed.

Lemma export_puts_artifact_in_place_witness :
  NoDup Demo.saved_model_files.*1
  /\ (["saved_model.pb"], File "graph") ∈ Demo.saved_model_files
  /\ files Demo.mock_run.2 !! (MockLength.model_dir ++ ["saved_model.pb"])
     = Some (File "graph")
  /\ files Demo.random_weights_run.2 !! (Demo.random_weights_dest ++ ["saved_model.pb"])
     = Some (File "graph")
  /\ files Demo.hub_run.2 !! (HubFetch.model_dir ++ ["saved_model.pb"])
     = Some (File "graph").
Proof.
  assert (NoDup Demo.saved_model_files.*1) as Hnd
    by (apply (bool_decide_unpack _); vm_compute; reflexivity).
  assert ((["saved_model.pb"], File "graph") ∈ Demo.saved_model_files) as Hin
    by (apply (bool_decide_unpack _); vm_compute; reflexivity).
  split; [exact Hnd|]. split; [exact Hin|]. split_and!.
  - refine (proj2 (proj1 export_puts_artifact_in_place "2.15.0" Demo.saved_model_files
                     Demo.load_ok (Demo.stale_world MockLength.model_dir) true
                     Demo.mock_run.2 Hnd _) _ Hin).
    apply RunFacts.run_inr. vm_compute. reflexivity.
  - refine (proj2 (proj1 (proj2 export_puts_artifact_in_place) Demo.script_file Demo.model
                     Demo.saved_model_files (Demo.stale_world Demo.random_weights_dest)
                     Demo.random_weights_run.2 Hnd _) _ Hin).
    apply RunFacts.run_inr. vm_compute. reflexivity.
  - refine (proj2 (proj2 (proj2 export_puts_artifact_in_place) unit Demo.hub_up
                     Demo.serialize_hub_model tt Demo.saved_model_files
                     (Demo.stale_world HubFetch.model_dir) Demo.hub_run.2
                     eq_refl eq_refl Hnd _) _ Hin).
    apply RunFacts.run_inr. vm_compute. reflexivity.
Defined.

(** X8.  What a completed run of the mock-length script leaves at and below
    its destination depends on the artifact alone: two completed runs that
    save the same artifact, each started on a well-formed file system, end
    with the same nodes there, whatever the destination held before.  In
    particular a second run changes nothing in the destination. *)
Theorem mock_destination_fixed_by_artifact :
  forall tf_version1 tf_version2 load1 load2 entries w1 w2 r1 r2 w1' w2',
    NoDup entries.*1 ->
    well_formed (files w1) -> well_formed (files w2) ->
    MockLength.create_serving_model tf_version1 (inr entries) load1 w1 = (inr r1, w1') ->
    MockLength.create_serving_model tf_version2 (inr entries) load2 w2 = (inr r2, w2') ->
    forall q : path,
      MockLength.model_dir `prefix_of` q -> files w1' !! q = files w2' !! q.
Proof.
  intros tfv1 tfv2 load1 load2 entries w1 w2 r1 r2 w1' w2' Hnd Hwf1 Hwf2 Hrun1 Hrun2 q Hq.
  pose proof (ExportFacts.create_serving_model_content _ _ _ _ _ _ Hwf1 Hnd Hrun1 q) as H1.
  pose proof (ExportFacts.create_serving_model_content _ _ _ _ _ _ Hwf2 Hnd Hrun2 q) as H2.
  apply option_eq. intros n. by rewrite (H1 n Hq), (H2 n Hq).
Qed.

Lemma mock_destination_fixed_by_artifact_witness :
  NoDup Demo.saved_model_files.*1
  /\ well_formed (files (Demo.stale_world MockLength.model_dir))
  /\ well_formed (files Demo.empty_world)
  /\ files Demo.mock_run.2 !! (MockLength.model_dir ++ ["stale.txt"])
     = files (MockLength.create_serving_model "2.15.0" (inr Demo.saved_model_files)
                Demo.load_ok Demo.empty_world).2
         !! (MockLength.model_dir ++ ["stale.txt"]).
Proof.
  assert (NoDup Demo.saved_model_files.*1) as Hnd
    by (apply (bool_decide_unpack _); vm_compute; reflexivity).
  assert (well_formed (files (Demo.stale_world MockLength.model_dir))) as Hwf1
    by (apply (bool_decide_unpack _); vm_compute; reflexivity).
  assert (well_formed (files Demo.empty_world)) as Hwf2
    by (apply (bool_decide_unpack _); vm_compute; reflexivity).
  split; [exact Hnd|]. split; [exact Hwf1|]. split; [exact Hwf2|].
  refine (mock_destination_fixed_by_artifact "2.15.0" "2.15.0" Demo.load_ok Demo.load_ok
            Demo.saved_model_files (Demo.stale_world MockLength.model_dir)
            Demo.empty_world true true _ _ Hnd Hwf1 Hwf2 _ _ _ _).
  - apply RunFacts.run_inr. vm_compute. reflexivity.
  - apply RunFacts.run_inr. vm_compute. reflexivity.
  - by apply prefix_app_r.
Defined.

(** X9.  The mock-length script removes the old model before it knows
    that the new one can be saved: when TensorFlow raises instead of
    producing the artifact, a run started on a well-formed file system ends,
    whatever the exception, with nothing below the destination. *)
Theorem failed_save_leaves_destination_empty :
  forall tf_version e load w o w',
    well_formed (files w) ->
    run_main (MockLength.main tf_version (inl e) load) w = (o, w') ->
    forall q : path,
      MockLength.model_dir `prefix_of` q -> q <> MockLength.model_dir ->
      files w' !! q = None.
Proof.
  intros tf_version e load w o w' Hwf Hrun q Hq Hne.
  by apply (ExportFacts.main_failed_save _ _ _ _ _ _ Hwf Hrun).
Qed.

Lemma failed_save_leaves_destination_empty_witness :
  well_formed (files (Demo.stale_world MockLength.model_dir))
  /\ files (Demo.stale_world MockLength.model_dir)
       !! (MockLength.model_dir ++ ["stale.txt"]) = Some (File "left over")
  /\ files (run_main (MockLength.main "2.15.0" (inl Demo.not_serializable) Demo.load_ok)
              (Demo.stale_world MockLength.model_dir)).2
       !! (MockLength.model_dir ++ ["stale.txt"]) = None.
Proof.
  assert (well_formed (files (Demo.stale_world MockLength.model_dir))) as Hwf
    by (apply (bool_decide_unpack _); vm_compute; reflexivity).
  assert (MockLength.model_dir ++ ["stale.txt"] <> MockLength.model_dir) as Hne
    by (apply (bool_decide_unpack _); vm_compute; reflexivity).
  split; [exact Hwf|]. split; [vm_compute; reflexivity|].
  exact (failed_save_leaves_destination_empty "2.15.0" Demo.not_serializable Demo.load_ok
           (Demo.stale_world MockLength.model_dir) _ _ Hwf (surjective_pairing _)
           (MockLength.model_dir ++ ["stale.txt"]) (prefix_app_r _ _ _ (reflexivity _)) Hne).
Defined.

(** X10.  The random-weights and the hub-fetch scripts create their
    destination before anything else: when a file is in the way of the
    destination directory, [os.makedirs] raises, the run ends there with the
    exception uncaught and the file system as it was, having printed only
    the lines before [os.makedirs]; the hub is not contacted and nothing is
    saved, whatever the hub and TensorFlow would have answered. *)
Theorem scripts_stop_at_blocked_destination :
  (forall script_file model serialized w (q : path) d,
     q <> [] -> q `prefix_of` RandomWeights.model_path script_file ->
     files w !! q = Some (File d) ->
     exists e,
       run_main (RandomWeights.script script_file model serialized) w
       = (Uncaught e,
          World (files w)
            (console w ++ [Stdout ("Creating model at: "
                                   +:+ path_str (RandomWeights.model_path script_file))])))
  /\ (forall hub_model hub_load serialize w (q : path) d,
        q <> [] -> q `prefix_of` HubFetch.model_dir ->
        files w !! q = Some (File d) ->
        exists e,
          run_main (HubFetch.script hub_model hub_load serialize) w
          = (Uncaught e,
             World (files w)
               (console w ++ [Stdout "Script started..."; Stdout "Imports done.";
                              Stdout "Downloading pretrained toxicity model..."]))).
Proof.
  split.
  - intros script_file model serialized w q d Hq Hpre Hfile.
    destruct (PersistFacts.makedirs_from_blocked [] _ (files w) q d Hq Hpre Hfile)
      as (e & Hmk & _).
    exists e. unfold run_main.
    by rewrite (PersistFacts.random_weights_script_blocked _ _ _ _ _ Hmk).
  - intros hub_model hub_load serialize w q d Hq Hpre Hfile.
    destruct (PersistFacts.makedirs_from_blocked [] _ (files w) q d Hq Hpre Hfile)
      as (e & Hmk & _).
    exists e. unfold run_main.
    by rewrite (ExportFacts.hub_script_blocked _ _ _ _ _ Hmk).
Qed.

Lemma scripts_stop_at_blocked_destination_witness :
  ["D:"; "ivan"] `prefix_of` HubFetch.model_dir
  /\ exists e,
       run_main (HubFetch.script unit Demo.hub_up Demo.serialize_hub_model)
         (World {[ ["D:"] := Dir; ["D:"; "ivan"] := File "notes" ]} [])
       = (Uncaught e,
          World {[ ["D:"] := Dir; ["D:"; "ivan"] := File "notes" ]}
            [Stdout "Script started..."; Stdout "Imports done.";
             Stdout "Downloading pretrained toxicity model..."]).
Proof.
  assert (["D:"; "ivan"] `prefix_of` HubFetch.model_dir) as Hpre
    by (apply (bool_decide_unpack _); vm_compute; reflexivity).
  split; [exact Hpre|].
  refine (proj2 scripts_stop_at_blocked_destination unit Demo.hub_up
            Demo.serialize_hub_model
            (World {[ ["D:"] := Dir; ["D:"; "ivan"] := File "notes" ]} [])
            ["D:"; "ivan"] "notes" _ Hpre _).
  - done.
  - vm_compute. reflexivity.
Defined.

(** X11.  The random-weights and the hub-fetch scripts remove nothing:
    whatever the outcome of a run, every path that was there before is still
    there after it, a directory still a directory and a file still a file
    (its content may have been replaced). *)
Theorem scripts_without_cleanup_never_remove :
  (forall script_file model serialized,
     never_removes (RandomWeights.script script_file model serialized))
  /\ (forall hub_model hub_load serialize,
        never_removes (HubFetch.script hub_model hub_load serialize)).
Proof.
  split.
  - apply PersistFacts.never_removes_random_weights_script.
  - apply PersistFacts.never_removes_hub_script.
Qed.

Lemma scripts_without_cleanup_never_remove_witness :
  files (Demo.stale_world HubFetch.model_dir) !! (HubFetch.model_dir ++ ["stale.txt"])
  = Some (File "left over")
  /\ exists n', files (HubFetch.script unit Demo.hub_down Demo.serialize_hub_model
                       (Demo.stale_world HubFetch.model_dir)).2 !! (HubFetch.model_dir ++ ["stale.txt"])
                = Some n'
                /\ is_dir n' = is_dir (File "left over").
Proof.
  assert (files (Demo.stale_world HubFetch.model_dir)
            !! (HubFetch.model_dir ++ ["stale.txt"]) = Some (File "left over")) as Hin
    by (vm_compute; reflexivity).
  split; [exact Hin|].
  exact (proj2 scripts_without_cleanup_never_remove unit Demo.hub_down
           Demo.serialize_hub_model (Demo.stale_world HubFetch.model_dir) _ _
           (HubFetch.model_dir ++ ["stale.txt"]) (File "left over")
           (surjective_pairing _) Hin).
Defined.

End ExportExtras.

(** ** The listings the scripts print *)
Section ListingExtras.
Import Py FS SavedModel.

(** X12.  In a well-formed file system, [os.walk] from a directory [top]
    yields exactly one triple for every directory at or below [top], with
    the names of the directories and of the files directly inside it: the
    fuel of the walk, the number of nodes plus one, is always enough. *)
Theorem walk_visits_exactly_the_directories :
  forall (f : gmap path node) (top : path),
    well_formed f -> lookup_node f top = Some Dir ->
    forall (root : path) dirs fs,
      (root, dirs, fs) ∈ walk f top
      <-> top `prefix_of` root /\ lookup_node f root = Some Dir
          /\ dirs = subdirs f root /\ fs = plain_files f root
          /\ (forall c, c ∈ dirs <-> f !! (root ++ [c]) = Some Dir)
          /\ (forall c, c ∈ fs <-> exists d, f !! (root ++ [c]) = Some (File d)).
Proof.
  intros f top Hwf Htop root dirs fs.
  rewrite (ListingFacts.walk_spec f top (root, dirs, fs) Hwf Htop). cbn [fst snd].
  split.
  - intros (Hpre & Hdir & -> & ->). split_and!; try done.
    + intros c. apply ListingFacts.elem_of_subdirs.
    + intros c. apply ListingFacts.elem_of_plain_files.
  - intros (Hpre & Hdir & -> & -> & _). done.
Qed.

Lemma walk_visits_exactly_the_directories_witness :
  well_formed (files Demo.hub_run.2)
  /\ lookup_node (files Demo.hub_run.2) HubFetch.model_dir = Some Dir
  /\ (HubFetch.model_dir ++ ["variables"],
      subdirs (files Demo.hub_run.2) (HubFetch.model_dir ++ ["variables"]),
      plain_files (files Demo.hub_run.2) (HubFetch.model_dir ++ ["variables"]))
     ∈ walk (files Demo.hub_run.2) HubFetch.model_dir.
Proof.
  assert (well_formed (files Demo.hub_run.2)) as Hwf
    by (apply (bool_decide_unpack _); vm_compute; reflexivity).
  assert (lookup_node (files Demo.hub_run.2) HubFetch.model_dir = Some Dir) as Htop
    by (vm_compute; reflexivity).
  split; [exact Hwf|]. split; [exact Htop|].
  apply (proj2 (walk_visits_exactly_the_directories _ _ Hwf Htop _ _ _)).
  split_and!.
  - by apply prefix_app_r.
  - vm_compute. reflexivity.
  - reflexivity.
  - reflexivity.
  - intros c. apply ListingFacts.elem_of_subdirs.
  - intros c. apply ListingFacts.elem_of_plain_files.
Defined.



(** X14.  What a completed run of the mock-length script prints, started on
    a well-formed file system with an artifact that names every path once:
    the six progress lines, then the listing, which starts with the line of
    the destination directory and names every file of the artifact. *)
Theorem mock_run_transcript :
  forall tf_version entries load w r w',
    NoDup entries.*1 -> well_formed (files w) ->
    MockLength.create_serving_model tf_version (inr entries) load w = (inr r, w') ->
    exists listing,
      console w'
      = console w
        ++ [Stdout ("Creating model with TensorFlow " +:+ tf_version);
            Stdout "✅ Model created successfully";
            Stdout ("📁 Model saved to: " +:+ MockLength.model_dir_literal);
            Stdout (nl +:+ "📋 Verifying saved model...");
            Stdout "✅ Model loads correctly";
            Stdout (nl +:+ "📁 Created files:")]
        ++ listing
      /\ head listing = Some (Stdout "1/")
      /\ forall (rel : path) d, (rel, File d) ∈ entries ->
           exists k, Stdout (spaces k +:+ basename rel) ∈ listing.
Proof.
  intros tf_version entries load w r w' Hnd Hwf Hrun.
  by apply (ListingFacts.create_serving_model_transcript _ _ _ _ _ _ Hnd Hwf Hrun).
Qed.

Lemma mock_run_transcript_witness :
  exists listing,
    console Demo.mock_run.2
    = [Stdout "Creating model with TensorFlow 2.15.0";
       Stdout "✅ Model created successfully";
       Stdout ("📁 Model saved to: " +:+ MockLength.model_dir_literal);
       Stdout (nl +:+ "📋 Verifying saved model...");
       Stdout "✅ Model loads correctly";
       Stdout (nl +:+ "📁 Created files:")]
      ++ listing
    /\ head listing = Some (Stdout "1/")
    /\ forall (rel : path) d, (rel, File d) ∈ Demo.saved_model_files ->
         exists k, Stdout (spaces k +:+ basename rel) ∈ listing.
Proof.
  assert (NoDup Demo.saved_model_files.*1) as Hnd
    by (apply (bool_decide_unpack _); vm_compute; reflexivity).
  assert (well_formed (files (Demo.stale_world MockLength.model_dir))) as Hwf
    by (apply (bool_decide_unpack _); vm_compute; reflexivity).
  refine (mock_run_transcript "2.15.0" Demo.saved_model_files Demo.load_ok
            (Demo.stale_world MockLength.model_dir) true Demo.mock_run.2 Hnd Hwf _).
  apply RunFacts.run_inr. vm_compute. reflexivity.
Defined.

(** X15.  What a completed run of the random-weights script prints, started
    on a well-formed file system with an artifact that names every path
    once: the six progress lines, then the listing, which starts with the
    line of the destination directory and names every file of the
    artifact. *)
Theorem random_weights_run_transcript :
  forall script_file model entries w w',
    NoDup entries.*1 -> well_formed (files w) ->
    RandomWeights.script script_file model (inr entries) w = (inr tt, w') ->
    exists listing,
      console w'
      = console w
        ++ [Stdout ("Creating model at: "
                    +:+ path_str (RandomWeights.model_path script_file));
            Stdout "Building model...";
            Stdout ("Saving model to "
                    +:+ path_str (RandomWeights.model_path script_file) +:+ "...");
            Stdout "✅ Model created successfully!";
            Stdout ("📁 Model location: "
                    +:+ path_str (RandomWeights.model_path script_file));
            Stdout (nl +:+ "📋 Created files:")]
        ++ listing
      /\ head listing = Some (Stdout "1/")
      /\ forall (rel : path) d, (rel, File d) ∈ entries ->
           exists k, Stdout (spaces k +:+ basename rel) ∈ listing.
Proof.
  intros script_file model entries w w' Hnd Hwf Hrun.
  by apply (ListingFacts.random_weights_script_transcript _ _ _ _ _ Hnd Hwf Hrun).
Qed.

Lemma random_weights_run_transcript_witness :
  exists listing,
    console Demo.random_weights_run.2
    = [Stdout ("Creating model at: " +:+ path_str Demo.random_weights_dest);
       Stdout "Building model...";
       Stdout ("Saving model to " +:+ path_str Demo.random_weights_dest +:+ "...");
       Stdout "✅ Model created successfully!";
       Stdout ("📁 Model location: " +:+ path_str Demo.random_weights_dest);
       Stdout (nl +:+ "📋 Created files:")]
      ++ listing
    /\ head listing = Some (Stdout "1/")
    /\ forall (rel : path) d, (rel, File d) ∈ Demo.saved_model_files ->
         exists k, Stdout (spaces k +:+ basename rel) ∈ listing.
Proof.
  assert (NoDup Demo.saved_model_files.*1) as Hnd
    by (apply (bool_decide_unpack _); vm_compute; reflexivity).
  assert (well_formed (files (Demo.stale_world Demo.random_weights_dest))) as Hwf
    by (apply (bool_decide_unpack _); vm_compute; reflexivity).
  refine (random_weights_run_transcript Demo.script_file Demo.model
            Demo.saved_model_files (Demo.stale_world Demo.random_weights_dest)
            Demo.random_weights_run.2 Hnd Hwf _).
  apply RunFacts.run_inr. vm_compute. reflexivity.
Defined.

(** X16.  What a completed run of the hub-fetch script prints, started on a
    well-formed file system with an artifact that names every path once: the
    six progress lines, then the line [print] writes for the list that
    [os.listdir] returned.  That list holds exactly the names directly
    inside the destination, each once, among them the first component of
    every path of the artifact. *)
Theorem hub_fetch_run_transcript :
  forall hub_model hub_load serialize (m : hub_model) entries w w',
    hub_load HubFetch.model_url = inr m -> serialize m = inr entries ->
    NoDup entries.*1 -> well_formed (files w) ->
    HubFetch.script hub_model hub_load serialize w = (inr tt, w') ->
    exists names,
      console w'
      = console w
        ++ [Stdout "Script started...";
            Stdout "Imports done.";
            Stdout "Downloading pretrained toxicity model...";
            Stdout "Model downloaded from TF Hub.";
            Stdout ("✅ Model saved at " +:+ HubFetch.model_dir_literal);
            Stdout "Saved model contents:";
            StdoutList names]
      /\ NoDup names
      /\ (forall c, c ∈ names <-> is_Some (files w' !! (HubFetch.model_dir ++ [c])))
      /\ (forall (ent : path * node) c,
            ent ∈ entries -> head ent.1 = Some c -> c ∈ names).
Proof.
  intros hub_model hub_load serialize m entries w w' Hload Hser Hnd Hwf Hrun.
  by apply (ListingFacts.hub_script_transcript _ _ _ m _ _ _ Hload Hser Hnd Hwf Hrun).
Qed.

Lemma hub_fetch_run_transcript_witness :
  exists names,
    console Demo.hub_run.2
    = [Stdout "Script started...";
       Stdout "Imports done.";
       Stdout "Downloading pretrained toxicity model...";
       Stdout "Model downloaded from TF Hub.";
       Stdout ("✅ Model saved at " +:+ HubFetch.model_dir_literal);
       Stdout "Saved model contents:";
       StdoutList names]
    /\ NoDup names
    /\ (forall c, c ∈ names
                  <-> is_Some (files Demo.hub_run.2 !! (HubFetch.model_dir ++ [c])))
    /\ (forall (ent : path * node) c,
          ent ∈ Demo.saved_model_files -> head ent.1 = Some c -> c ∈ names).
Proof.
  assert (NoDup Demo.saved_model_files.*1) as Hnd
    by (apply (bool_decide_unpack _); vm_compute; reflexivity).
  assert (well_formed (files (Demo.stale_world HubFetch.model_dir))) as Hwf
    by (apply (bool_decide_unpack _); vm_compute; reflexivity).
  refine (hub_fetch_run_transcript unit Demo.hub_up Demo.serialize_hub_model tt
            Demo.saved_model_files (Demo.stale_world HubFetch.model_dir)
            Demo.hub_run.2 eq_refl eq_refl Hnd Hwf _).
  apply RunFacts.run_inr. vm_compute. reflexivity.
Defined.

End ListingExtras.
